(** * invest-app: the transaction extraction and categorisation pipeline

    A shallow embedding of
    - [src/utils/transactionProcessor.ts]  (the line parser and the
      description normaliser),
    - [src/lib/ai/classifier.ts]           (the keyword classifier),
    - the bank-statement route that asks a language model, function
      [processTransactionText]            (validation of the model's answer
      and the per-category aggregation),
    - [src/app/api/process-pdf/route.ts]   (the route that parses locally),
    - [src/utils/categoryClassifier.ts]    (the classifier by lists of
      keywords),
    - the page [BankStatementProcessor]    (the change of a category and the
      totals over several files).

    Conventions of the embedding.
    - A JavaScript string is a [string]: a sequence of 8-bit code units, read
      as the Latin-1 range of UTF-16.  White space, digits, word characters
      and letter case are those of ECMAScript restricted to that range.
    - A JavaScript number is the rational ([Q]) that a binary64 number
      stands for, or [NaN] or an infinity ([number]); there is one zero.
      Numerals are read, and the sums, products and quotients of the two
      routes and of the page are rounded, to the nearest binary64 number
      ([Num.flQ], [Num.fl]).  The amounts, totals and summary values of the
      bank-statement route are kept as rationals: they are finite as long as
      no product or sum leaves the range of binary64.  The scores of the
      keyword classifier are exact rationals.
    - Regular expressions are kept as syntax trees and run by a backtracking
      matcher with the greedy, ordered semantics of ECMAScript.
    - An exception is an explicit outcome ([Throw]). *)

From Stdlib Require Import String Ascii List Bool Arith ZArith QArith Qround Qabs Qminmax Lia.
From Stdlib Require Import DecimalString.
From Stdlib Require Import Lqa Qpower DecimalNat Sorted.
Import ListNotations.

Local Open Scope string_scope.

Set Warnings "-register-all".

(** ** Characters and strings, as ECMAScript sees them *)

Module JS.

Definition code (c : ascii) : nat := nat_of_ascii c.

Definition between (lo hi : nat) (c : ascii) : bool :=
  Nat.leb lo (code c) && Nat.leb (code c) hi.

(** [\d] *)
Definition isDigit (c : ascii) : bool := between 48 57 c.

(** [\w] : letters, digits and the underscore *)
Definition isWord (c : ascii) : bool :=
  between 97 122 c || between 65 90 c || isDigit c || Nat.eqb (code c) 95.

(** [\s], also what [trim] removes: TAB, LF, VT, FF, CR, SP and NBSP *)
Definition isWhiteSpace (c : ascii) : bool :=
  between 9 13 c || Nat.eqb (code c) 32 || Nat.eqb (code c) 160.

Definition isChar (d : ascii) (c : ascii) : bool := Ascii.eqb c d.

Definition anyChar (c : ascii) : bool := true.

(** [String.prototype.toLowerCase] on one code unit: A-Z, and the Latin-1
    capitals U+00C0-U+00DE except the multiplication sign U+00D7 *)
Definition lowerChar (c : ascii) : ascii :=
  if between 65 90 c then ascii_of_nat (code c + 32)
  else if between 192 222 c && negb (Nat.eqb (code c) 215)
       then ascii_of_nat (code c + 32)
  else c.

(** Canonicalisation of the [i] flag, for a pattern character below U+0080:
    the two characters have the same upper case, and a character from
    U+0080 on is never mapped into ASCII *)
Definition upperAscii (c : ascii) : ascii :=
  if between 97 122 c then ascii_of_nat (code c - 32) else c.

Definition isCharNoCase (d : ascii) (c : ascii) : bool :=
  Ascii.eqb (upperAscii c) (upperAscii d).

Fixpoint toLowerCase (s : string) : string :=
  match s with
  | EmptyString => EmptyString
  | String c r => String (lowerChar c) (toLowerCase r)
  end.

Fixpoint trimStart (s : string) : string :=
  match s with
  | EmptyString => EmptyString
  | String c r => if isWhiteSpace c then trimStart r else s
  end.

Fixpoint trimEnd (s : string) : string :=
  match s with
  | EmptyString => EmptyString
  | String c r =>
      match trimEnd r with
      | EmptyString => if isWhiteSpace c then EmptyString else String c EmptyString
      | r' => String c r'
      end
  end.

Definition trim (s : string) : string := trimEnd (trimStart s).

Fixpoint startsWith (s w : string) {struct w} : bool :=
  match w, s with
  | EmptyString, _ => true
  | String d w', String c s' => Ascii.eqb c d && startsWith s' w'
  | String _ _, EmptyString => false
  end.

(** [s.includes(w)] *)
Fixpoint includes (s w : string) : bool :=
  startsWith s w ||
  match s with
  | EmptyString => false
  | String _ r => includes r w
  end.

Fixpoint drop (n : nat) (s : string) : string :=
  match n, s with
  | O, _ => s
  | S n', String _ r => drop n' r
  | S _, EmptyString => EmptyString
  end.

Fixpoint take (n : nat) (s : string) : string :=
  match n, s with
  | S n', String c r => String c (take n' r)
  | _, _ => EmptyString
  end.

(** [s.replace(w, '')] with a string pattern: the first occurrence only *)
Fixpoint removeFirst (s w : string) : string :=
  if startsWith s w then drop (String.length w) s
  else match s with
       | EmptyString => EmptyString
       | String c r => String c (removeFirst r w)
       end.

(** [s.split(sep)] with a one-character separator *)
Fixpoint split (sep : ascii) (s : string) : list string :=
  match s with
  | EmptyString => [EmptyString]
  | String c r =>
      if Ascii.eqb c sep then EmptyString :: split sep r
      else match split sep r with
           | [] => [String c EmptyString]
           | p :: ps => String c p :: ps
           end
  end.

Fixpoint repeatChar (c : ascii) (n : nat) : string :=
  match n with
  | O => EmptyString
  | S n' => String c (repeatChar c n')
  end.

(** [s.padStart(n, c)] with a one-character filler *)
Definition padStart (n : nat) (c : ascii) (s : string) : string :=
  repeatChar c (n - String.length s) ++ s.

(** [String(n)] for a natural number *)
Definition natToString (n : nat) : string :=
  NilEmpty.string_of_uint (Nat.to_uint n).

(** [s] without the characters that satisfy [p] *)
Fixpoint reject (p : ascii -> bool) (s : string) : string :=
  match s with
  | EmptyString => EmptyString
  | String c r => if p c then reject p r else String c (reject p r)
  end.

(** some character of [s] satisfies [p] *)
Fixpoint any (p : ascii -> bool) (s : string) : bool :=
  match s with
  | EmptyString => false
  | String c r => p c || any p r
  end.

(** every character of [s] satisfies [p] *)
Fixpoint all (p : ascii -> bool) (s : string) : bool :=
  match s with
  | EmptyString => true
  | String c r => p c && all p r
  end.

Fixpoint join (sep : string) (l : list string) : string :=
  match l with
  | [] => EmptyString
  | [x] => x
  | x :: r => x ++ sep ++ join sep r
  end.

(** the longest run of characters that satisfy [p] at the head of [s], and
    what follows it *)
Fixpoint takeWhile (p : ascii -> bool) (s : string) : string :=
  match s with
  | EmptyString => EmptyString
  | String c r => if p c then String c (takeWhile p r) else EmptyString
  end.

Fixpoint dropWhile (p : ascii -> bool) (s : string) : string :=
  match s with
  | EmptyString => EmptyString
  | String c r => if p c then dropWhile p r else s
  end.

(** The first character of [s], if it has one, satisfies [p] *)
Definition headIs (p : ascii -> bool) (s : string) : bool :=
  match s with
  | EmptyString => true
  | String c _ => p c
  end.

Definition notWhiteSpace (c : ascii) : bool := negb (isWhiteSpace c).

End JS.

(** ** Regular expressions *)

Module RegExp.

Inductive regex : Type :=
| Eps : regex
| Cls (p : ascii -> bool)
| Cat (r1 r2 : regex)
| Alt (r1 r2 : regex)
| Star (r : regex)
| Eol : regex.

Definition Plus (r : regex) : regex := Cat r (Star r).
Definition Opt (r : regex) : regex := Alt r Eps.

Fixpoint Rep (n : nat) (r : regex) : regex :=
  match n with
  | O => Eps
  | S O => r
  | S n' => Cat r (Rep n' r)
  end.

(** a literal, and a literal under the [i] flag *)
Fixpoint Lit (w : string) : regex :=
  match w with
  | EmptyString => Eps
  | String c EmptyString => Cls (JS.isChar c)
  | String c r => Cat (Cls (JS.isChar c)) (Lit r)
  end.

Fixpoint LitNoCase (w : string) : regex :=
  match w with
  | EmptyString => Eps
  | String c EmptyString => Cls (JS.isCharNoCase c)
  | String c r => Cat (Cls (JS.isCharNoCase c)) (LitNoCase r)
  end.

Fixpoint Alts (l : list regex) : regex :=
  match l with
  | [] => Eps
  | [r] => r
  | r :: l' => Alt r (Alts l')
  end.

(** The backtracking matcher, in continuation-passing style: [run r s k]
    matches [r] at the head of [s] and hands the rest to [k]; when [k]
    refuses, the next choice is tried (alternatives left to right, a star
    longest first).  An iteration of a star that consumes nothing is refused,
    as in ECMAScript. *)
Fixpoint run {A : Type} (r : regex) (s : string) (k : string -> option A)
  : option A :=
  match r with
  | Eps => k s
  | Cls p =>
      match s with
      | String c s' => if p c then k s' else None
      | EmptyString => None
      end
  | Cat r1 r2 => run r1 s (fun s' => run r2 s' k)
  | Alt r1 r2 =>
      match run r1 s k with
      | Some a => Some a
      | None => run r2 s k
      end
  | Star r1 =>
      (fix star (n : nat) (s : string) {struct n} : option A :=
         match n with
         | O => k s
         | S n' =>
             match run r1 s (fun s' =>
                     if Nat.ltb (String.length s') (String.length s)
                     then star n' s' else None) with
             | Some a => Some a
             | None => k s
             end
         end) (String.length s) s
  | Eol =>
      match s with
      | EmptyString => k s
      | String _ _ => None
      end
  end.

(** A match at the head of [s]: the matched text and what follows it *)
Definition exec (r : regex) (s : string) : option (string * string) :=
  match run r s (fun rest => Some rest) with
  | Some rest => Some (JS.take (String.length s - String.length rest) s, rest)
  | None => None
  end.

(** The leftmost match: the text before it, the match, the text after it *)
Fixpoint search (r : regex) (s : string) : option (string * string * string) :=
  match exec r s with
  | Some (m, rest) => Some (EmptyString, m, rest)
  | None =>
      match s with
      | EmptyString => None
      | String c s' =>
          match search r s' with
          | Some (b, m, a) => Some (String c b, m, a)
          | None => None
          end
      end
  end.

(** [re.test(s)] and [s.match(re)] without the [g] flag *)
Definition test (r : regex) (s : string) : bool :=
  match search r s with Some _ => true | None => false end.

Definition firstMatch (r : regex) (s : string) : option string :=
  match search r s with Some (_, m, _) => Some m | None => None end.

(** [s.replace(re, '')] without the [g] flag, and with a pattern that
    starts with [^] *)
Definition removeMatch (r : regex) (s : string) : string :=
  match search r s with Some (b, _, a) => b ++ a | None => s end.

Definition removeAtStart (r : regex) (s : string) : string :=
  match exec r s with Some (_, a) => a | None => s end.

(** [s.test(re)] for a pattern that starts with [^] *)
Definition testAtStart (r : regex) (s : string) : bool :=
  match exec r s with Some _ => true | None => false end.

(** [s.match(re)] with the [g] flag: every match, left to right, each
    search resuming where the previous match ended (one character further
    after an empty match) *)
Fixpoint matchAllFrom (fuel : nat) (r : regex) (s : string) : list string :=
  match fuel with
  | O => []
  | S fuel' =>
      match search r s with
      | None => []
      | Some (_, m, a) =>
          match m, a with
          | EmptyString, EmptyString => [m]
          | EmptyString, String _ a' => m :: matchAllFrom fuel' r a'
          | _, _ => m :: matchAllFrom fuel' r a
          end
      end
  end.

Definition matchAll (r : regex) (s : string) : list string :=
  matchAllFrom (S (String.length s)) r s.

(** [s.replace(re, w)] with the [g] flag *)
Fixpoint replaceAllFrom (fuel : nat) (r : regex) (w s : string) : string :=
  match fuel with
  | O => s
  | S fuel' =>
      match search r s with
      | None => s
      | Some (b, m, a) =>
          match m, a with
          | EmptyString, EmptyString => b ++ w
          | EmptyString, String c a' =>
              b ++ w ++ String c (replaceAllFrom fuel' r w a')
          | _, _ => b ++ w ++ replaceAllFrom fuel' r w a
          end
      end
  end.

Definition replaceAll (r : regex) (w s : string) : string :=
  replaceAllFrom (S (String.length s)) r w s.

(** [s.split(re)]: the pieces between the matches.  A separator is looked
    for at each position in turn; an empty match at the start of a piece is
    skipped.  The empty string splits into one empty piece, unless the
    pattern matches it. *)
Fixpoint splitFrom (fuel : nat) (r : regex) (piece s : string) : list string :=
  match fuel with
  | O => [piece ++ s]
  | S fuel' =>
      match s with
      | EmptyString => [piece]
      | String c s' =>
          match exec r s with
          | Some (EmptyString, _) =>
              match piece with
              | EmptyString => splitFrom fuel' r (String c EmptyString) s'
              | _ => piece :: splitFrom fuel' r EmptyString s
              end
          | Some (_, a) => piece :: splitFrom fuel' r EmptyString a
          | None => splitFrom fuel' r (piece ++ String c EmptyString) s'
          end
      end
  end.

Definition split (r : regex) (s : string) : list string :=
  match s with
  | EmptyString =>
      match exec r s with Some _ => [] | None => [EmptyString] end
  | _ => splitFrom (2 * String.length s + 2) r EmptyString s
  end.

(** What a pattern denotes: [Matches r m rest] says that [r] can match the
    text [m] when [rest] follows it ([rest] matters to [$] only) *)
Inductive Iter (P : string -> string -> Prop) : string -> string -> Prop :=
| Iter_nil (rest : string) : Iter P EmptyString rest
| Iter_cons (m1 m2 rest : string) :
    P m1 (m2 ++ rest) -> Iter P m2 rest -> Iter P (m1 ++ m2) rest.

Fixpoint Matches (r : regex) (m rest : string) : Prop :=
  match r with
  | Eps => m = EmptyString
  | Cls p => exists c, m = String c EmptyString /\ p c = true
  | Cat r1 r2 =>
      exists m1 m2, m = m1 ++ m2 /\ Matches r1 m1 (m2 ++ rest)
                    /\ Matches r2 m2 rest
  | Alt r1 r2 => Matches r1 m rest \/ Matches r2 m rest
  | Star r1 => Iter (Matches r1) m rest
  | Eol => m = EmptyString /\ rest = EmptyString
  end.

Definition d : regex := Cls JS.isDigit.
Definition w : regex := Cls JS.isWord.
Definition s : regex := Cls JS.isWhiteSpace.

End RegExp.

(** ** Numbers *)

Module Num.

(** A JavaScript number: a rational, or one of the three special values *)
Inductive number : Type :=
| NaN : number
| NegInf : number
| PosInf : number
| Fin (q : Q).

Definition digitValue (c : ascii) : Z := Z.of_nat (JS.code c - 48).

(** the value of a run of decimal digits, most significant first *)
Fixpoint digitsValueFrom (acc : Z) (s : string) : Z :=
  match s with
  | EmptyString => acc
  | String c r => digitsValueFrom (10 * acc + digitValue c) r
  end.

Definition digitsValue (s : string) : Z := digitsValueFrom 0 s.

(** the longest run of decimal digits at the head of [s], and the rest *)
Fixpoint readDigits (s : string) : string * string :=
  match s with
  | String c r =>
      if JS.isDigit c
      then let (ds, rest) := readDigits r in (String c ds, rest)
      else (EmptyString, s)
  | EmptyString => (EmptyString, EmptyString)
  end.

Definition pow10 (n : nat) : positive := Pos.pow 10 (Pos.of_nat n).

(** [m * 10^e] for a signed exponent *)
Definition scale10 (m : Q) (e : Z) : Q :=
  match e with
  | Z0 => m
  | Zpos p => m * inject_Z (Z.pow 10 (Zpos p))
  | Zneg p => m / inject_Z (Z.pow 10 (Zpos p))
  end.

(** The exponent part [e], [e+] or [e-] followed by digits, when there is
    one at the head of [s] *)
Definition readExponent (s : string) : option (Z * string) :=
  match s with
  | String c r =>
      if Ascii.eqb c "e" || Ascii.eqb c "E" then
        let '(sign, r1) :=
          match r with
          | String c1 r1 =>
              if Ascii.eqb c1 "-" then ((-1)%Z, r1)
              else if Ascii.eqb c1 "+" then (1%Z, r1)
              else (1%Z, r)
          | EmptyString => (1%Z, r)
          end in
        match readDigits r1 with
        | (EmptyString, _) => None
        | (ds, rest) => Some ((sign * digitsValue ds)%Z, rest)
        end
      else None
  | EmptyString => None
  end.

(** The longest unsigned decimal literal at the head of [s]
    ([12], [12.], [12.5], [.5], each with an optional exponent), its value
    and the rest; [None] when [s] does not start with one *)
Definition readDecimal (s : string) : option (Q * string) :=
  let (ints, r0) := readDigits s in
  let '(fracs, r1) :=
    match r0 with
    | String c r =>
        if Ascii.eqb c "." then readDigits r else (EmptyString, r0)
    | EmptyString => (EmptyString, r0)
    end in
  let hasDot :=
    match r0 with
    | String c _ => Ascii.eqb c "."
    | EmptyString => false
    end in
  match ints, fracs with
  | EmptyString, EmptyString => None
  | _, _ =>
      let mant : Q :=
        match fracs with
        | EmptyString => inject_Z (digitsValue ints)
        | _ => Qmake (digitsValue (ints ++ fracs)) (pow10 (String.length fracs))
        end in
      let afterMant := if hasDot then r1 else r0 in
      match readExponent afterMant with
      | Some (e, rest) => Some (scale10 mant e, rest)
      | None => Some (mant, afterMant)
      end
  end.

(** *** binary64 *)

(** [2^k] for a signed exponent *)
Definition pow2 (k : Z) : Q := Qpower 2 k.

(** the exponent of [n / d]: the largest [k] with [2^k <= n / d] *)
Definition ilog2 (n d : positive) : Z :=
  let k := (Z.log2 (Zpos n) - Z.log2 (Zpos d))%Z in
  if Qle_bool (pow2 k) (Zpos n # d) then k else (k - 1)%Z.

(** the integer nearest to [q], a half going to the even neighbour *)
Definition nearestEven (q : Q) : Z :=
  let f := Qfloor q in
  match Qcompare (q - inject_Z f) (1 # 2) with
  | Lt => f
  | Gt => (f + 1)%Z
  | Eq => if Z.even f then f else (f + 1)%Z
  end.

(** the unit in the last place of a binary64 number of exponent [k]:
    53 significant bits, the exponent of a subnormal number being -1022 *)
Definition quantum (k : Z) : Q := pow2 (Z.max k (-1022) - 52).

(** the multiple of the quantum nearest to [n / d] *)
Definition nearest (n d : positive) : Q :=
  let u := quantum (ilog2 n d) in
  Qred (inject_Z (nearestEven ((Zpos n # d) / u)) * u).

(** The binary64 number nearest to [q], a tie going to the even
    significand.  The exponent is not bounded above: see [fl]. *)
Definition flQ (q : Q) : Q :=
  match Qnum q with
  | Z0 => 0
  | Zpos n => nearest n (Qden q)
  | Zneg n => - nearest n (Qden q)
  end.

(** [q] as a number: an infinity when the nearest binary64 number would
    need an exponent above 1023 *)
Definition fl (q : Q) : number :=
  let y := flQ q in
  if Qle_bool (pow2 1024) y then PosInf
  else if Qle_bool y (- pow2 1024) then NegInf
  else Fin y.

(** [parseFloat(s)] *)
Definition parseFloat (s : string) : number :=
  let t := JS.trimStart s in
  let '(neg, u) :=
    match t with
    | String c r =>
        if Ascii.eqb c "-" then (true, r)
        else if Ascii.eqb c "+" then (false, r)
        else (false, t)
    | EmptyString => (false, t)
    end in
  if JS.startsWith u "Infinity" then (if neg then NegInf else PosInf)
  else match readDecimal u with
       | Some (q, _) => fl (if neg then - q else q)
       | None => NaN
       end.

(** unary minus *)
Definition neg (x : number) : number :=
  match x with
  | NaN => NaN
  | NegInf => PosInf
  | PosInf => NegInf
  | Fin q => Fin (- q)
  end.

(** [x !== 0] *)
Definition isNotZero (x : number) : bool :=
  match x with
  | Fin q => negb (Qeq_bool q 0)
  | _ => true
  end.

(** [x < 0] and [x >= 0] *)
Definition ltZero (x : number) : bool :=
  match x with
  | Fin q => match Qcompare q 0 with Lt => true | _ => false end
  | NegInf => true
  | _ => false
  end.

(** [x > 0] *)
Definition gtZero (x : number) : bool :=
  match x with
  | Fin q => match Qcompare 0 q with Lt => true | _ => false end
  | PosInf => true
  | _ => false
  end.

(** [Math.round]: the nearest integer, halves towards plus infinity *)
Definition round (q : Q) : Z := Qfloor (q + (1 # 2)).

(** [Math.round(q * 100) / 100]: the product and the quotient are rounded
    to binary64, [Math.round] is exact *)
Definition round2 (q : Q) : Q :=
  flQ (inject_Z (round (flQ (q * 100))) / 100).

Definition lt (x y : Q) : bool :=
  match Qcompare x y with Lt => true | _ => false end.

(** the value of a run of digits in radix 16, 8 or 2; [None] when a
    character is not a digit of that radix *)
Definition radixDigit (radix : nat) (c : ascii) : option Z :=
  let v := if JS.isDigit c then Some (JS.code c - 48)%nat
           else if JS.between 97 102 c then Some (JS.code c - 87)%nat
           else if JS.between 65 70 c then Some (JS.code c - 55)%nat
           else None in
  match v with
  | Some n => if Nat.ltb n radix then Some (Z.of_nat n) else None
  | None => None
  end.

Fixpoint radixValueFrom (radix : nat) (acc : Z) (s : string) : option Z :=
  match s with
  | EmptyString => Some acc
  | String c r =>
      match radixDigit radix c with
      | Some v => radixValueFrom radix (Z.of_nat radix * acc + v) r
      | None => None
      end
  end.

(** [0x..], [0o..] and [0b..] literals *)
Definition radixLiteral (t : string) : option Z :=
  match t with
  | String z (String x (String c r)) =>
      if Ascii.eqb z "0" then
        let body := String c r in
        if Ascii.eqb x "x" || Ascii.eqb x "X" then radixValueFrom 16 0 body
        else if Ascii.eqb x "o" || Ascii.eqb x "O" then radixValueFrom 8 0 body
        else if Ascii.eqb x "b" || Ascii.eqb x "B" then radixValueFrom 2 0 body
        else None
      else None
  | _ => None
  end.

(** [Number(s)] for a string: the whole trimmed text must be a numeric
    literal, which is read as a binary64 number; the empty text is 0 *)
Definition StringToNumber (s : string) : number :=
  let t := JS.trim s in
  match t with
  | EmptyString => Fin 0
  | String c r =>
      match radixLiteral t with
      | Some v => fl (inject_Z v)
      | None =>
          let '(negative, u) :=
            if Ascii.eqb c "-" then (true, r)
            else if Ascii.eqb c "+" then (false, r)
            else (false, t) in
          if String.eqb u "Infinity" then (if negative then NegInf else PosInf)
          else match readDecimal u with
               | Some (q, EmptyString) => fl (if negative then - q else q)
               | _ => NaN
               end
      end
  end.

(** [x < y] on numbers; false as soon as one of them is [NaN] *)
Definition ltNum (x y : number) : bool :=
  match x, y with
  | NaN, _ | _, NaN => false
  | NegInf, NegInf => false
  | NegInf, _ => true
  | _, NegInf => false
  | PosInf, _ => false
  | _, PosInf => true
  | Fin a, Fin b => lt a b
  end.

(** [Math.max(x, y)] and [Math.min(x, y)] *)
Definition max (x y : number) : number :=
  match x, y with
  | NaN, _ | _, NaN => NaN
  | _, _ => if ltNum x y then y else x
  end.

Definition min (x y : number) : number :=
  match x, y with
  | NaN, _ | _, NaN => NaN
  | _, _ => if ltNum y x then y else x
  end.

(** [Math.abs(x)] and [x + y] *)
Definition abs (x : number) : number :=
  match x with
  | NaN => NaN
  | NegInf | PosInf => PosInf
  | Fin q => Fin (Qabs q)
  end.

Definition add (x y : number) : number :=
  match x, y with
  | NaN, _ | _, NaN => NaN
  | PosInf, NegInf | NegInf, PosInf => NaN
  | PosInf, _ | _, PosInf => PosInf
  | NegInf, _ | _, NegInf => NegInf
  | Fin a, Fin b => fl (a + b)
  end.

(** [l.reduce((sum, x) => sum + x, 0)] *)
Definition sum (l : list number) : number := List.fold_left add l (Fin 0).

(** A sum of numbers that are not negative: the positive infinity, or a
    rounded number that is not negative *)
Definition summed (x : number) : Prop :=
  x = PosInf \/ exists q, 0 <= q /\ x = Fin (flQ q).

(** A term of such a sum *)
Definition term (y : number) : Prop :=
  y = PosInf \/ exists b, 0 <= b /\ y = Fin b.

End Num.

(** ** src/utils/transactionProcessor.ts *)

Module TransactionProcessor.

Import RegExp.
Export Num.

Record RawTransaction : Type := mkRaw {
  date : string;
  description : string;
  amount : number
}.

Fixpoint Seq (l : list regex) : regex :=
  match l with
  | [] => Eps
  | [r] => r
  | r :: l' => Cat r (Seq l')
  end.

(** [\d{1,2}\s+\w{3}], [\d{4}-\d{2}-\d{2}] and [\d{2}\/\d{2}\/\d{4}] *)
Definition dayMonth : regex := Seq [d; Opt d; Plus s; Rep 3 w].
Definition isoDate : regex := Seq [Rep 4 d; Lit "-"; Rep 2 d; Lit "-"; Rep 2 d].
Definition slashDate : regex := Seq [Rep 2 d; Lit "/"; Rep 2 d; Lit "/"; Rep 4 d].

Definition transactionPattern : regex := Alts [dayMonth; isoDate; slashDate].

(** [[\d,]+\.\d{2}] *)
Definition amountToken : regex :=
  Seq [Plus (Cls (fun c => JS.isDigit c || JS.isChar "," c)); Lit "."; Rep 2 d].

(** [months[monthStr] || 1].  The line parser calls it with three word
    characters.  The names of the members that the table inherits
    ([constructor], [toString], [valueOf] and the like), for which the
    source gives that member, are all longer: they are outside this
    definition. *)
Definition getMonthNumber (monthStr : string) : nat :=
  if String.eqb monthStr "Jan" then 1
  else if String.eqb monthStr "Feb" then 2
  else if String.eqb monthStr "Mar" then 3
  else if String.eqb monthStr "Apr" then 4
  else if String.eqb monthStr "May" then 5
  else if String.eqb monthStr "Jun" then 6
  else if String.eqb monthStr "Jul" then 7
  else if String.eqb monthStr "Aug" then 8
  else if String.eqb monthStr "Sep" then 9
  else if String.eqb monthStr "Oct" then 10
  else if String.eqb monthStr "Nov" then 11
  else if String.eqb monthStr "Dec" then 12
  else 1.

(** [currentYear] stands for [new Date().getFullYear()] *)
Definition parseBankDate (currentYear : nat) (dateStr : string) : string :=
  if JS.includes dateStr "-" then dateStr
  else if JS.includes dateStr "/" then
    match JS.split "/" dateStr with
    | month :: day :: rest =>
        let year := match rest with y :: _ => y | [] => "undefined" end in
        year ++ "-" ++ JS.padStart 2 "0" month ++ "-" ++ JS.padStart 2 "0" day
    | _ => dateStr
    end
  else
    match JS.split " " dateStr with
    | [day; month] =>
        JS.natToString currentYear ++ "-"
        ++ JS.padStart 2 "0" (JS.natToString (getMonthNumber month)) ++ "-"
        ++ JS.padStart 2 "0" day
    | _ => dateStr
    end.

(** The line without a leading date, trimmed *)
Definition cleanLineOf (line : string) : string :=
  JS.trim (removeAtStart slashDate (removeAtStart isoDate (removeAtStart dayMonth line))).

Definition hasDebitWord (cleanLine : string) : bool :=
  JS.includes cleanLine "Withdrawal" || JS.includes cleanLine "Debit" ||
  JS.includes cleanLine "Purchase" || JS.includes cleanLine "Payment".

Definition extractDescriptionAndAmount (line : string) : string * number :=
  let cleanLine := cleanLineOf line in
  let amountMatches := matchAll amountToken cleanLine in
  match amountMatches with
  | [] => (cleanLine, Fin 0)
  | _ :: _ =>
      let amountStr := List.last amountMatches EmptyString in
      let amount := parseFloat (replaceAll (Lit ",") "" amountStr) in
      let description := JS.trim (JS.removeFirst cleanLine amountStr) in
      (description, if hasDebitWord cleanLine then neg amount else amount)
  end.

Definition descriptionPrefix : regex :=
  Alts (List.map LitNoCase
    ["e:"; "Contactless Interac purchase"; "Visa Debit purchase";
     "Misc Payment"; "Online Banking payment"; "Transfer sent";
     "Payroll Deposit"]).

(** The three replacements of [cleanDescription]: runs of white space
    become one space, a leading prefix goes, four digits at the end go *)
Definition collapseSpaces (description : string) : string :=
  replaceAll (Plus s) " " description.

Definition stripDescription (description : string) : string :=
  removeMatch (Cat (Rep 4 d) Eol)
    (removeAtStart descriptionPrefix (collapseSpaces description)).

Definition cleanDescription (description : string) : string :=
  JS.trim (stripDescription description).

(** A character that is neither white space nor a digit *)
Definition keeper (c : ascii) : bool :=
  negb (JS.isWhiteSpace c) && negb (JS.isDigit c).

Definition isHeader (line : string) : bool :=
  JS.includes line "Date" || JS.includes line "Description" ||
  JS.includes line "Balance".

(** One turn of the loop over the lines: the record pushed, if any *)
Definition parseLine (currentYear : nat) (rawLine : string) : option RawTransaction :=
  let line := JS.trim rawLine in
  match line with
  | EmptyString => None
  | _ =>
      if isHeader line then None
      else match firstMatch transactionPattern line with
           | None => None
           | Some dateMatch =>
               let date := parseBankDate currentYear dateMatch in
               let (description, amount) := extractDescriptionAndAmount line in
               match description with
               | EmptyString => None
               | _ => Some (mkRaw date (cleanDescription description) amount)
               end
           end
  end.

Fixpoint filterMap {A B : Type} (f : A -> option B) (l : list A) : list B :=
  match l with
  | [] => []
  | x :: r => match f x with
              | Some y => y :: filterMap f r
              | None => filterMap f r
              end
  end.

Definition newline : ascii := ascii_of_nat 10.

Definition parseTransactionText (currentYear : nat) (text : string)
  : list RawTransaction :=
  List.filter (fun t => isNotZero (amount t))
    (filterMap (parseLine currentYear) (JS.split newline text)).

(** White space occurs in [s] only as a space that no white space follows *)
Fixpoint singleSpaced (s : string) : bool :=
  match s with
  | EmptyString => true
  | String c r =>
      (if JS.isWhiteSpace c
       then Ascii.eqb c " "
            && match r with
               | String c' _ => negb (JS.isWhiteSpace c')
               | EmptyString => true
               end
       else true)
      && singleSpaced r
  end.

(** Each run of characters that satisfy [p] becomes one [w]; [inRun] says
    that the character before [s] belongs to such a run *)
Fixpoint collapseFrom (p : ascii -> bool) (w : string) (inRun : bool)
  (s : string) : string :=
  match s with
  | EmptyString => EmptyString
  | String c r =>
      if p c then
        if inRun then collapseFrom p w true r
        else w ++ collapseFrom p w true r
      else String c (collapseFrom p w false r)
  end.

End TransactionProcessor.

(** ** Insertion-ordered maps with string keys ([Map], and an object used
    as a record of categories) *)

Module StrMap.

Definition t (V : Type) : Type := list (string * V).

Fixpoint get {V : Type} (m : t V) (k : string) : option V :=
  match m with
  | [] => None
  | (k', v) :: r => if String.eqb k' k then Some v else get r k
  end.

Definition has {V : Type} (m : t V) (k : string) : bool :=
  match get m k with Some _ => true | None => false end.

(** [m.set(k, v)]: an existing key keeps its place, a new key goes last *)
Fixpoint set {V : Type} (m : t V) (k : string) (v : V) : t V :=
  match m with
  | [] => [(k, v)]
  | (k', v') :: r =>
      if String.eqb k' k then (k', v) :: r else (k', v') :: set r k v
  end.

Definition keys {V : Type} (m : t V) : list string := List.map fst m.
Definition values {V : Type} (m : t V) : list V := List.map snd m.

End StrMap.

(** ** src/lib/ai/classifier.ts *)

Module Classifier.

Record ClassificationResult : Type := mkResult {
  category : string;
  confidence : Q;
  reasoning : string
}.

Record TrainingData : Type := mkTraining {
  t_description : string;
  t_category : string;
  t_keywords : list string
}.

Definition TRAINING_DATA : list TrainingData := [
  mkTraining "rent payment" "Living Expenses" ["rent"; "rental"; "apartment"; "condo"];
  mkTraining "mortgage payment" "Living Expenses" ["mortgage"; "home loan"; "property payment"];
  mkTraining "hydro bill" "Living Expenses" ["hydro"; "electricity"; "electric"; "power"];
  mkTraining "internet service" "Living Expenses" ["internet"; "wifi"; "broadband"; "rogers"; "bell"; "telus"];
  mkTraining "phone bill" "Living Expenses" ["phone"; "mobile"; "cellular"; "wireless"];
  mkTraining "insurance premium" "Living Expenses" ["insurance"; "premium"; "coverage"];
  mkTraining "property tax" "Living Expenses" ["property tax"; "municipal tax"; "real estate tax"];

  mkTraining "supermarket purchase" "Groceries" ["supermarket"; "grocery"; "food store"];
  mkTraining "safeway" "Groceries" ["safeway"; "sobeys"; "metro"; "loblaws"];
  mkTraining "walmart groceries" "Groceries" ["walmart"; "costco"; "no frills"; "freshco"];
  mkTraining "farmers market" "Groceries" ["farmers market"; "fresh produce"; "organic"];

  mkTraining "restaurant dinner" "Restaurants" ["restaurant"; "dining"; "cafe"; "bistro"];
  mkTraining "fast food" "Restaurants" ["mcdonald"; "burger king"; "subway"; "kfc"];
  mkTraining "coffee shop" "Restaurants" ["starbucks"; "tim hortons"; "coffee"; "cafe"];
  mkTraining "food delivery" "Restaurants" ["uber eats"; "doordash"; "skip dishes"; "delivery"];
  mkTraining "takeout" "Restaurants" ["takeout"; "take-out"; "pickup"; "order"];

  mkTraining "gas station" "Car" ["gas"; "fuel"; "petrol"; "gasoline"];
  mkTraining "shell" "Car" ["shell"; "esso"; "petro-canada"; "chevron"];
  mkTraining "car insurance" "Car" ["auto insurance"; "car insurance"; "vehicle insurance"];
  mkTraining "car repair" "Car" ["auto repair"; "mechanic"; "garage"; "service"];
  mkTraining "parking" "Car" ["parking"; "meter"; "garage parking"; "lot"];
  mkTraining "car wash" "Car" ["car wash"; "auto wash"; "detailing"];

  mkTraining "movie theater" "Entertainment" ["cinema"; "movie"; "theater"; "film"];
  mkTraining "streaming service" "Entertainment" ["netflix"; "spotify"; "amazon prime"; "disney"];
  mkTraining "concert tickets" "Entertainment" ["concert"; "show"; "tickets"; "event"];
  mkTraining "gaming" "Entertainment" ["steam"; "playstation"; "xbox"; "nintendo"];
  mkTraining "books" "Entertainment" ["bookstore"; "kindle"; "chapters"; "library"];

  mkTraining "atm withdrawal" "Miscellaneous" ["atm"; "cash"; "withdrawal"];
  mkTraining "bank fee" "Miscellaneous" ["fee"; "charge"; "service charge"; "overdraft"];
  mkTraining "transfer" "Miscellaneous" ["transfer"; "e-transfer"; "wire"];
  mkTraining "pharmacy" "Miscellaneous" ["pharmacy"; "drugstore"; "prescription"; "medical"]
].

(** the double quote, for the reasons *)
Definition dq : string := String (ascii_of_nat 34) EmptyString.

Definition quoted (x : string) : string := dq ++ x ++ dq.

(** The score and the reasons accumulated inside one turn of the loop *)
Definition Tally : Type := (Q * list string)%type.

Definition bump (t : Tally) (points : Q) (reason : string) : Tally :=
  (fst t + points, (snd t ++ [reason])%list).

(** Exact phrase matching *)
Definition exactMatch (normalizedDesc : string) (training : TrainingData)
  (t : Tally) : Tally :=
  if JS.includes normalizedDesc (JS.toLowerCase (t_description training))
  then bump t (9 # 10) ("exact match: " ++ quoted (t_description training))
  else t.

(** Keyword matching *)
Definition keywordMatches (normalizedDesc : string) (training : TrainingData)
  (t : Tally) : Tally :=
  List.fold_left
    (fun t keyword =>
       if JS.includes normalizedDesc (JS.toLowerCase keyword)
       then bump t (7 # 10) ("keyword: " ++ quoted keyword)
       else t)
    (t_keywords training) t.

(** Partial word matching *)
Definition partialMatches (words : list string) (training : TrainingData)
  (t : Tally) : Tally :=
  List.fold_left
    (fun t word =>
       List.fold_left
         (fun t keyword =>
            if JS.includes (JS.toLowerCase keyword) word
               || JS.includes word (JS.toLowerCase keyword)
            then bump t (3 # 10)
                   ("partial match: " ++ quoted word ++ " ~ " ++ quoted keyword)
            else t)
         (t_keywords training) t)
    words t.

Definition scoreEntry (normalizedDesc : string) (words : list string)
  (training : TrainingData) : Tally :=
  partialMatches words training
    (keywordMatches normalizedDesc training
       (exactMatch normalizedDesc training (0, []))).

(** The two maps of the loop over the training table *)
Definition Scores : Type := (StrMap.t Q * StrMap.t (list string))%type.

Definition getScore (m : StrMap.t Q) (k : string) : Q :=
  match StrMap.get m k with Some v => v | None => 0 end.

Definition getReasons (m : StrMap.t (list string)) (k : string) : list string :=
  match StrMap.get m k with Some v => v | None => [] end.

Definition scoreStep (normalizedDesc : string) (words : list string)
  (acc : Scores) (training : TrainingData) : Scores :=
  let category := t_category training in
  let '(categoryScores, categoryReasons) :=
    if StrMap.has (fst acc) category then acc
    else (StrMap.set (fst acc) category 0, StrMap.set (snd acc) category []) in
  let '(score, reasons) := scoreEntry normalizedDesc words training in
  if Num.lt 0 score
  then (StrMap.set categoryScores category (getScore categoryScores category + score),
        StrMap.set categoryReasons category
          (getReasons categoryReasons category ++ reasons)%list)
  else (categoryScores, categoryReasons).

Definition scoreAll (trainingData : list TrainingData)
  (normalizedDesc : string) (words : list string) : Scores :=
  List.fold_left (scoreStep normalizedDesc words) trainingData ([], []).

(** The category with the highest score: the state is
    [(bestCategory, bestScore, bestReasons)] *)
Definition Best : Type := (string * Q * list string)%type.

Definition bestStep (categoryReasons : StrMap.t (list string))
  (best : Best) (entry : string * Q) : Best :=
  let '(bestCategory, bestScore, bestReasons) := best in
  let (category, score) := entry in
  if Num.lt bestScore score
  then (category, score, getReasons categoryReasons category)
  else best.

Definition findBest (sc : Scores) : Best :=
  List.fold_left (bestStep (snd sc)) (fst sc) ("Miscellaneous", 0, []).

Definition maxPossibleScore : Q := 2.

(** Normalisation of the score, then the floor for good matches *)
Definition finalConfidence (bestScore : Q) : Q :=
  let confidence := Qmin (bestScore / maxPossibleScore) 1 in
  if Num.lt (5 # 10) confidence
  then Qmax confidence (7 # 10)
  else Qmax confidence (4 # 10).

Definition classifyWith (trainingData : list TrainingData)
  (description : string) : ClassificationResult :=
  let normalizedDesc := JS.trim (JS.toLowerCase description) in
  let words := RegExp.split (RegExp.Plus RegExp.s) normalizedDesc in
  let '(bestCategory, bestScore, bestReasons) :=
    findBest (scoreAll trainingData normalizedDesc words) in
  mkResult bestCategory (finalConfidence bestScore)
    (JS.join ", " (List.firstn 3 bestReasons)).

(** The winning score, which the result does not carry *)
Definition winningScore (trainingData : list TrainingData)
  (description : string) : Q :=
  let normalizedDesc := JS.trim (JS.toLowerCase description) in
  let words := RegExp.split (RegExp.Plus RegExp.s) normalizedDesc in
  snd (fst (findBest (scoreAll trainingData normalizedDesc words))).

(** [aiClassifier.classifyTransaction], the table being the initial one *)
Definition classifyTransaction (description : string) : ClassificationResult :=
  classifyWith TRAINING_DATA description.

(** The number of keywords that the table lists under a category *)
Definition keywordCount (trainingData : list TrainingData) (c : string) : nat :=
  List.fold_left
    (fun n training =>
       if String.eqb (t_category training) c
       then (n + List.length (t_keywords training))%nat else n)
    trainingData O.

Definition classifyBatch (descriptions : list string) : list ClassificationResult :=
  List.map classifyTransaction descriptions.

(** The categories of a table, each at its first place *)
Definition addKey (ks : list string) (c : string) : list string :=
  if List.existsb (fun k => String.eqb k c) ks then ks else (ks ++ [c])%list.

Definition firstOccurrences (l : list string) : list string :=
  List.fold_left addKey l [].

(** [addTrainingData]: the entry goes to the end of the table.  The table
    of the classifier is the array [TRAINING_DATA] itself, so the table is
    the whole state of the classifier. *)
Definition addTrainingData (trainingData : list TrainingData)
  (data : TrainingData) : list TrainingData :=
  (trainingData ++ [data])%list.

Definition moreKeywords : string :=
  "Consider adding more specific keywords for better classification".

Definition manualCategorization : string :=
  "This transaction might need manual categorization".

(** [getSuggestions], for a table *)
Definition getSuggestionsWith (trainingData : list TrainingData)
  (description : string) : list string :=
  let result := classifyWith trainingData description in
  let suggestions := [] in
  let suggestions :=
    if Num.lt (confidence result) (6 # 10)
    then (suggestions ++ [moreKeywords])%list else suggestions in
  let suggestions :=
    if Num.lt (confidence result) (4 # 10)
    then (suggestions ++ [manualCategorization])%list else suggestions in
  suggestions.

Definition getSuggestions (description : string) : list string :=
  getSuggestionsWith TRAINING_DATA description.

End Classifier.

(** ** src/utils/categoryClassifier.ts *)

Module CategoryClassifier.

(** [desc.includes(k1) || desc.includes(k2) || ...] *)
Definition includesAny (desc : string) (keywords : list string) : bool :=
  List.existsb (JS.includes desc) keywords.

Definition groceries : list string :=
  ["grocery"; "supermarket"; "safeway"; "walmart"; "costco"; "metro";
   "loblaws"; "sobeys"; "iga"; "no frills"].

Definition restaurants : list string :=
  ["restaurant"; "food"; "cafe"; "coffee"; "pizza"; "burger"; "mcdonald";
   "subway"; "starbucks"; "tim hortons"; "dining"; "takeout"].

Definition car : list string :=
  ["gas"; "fuel"; "petro"; "shell"; "esso"; "car"; "auto"; "parking";
   "insurance"; "repair"; "maintenance"; "tire"].

Definition entertainment : list string :=
  ["movie"; "theater"; "cinema"; "game"; "entertainment"; "concert";
   "netflix"; "spotify"; "amazon prime"; "subscription"; "streaming";
   "music"].

Definition livingExpenses : list string :=
  ["rent"; "mortgage"; "utilities"; "hydro"; "electricity"; "water";
   "internet"; "phone"; "insurance"; "property tax"; "maintenance fee";
   "condo fee"].

(** The tests in the order of the source, for any five lists of keywords *)
Definition classifyBy (g r c e l : list string) (description : string) : string :=
  let desc := JS.toLowerCase description in
  if includesAny desc g then "Groceries"
  else if includesAny desc r then "Restaurants"
  else if includesAny desc c then "Car"
  else if includesAny desc e then "Entertainment"
  else if includesAny desc l then "Living Expenses"
  else "Miscellaneous".

Definition classifyTransaction (description : string) : string :=
  classifyBy groceries restaurants car entertainment livingExpenses description.

(** The place of a category in the order of the tests *)
Definition rank (category : string) : nat :=
  if String.eqb category "Groceries" then 0
  else if String.eqb category "Restaurants" then 1
  else if String.eqb category "Car" then 2
  else if String.eqb category "Entertainment" then 3
  else if String.eqb category "Living Expenses" then 4
  else 5.

End CategoryClassifier.

(** ** JSON values and [JSON.parse] *)

Module JSON.

Inductive value : Type :=
| Null : value
| Bool (b : bool)
| Number (q : Q)
| Str (s : string)
| Array (elements : list value)
| Object (members : list (string * value)).

(** Outcome of reading a prefix of the text *)
Inductive result (A : Type) : Type :=
| Ok (a : A) (rest : string)
| SyntaxError
| OutOfFuel.

Arguments Ok {A} a rest.
Arguments SyntaxError {A}.
Arguments OutOfFuel {A}.

(** JSON white space: TAB, LF, CR and SP *)
Definition isWs (c : ascii) : bool :=
  let n := JS.code c in
  Nat.eqb n 9 || Nat.eqb n 10 || Nat.eqb n 13 || Nat.eqb n 32.

Fixpoint skipWs (s : string) : string :=
  match s with
  | String c r => if isWs c then skipWs r else s
  | EmptyString => EmptyString
  end.

Definition hexValue (c : ascii) : option nat :=
  if JS.isDigit c then Some (JS.code c - 48)%nat
  else if JS.between 97 102 c then Some (JS.code c - 87)%nat
  else if JS.between 65 70 c then Some (JS.code c - 55)%nat
  else None.

Definition hex4 (a b c e : ascii) : option nat :=
  match hexValue a, hexValue b, hexValue c, hexValue e with
  | Some x, Some y, Some z, Some t =>
      Some (((x * 16 + y) * 16 + z) * 16 + t)%nat
  | _, _, _, _ => None
  end.

(** the character a one-letter escape stands for *)
Definition escapeChar (e : ascii) : option ascii :=
  let n := JS.code e in
  if Nat.eqb n 34 then Some e
  else if Nat.eqb n 92 then Some e
  else if Nat.eqb n 47 then Some e
  else if Nat.eqb n 98 then Some (ascii_of_nat 8)
  else if Nat.eqb n 102 then Some (ascii_of_nat 12)
  else if Nat.eqb n 110 then Some (ascii_of_nat 10)
  else if Nat.eqb n 114 then Some (ascii_of_nat 13)
  else if Nat.eqb n 116 then Some (ascii_of_nat 9)
  else None.

Definition consChar (c : ascii) (r : option (string * string))
  : option (string * string) :=
  match r with
  | Some (str, rest) => Some (String c str, rest)
  | None => None
  end.

(** The characters of a string literal after its opening quote, up to the
    closing quote.  Control characters must be escaped.  A [\u] escape above
    U+00FF denotes a code unit that a [string] cannot hold: it is refused. *)
Fixpoint parseChars (s : string) : option (string * string) :=
  match s with
  | EmptyString => None
  | String c r =>
      if Nat.eqb (JS.code c) 34 then Some (EmptyString, r)
      else if Nat.eqb (JS.code c) 92 then
        match r with
        | String e r' =>
            if Nat.eqb (JS.code e) 117 then
              match r' with
              | String h1 (String h2 (String h3 (String h4 r''))) =>
                  match hex4 h1 h2 h3 h4 with
                  | Some n =>
                      if Nat.ltb n 256
                      then consChar (ascii_of_nat n) (parseChars r'')
                      else None
                  | None => None
                  end
              | _ => None
              end
            else
              match escapeChar e with
              | Some x => consChar x (parseChars r')
              | None => None
              end
        | EmptyString => None
        end
      else if Nat.ltb (JS.code c) 32 then None
      else consChar c (parseChars r)
  end.

(** A number: [-]? ([0] | [1-9] digits) ([.] digits)? ([eE] [+-]? digits)?,
    read as the nearest binary64 number.  A numeral beyond the largest
    binary64 number, which [JSON.parse] reads as an infinity, keeps its
    rounded value: [Number] holds finite numbers only. *)
Definition parseNumber (s : string) : result value :=
  let '(negative, u) :=
    match s with
    | String c r => if Ascii.eqb c "-" then (true, r) else (false, s)
    | EmptyString => (false, s)
    end in
  let '(ints, r0) :=
    match u with
    | String c r =>
        if Ascii.eqb c "0" then (String c EmptyString, r) else Num.readDigits u
    | EmptyString => (EmptyString, u)
    end in
  match ints with
  | EmptyString => SyntaxError
  | _ =>
      let '(fracs, r1) :=
        match r0 with
        | String c r =>
            if Ascii.eqb c "." then
              match Num.readDigits r with
              | (EmptyString, _) => (EmptyString, r0)
              | (ds, rest) => (ds, rest)
              end
            else (EmptyString, r0)
        | EmptyString => (EmptyString, r0)
        end in
      let mant : Q :=
        match fracs with
        | EmptyString => inject_Z (Num.digitsValue ints)
        | _ => Qmake (Num.digitsValue (ints ++ fracs))
                 (Num.pow10 (String.length fracs))
        end in
      let '(q, rest) :=
        match Num.readExponent r1 with
        | Some (e, rest) => (Num.scale10 mant e, rest)
        | None => (mant, r1)
        end in
      Ok (Number (Num.flQ (if negative then - q else q))) rest
  end.

Definition parseLiteral (s : string) : result value :=
  if JS.startsWith s "true" then Ok (Bool true) (JS.drop 4 s)
  else if JS.startsWith s "false" then Ok (Bool false) (JS.drop 5 s)
  else if JS.startsWith s "null" then Ok Null (JS.drop 4 s)
  else SyntaxError.

(** Recursive descent.  [parseElements] reads the elements of an array from
    the first one to the closing bracket, [parseMembers] the members of an
    object from the first key to the closing brace; both collect in reverse. *)
Fixpoint parseValue (fuel : nat) (s : string) : result value :=
  match fuel with
  | O => OutOfFuel
  | S n =>
      match skipWs s with
      | EmptyString => SyntaxError
      | String c r =>
          if Ascii.eqb c "{" then
            match skipWs r with
            | String c' r' =>
                if Ascii.eqb c' "}" then Ok (Object []) r'
                else parseMembers n (skipWs r) []
            | EmptyString => SyntaxError
            end
          else if Ascii.eqb c "[" then
            match skipWs r with
            | String c' r' =>
                if Ascii.eqb c' "]" then Ok (Array []) r'
                else parseElements n (skipWs r) []
            | EmptyString => SyntaxError
            end
          else if Nat.eqb (JS.code c) 34 then
            match parseChars r with
            | Some (str, rest) => Ok (Str str) rest
            | None => SyntaxError
            end
          else if Ascii.eqb c "-" || JS.isDigit c then parseNumber (String c r)
          else parseLiteral (String c r)
      end
  end

with parseElements (fuel : nat) (s : string) (acc : list value) : result value :=
  match fuel with
  | O => OutOfFuel
  | S n =>
      match parseValue n s with
      | Ok v rest =>
          match skipWs rest with
          | String c r =>
              if Ascii.eqb c "," then parseElements n r (v :: acc)
              else if Ascii.eqb c "]" then Ok (Array (List.rev (v :: acc))) r
              else SyntaxError
          | EmptyString => SyntaxError
          end
      | SyntaxError => SyntaxError
      | OutOfFuel => OutOfFuel
      end
  end

with parseMembers (fuel : nat) (s : string) (acc : list (string * value))
  : result value :=
  match fuel with
  | O => OutOfFuel
  | S n =>
      match skipWs s with
      | String q r =>
          if Nat.eqb (JS.code q) 34 then
            match parseChars r with
            | Some (key, rest) =>
                match skipWs rest with
                | String c r1 =>
                    if Ascii.eqb c ":" then
                      match parseValue n r1 with
                      | Ok v rest1 =>
                          match skipWs rest1 with
                          | String c2 r2 =>
                              if Ascii.eqb c2 ","
                              then parseMembers n r2 ((key, v) :: acc)
                              else if Ascii.eqb c2 "}"
                              then Ok (Object (List.rev ((key, v) :: acc))) r2
                              else SyntaxError
                          | EmptyString => SyntaxError
                          end
                      | SyntaxError => SyntaxError
                      | OutOfFuel => OutOfFuel
                      end
                    else SyntaxError
                | EmptyString => SyntaxError
                end
            | None => SyntaxError
            end
          else SyntaxError
      | EmptyString => SyntaxError
      end
  end.

(** A result that is not [OutOfFuel] and that, when it is a value, has
    consumed at least one character of [s] *)
Definition settled (r : result value) (s : string) : Prop :=
  match r with
  | Ok _ rest => (String.length rest < String.length s)%nat
  | SyntaxError => True
  | OutOfFuel => False
  end.

(** [JSON.parse(text)]; [None] is the [SyntaxError] it throws *)
Definition parse (text : string) : option value :=
  match parseValue (2 * String.length text + 1)%nat text with
  | Ok v rest =>
      match skipWs rest with
      | EmptyString => Some v
      | String _ _ => None
      end
  | SyntaxError => None
  | OutOfFuel => None
  end.

(** [o[k]] for an own property: of two members with the same key the later
    one stands *)
Fixpoint lookup (members : list (string * value)) (k : string) : option value :=
  match members with
  | [] => None
  | (k', v) :: r =>
      match lookup r k with
      | Some v' => Some v'
      | None => if String.eqb k' k then Some v else None
      end
  end.

End JSON.

(** ** The bank-statement route: [processTransactionText], from the answer
    of the model on *)

Module Route.

Import JSON.

Definition CATEGORIES : list string :=
  ["Living Expenses"; "Groceries"; "Restaurants"; "Car"; "Entertainment";
   "Miscellaneous"].

Record Transaction : Type := mkTransaction {
  id : value;
  date : value;
  description : string;
  amount : Q;
  category : string;
  confidence : Num.number
}.

Record ProcessedData : Type := mkProcessed {
  transactions : list Transaction;
  totalAmount : Q;
  summary : StrMap.t Q
}.

(** An expression either has a value or throws a [TypeError] *)
Inductive completion (A : Type) : Type :=
| Return (a : A)
| Throw.

Arguments Return {A} a.
Arguments Throw {A}.

(** [v.k], for the property names read below ([undefined] is [None]),
    [v] not being [null]: a primitive or an array has none of these names,
    an object has those of its members *)
Definition prop (v : value) (k : string) : option value :=
  match v with
  | Object members => lookup members k
  | _ => None
  end.

(** [!!v] *)
Definition truthy (v : option value) : bool :=
  match v with
  | None => false
  | Some Null => false
  | Some (Bool b) => b
  | Some (Number q) => negb (Qeq_bool q 0)
  | Some (Str s) => negb (String.eqb s EmptyString)
  | Some (Array _) => true
  | Some (Object _) => true
  end.

(** Whether [String(v)] completes: an object whose member [toString] hides
    the inherited method cannot be converted, nor an array that holds one *)
Fixpoint stringifies (v : value) : bool :=
  match v with
  | Object members =>
      match lookup members "toString" with Some _ => false | None => true end
  | Array l =>
      (fix all (l : list value) : bool :=
         match l with
         | [] => true
         | x :: r => stringifies x && all r
         end) l
  | _ => true
  end.

(** [String(v)] when it completes and no number is printed in it; the
    elements of an array are joined by commas, [null] printing as nothing *)
Fixpoint toStringNoNumeral (v : value) : option string :=
  match v with
  | Null => Some "null"
  | Bool true => Some "true"
  | Bool false => Some "false"
  | Number _ => None
  | Str s => Some s
  | Object _ => Some "[object Object]"
  | Array l =>
      (fix joined (l : list value) : option string :=
         match l with
         | [] => Some EmptyString
         | x :: r =>
             match (match x with Null => Some EmptyString
                               | _ => toStringNoNumeral x end), joined r with
             | Some a, Some b =>
                 Some (match r with [] => a | _ => a ++ "," ++ b end)
             | _, _ => None
             end
         end) l
  end.

(** The number that a chain of one-element arrays ends in *)
Fixpoint soleNumber (v : value) : option Q :=
  match v with
  | Number q => Some q
  | Array [x] => soleNumber x
  | _ => None
  end.

(** [Number(v)].  A number printed and read back is itself; a text with a
    comma in it, which is what an array of several elements prints as, is
    not a number. *)
Definition ToNumber (v : value) : completion Num.number :=
  match v with
  | Null => Return (Num.Fin 0)
  | Bool b => Return (Num.Fin (if b then 1 else 0))
  | Number q => Return (Num.Fin q)
  | Str s => Return (Num.StringToNumber s)
  | _ =>
      if stringifies v then
        match toStringNoNumeral v with
        | Some s => Return (Num.StringToNumber s)
        | None =>
            match soleNumber v with
            | Some q => Return (Num.Fin q)
            | None => Return Num.NaN
            end
        end
      else Throw
  end.

(** [/^\d{4}-\d{2}-\d{2}$/] *)
Definition dateRegex : RegExp.regex :=
  TransactionProcessor.Seq
    [RegExp.Rep 4 RegExp.d; RegExp.Lit "-"; RegExp.Rep 2 RegExp.d;
     RegExp.Lit "-"; RegExp.Rep 2 RegExp.d; RegExp.Eol].

(** [dateRegex.test(v)]: the pattern is applied to [String(v)].  A text in
    which a number is printed never matches: a numeral has no hyphen after a
    digit, and several elements are joined by commas. *)
Definition testDate (v : value) : completion bool :=
  if stringifies v then
    match toStringNoNumeral v with
    | Some s => Return (RegExp.testAtStart dateRegex s)
    | None => Return false
    end
  else Throw.

(** A text of the form YYYY-MM-DD: four digits, a hyphen, two digits, a
    hyphen, two digits, and nothing more *)
Definition isoShaped (s : string) : bool :=
  match s with
  | String y1 (String y2 (String y3 (String y4 (String h1
      (String m1 (String m2 (String h2 (String d1 (String d2 EmptyString))))))))) =>
      JS.isDigit y1 && JS.isDigit y2 && JS.isDigit y3 && JS.isDigit y4
      && Ascii.eqb h1 "-" && JS.isDigit m1 && JS.isDigit m2
      && Ascii.eqb h2 "-" && JS.isDigit d1 && JS.isDigit d2
  | _ => false
  end.


(** The outcome of one call of the function given to [forEach] *)
Inductive step : Type :=
| Skip : step
| Push (t : Transaction)
| Abort : step.

Definition isNumber (v : option value) : option Q :=
  match v with
  | Some (Number q) => Some q
  | _ => None
  end.

(** [CATEGORIES.includes(category)] *)
Definition knownCategory (v : option value) : option string :=
  match v with
  | Some (Str c) => if List.existsb (String.eqb c) CATEGORIES then Some c else None
  | _ => None
  end.

(** [txn_] and the position, from 1, padded to three digits *)
Definition defaultId (index : nat) : string :=
  "txn_" ++ JS.padStart 3 "0" (JS.natToString (index + 1)).

(** [Math.min(Math.max(confidence || 0.8, 0.5), 1.0)] *)
Definition normalizeConfidence (c : option value) : completion Num.number :=
  let v := match c with
           | Some x => if truthy c then x else Number (8 # 10)
           | None => Number (8 # 10)
           end in
  match ToNumber v with
  | Return x => Return (Num.min (Num.max x (Num.Fin (5 # 10))) (Num.Fin 1))
  | Throw => Throw
  end.

(** Ensure amount is negative (expense) *)
Definition negateIfPositive (a : Q) : Q :=
  if Num.lt 0 a then - Qabs a else a.

(** Validate category *)
Definition entryCategory (transaction : value) : string :=
  match knownCategory (prop transaction "category") with
  | Some k => k
  | None => "Miscellaneous"
  end.

(** The message [`Invalid category "${category}", ...`] is built when the
    category is not one of the six: a category that has no string form
    throws there *)
Definition categoryPrints (transaction : value) : bool :=
  match knownCategory (prop transaction "category"),
        prop transaction "category" with
  | None, Some c => stringifies c
  | _, _ => true
  end.

(** [transaction.id || `txn_...`] *)
Definition entryId (transaction : value) (index : nat) : value :=
  match prop transaction "id" with
  | Some i => if truthy (Some i) then i else Str (defaultId index)
  | None => Str (defaultId index)
  end.

(** The function given to [forEach].  Reading a property of [null] throws;
    so do the message about a category that has no string form, which is
    built before the date is tested, and [description.trim()] when the
    description is not a string. *)
Definition processEntry (transaction : value) (index : nat) : step :=
  match transaction with
  | Null => Abort
  | _ =>
      match prop transaction "date", prop transaction "description",
            isNumber (prop transaction "amount") with
      | Some vdate, Some vdescription, Some a =>
          if negb (truthy (Some vdate)) || negb (truthy (Some vdescription))
          then Skip
          else
            let amount := negateIfPositive a in
            let category := entryCategory transaction in
            if negb (categoryPrints transaction) then Abort
            else
              match testDate vdate with
              | Throw => Abort
              | Return false => Skip
              | Return true =>
                  match vdescription with
                  | Str text =>
                      match normalizeConfidence (prop transaction "confidence") with
                      | Throw => Abort
                      | Return conf =>
                          Push (mkTransaction (entryId transaction index) vdate
                                  (JS.trim text) (Num.round2 amount) category conf)
                      end
                  | _ => Abort
                  end
              end
      | _, _, _ => Skip
      end
  end.

(** [rawTransactions.forEach(...)], the array [validTransactions] growing at
    its end *)
Fixpoint forEachFrom (index : nat) (rawTransactions : list value)
  (validTransactions : list Transaction) : completion (list Transaction) :=
  match rawTransactions with
  | [] => Return validTransactions
  | transaction :: rest =>
      match processEntry transaction index with
      | Skip => forEachFrom (S index) rest validTransactions
      | Push t => forEachFrom (S index) rest (validTransactions ++ [t])%list
      | Abort => Throw
      end
  end.

Definition validate (rawTransactions : list value) : completion (list Transaction) :=
  forEachFrom 0 rawTransactions [].

(** The sum of the absolute amounts: [reduce((sum, t) => sum + Math.abs(t.amount), 0)] *)
Definition sumAbs (l : list Transaction) : Q :=
  List.fold_left (fun sum t => Num.flQ (sum + Qabs (amount t))) l 0.

(** Calculate summary by category, then round summary values *)
Definition summarize (validTransactions : list Transaction) : StrMap.t Q :=
  let summary :=
    List.fold_left
      (fun acc category =>
         StrMap.set acc category
           (sumAbs (List.filter (fun t => String.eqb (Route.category t) category)
                      validTransactions)))
      CATEGORIES [] in
  List.fold_left
    (fun summary key =>
       match StrMap.get summary key with
       | Some v => StrMap.set summary key (Num.round2 v)
       | None => summary
       end)
    (StrMap.keys summary) summary.

Definition aggregate (validTransactions : list Transaction) : ProcessedData :=
  mkProcessed validTransactions
    (Num.round2 (sumAbs validTransactions))
    (summarize validTransactions).

(** *** The entries of the answer, as the specification sorts them *)

(** The record that stands for an entry with a date, a description that is
    a string and a numeric amount, at a position *)
Definition recordOf (e : value) (index : nat) : Transaction :=
  mkTransaction
    (entryId e index)
    (match prop e "date" with Some v => v | None => Null end)
    (match prop e "description" with Some (Str text) => JS.trim text | _ => EmptyString end)
    (match prop e "amount" with
     | Some (Number a) => Num.round2 (if Num.lt 0 a then - a else a)
     | _ => 0
     end)
    (entryCategory e)
    (match prop e "confidence" with
     | Some (Number c) =>
         if Qeq_bool c 0 then Num.Fin (8 # 10)
         else Num.Fin (Qmin (Qmax c (5 # 10)) 1)
     | _ => Num.Fin (8 # 10)
     end).

(** The sum of the values of a summary *)
Definition sumValues (m : StrMap.t Q) : Q :=
  List.fold_right Qplus 0 (StrMap.values m).

(** The sum of the absolute amounts of the records of a category *)
Definition categoryTotal (c : string) (l : list Transaction) : Q :=
  List.fold_right Qplus 0
    (List.map (fun t => Qabs (amount t))
       (List.filter (fun t => String.eqb (category t) c) l)).

(** An amount that is a whole number of cents, as a binary64 number *)
Definition cents (q : Q) : Prop := exists z : Z, q = Num.flQ (inject_Z z / 100).

(** The absolute amount of a record in cents, to the nearest cent *)
Definition centsOf (t : Transaction) : Z :=
  Qfloor (Qabs (amount t) * 100 + (1 # 2)).

(** The cents of the records of a list, and of its records of a category *)
Definition totalCents (l : list Transaction) : Z :=
  List.fold_right Z.add 0%Z (List.map centsOf l).

Definition categoryCents (c : string) (l : list Transaction) : Z :=
  totalCents (List.filter (fun t => String.eqb (category t) c) l).

(** The sum of the absolute amounts, from the right *)
Definition absSum (l : list Transaction) : Q :=
  List.fold_right Qplus 0 (List.map (fun t => Qabs (amount t)) l).

(** What holds of every record that the validator emits *)
Definition emittedOk (t : Transaction) : Prop :=
  In (category t) CATEGORIES /\ cents (amount t) /\ amount t <= 0.

(** The text from the first opening brace to the last closing brace after
    it, if there is one *)
Fixpoint uptoLastBrace (s : string) : option string :=
  match s with
  | EmptyString => None
  | String c r =>
      match uptoLastBrace r with
      | Some m => Some (String c m)
      | None => if Ascii.eqb c "}" then Some (String c EmptyString) else None
      end
  end.

Fixpoint braceSpan (s : string) : option string :=
  match s with
  | EmptyString => None
  | String c r =>
      if Ascii.eqb c "{" then
        match uptoLastBrace r with
        | Some m => Some (String c m)
        | None => None
        end
      else braceSpan r
  end.

(** [/\{[\s\S]*\}/] *)
Definition jsonObjectPattern : RegExp.regex :=
  TransactionProcessor.Seq
    [RegExp.Lit "{"; RegExp.Star (RegExp.Cls JS.anyChar); RegExp.Lit "}"].

(** What follows the last closing brace of [s] *)
Fixpoint afterLastBrace (s : string) : option string :=
  match s with
  | EmptyString => None
  | String c r =>
      match afterLastBrace r with
      | Some a => Some a
      | None => if Ascii.eqb c "}" then Some r else None
      end
  end.

(** [\}] at the head of [s] *)
Definition closeBrace (s : string) : option string :=
  RegExp.run (RegExp.Lit "}") s (fun rest => Some rest).

(** What the route answers *)
Inductive response : Type :=
| Processed (data : ProcessedData)
| ParseFailure : response
| ProcessingError : response.

(** The text handed to [JSON.parse]: the match of the pattern if there is
    one, the whole answer otherwise *)
Definition jsonCandidate (aiResponse : string) : string :=
  match RegExp.firstMatch jsonObjectPattern aiResponse with
  | Some jsonMatch => jsonMatch
  | None => aiResponse
  end.

(** [parsedData.transactions || []], then the loop: anything but an array
    has no [forEach] *)
Definition rawTransactionsOf (parsedData : value) : completion (list value) :=
  match parsedData with
  | Null => Throw
  | _ =>
      let t := prop parsedData "transactions" in
      if truthy t then
        match t with
        | Some (Array l) => Return l
        | _ => Throw
        end
      else Return []
  end.

(** [processTransactionText], [aiResponse] being the content of the answer
    of the model *)
Definition processTransactionText (aiResponse : string) : response :=
  match aiResponse with
  | EmptyString => ProcessingError
  | _ =>
      match JSON.parse (jsonCandidate aiResponse) with
      | None => ParseFailure
      | Some parsedData =>
          match rawTransactionsOf parsedData with
          | Throw => ProcessingError
          | Return rawTransactions =>
              match validate rawTransactions with
              | Throw => ProcessingError
              | Return validTransactions => Processed (aggregate validTransactions)
              end
          end
      end
  end.

End Route.

(** ** src/app/api/process-pdf/route.ts, from the extracted text on *)

Module ProcessPdf.

Record Transaction : Type := mkTransaction {
  date : string;
  description : string;
  amount : Num.number;
  id : string;
  category : string;
  confidence : Q
}.

Record Processed : Type := mkProcessed {
  transactions : list Transaction;
  totalAmount : Num.number;
  summary : StrMap.t Num.number
}.

Inductive response : Type :=
| NoTextContent : response
| NoTransactionsFound : response
| Done (data : Processed).

(** [[^a-zA-Z0-9]] *)
Definition notAlphaNum (c : ascii) : bool :=
  negb (JS.between 97 122 c || JS.between 65 90 c || JS.isDigit c).

Fixpoint classifyFrom (fileName : string) (index : nat)
  (l : list TransactionProcessor.RawTransaction) : list Transaction :=
  match l with
  | [] => []
  | t :: r =>
      let classification :=
        Classifier.classifyTransaction (TransactionProcessor.description t) in
      mkTransaction (TransactionProcessor.date t)
        (TransactionProcessor.description t)
        (TransactionProcessor.amount t)
        (RegExp.replaceAll (RegExp.Cls notAlphaNum) "_" fileName ++ "-"
           ++ JS.natToString index)
        (Classifier.category classification)
        (Classifier.confidence classification)
      :: classifyFrom fileName (S index) r
  end.

(** [acc[category] || 0] *)
Definition orZero (v : option Num.number) : Num.number :=
  match v with
  | Some (Num.Fin q) => if Qeq_bool q 0 then Num.Fin 0 else Num.Fin q
  | Some Num.NaN | None => Num.Fin 0
  | Some x => x
  end.

Definition initialSummary : StrMap.t Num.number :=
  List.map (fun c => (c, Num.Fin 0)) Route.CATEGORIES.

(** Only count expenses (negative amounts) for summary *)
Definition summarize (l : list Transaction) : StrMap.t Num.number :=
  List.fold_left
    (fun acc t =>
       if Num.ltZero (amount t)
       then StrMap.set acc (category t)
              (Num.add (orZero (StrMap.get acc (category t))) (Num.abs (amount t)))
       else acc)
    l initialSummary.

Definition total (l : list Transaction) : Num.number :=
  List.fold_left (fun sum t => Num.add sum (Num.abs (amount t)))
    (List.filter (fun t => Num.ltZero (amount t)) l) (Num.Fin 0).

(** The handler, [text] being what [pdfParse] extracted from the file and
    [currentYear] the year of the clock *)
Definition POST (currentYear : nat) (fileName text : string) : response :=
  match JS.trim text with
  | EmptyString => NoTextContent
  | _ =>
      match TransactionProcessor.parseTransactionText currentYear text with
      | [] => NoTransactionsFound
      | rawTransactions =>
          let classifiedTransactions := classifyFrom fileName 0 rawTransactions in
          Done (mkProcessed classifiedTransactions
                  (total classifiedTransactions)
                  (summarize classifiedTransactions))
      end
  end.

(** [x >= 0] *)
Definition geZero (x : Num.number) : bool :=
  match x with
  | Num.Fin q => match Qcompare q 0 with Lt => false | _ => true end
  | Num.PosInf => true
  | _ => false
  end.

(** The counts of the [metadata] of the answer.  The average confidence, a
    quotient of binary64 numbers that the classifier computes, and the
    processing time are left out. *)
Record Metadata : Type := mkMetadata {
  totalTransactions : nat;
  expenseTransactions : nat;
  incomeTransactions : nat
}.

Definition metadata (l : list Transaction) : Metadata :=
  mkMetadata
    (List.length l)
    (List.length (List.filter (fun t => Num.ltZero (amount t)) l))
    (List.length (List.filter (fun t => geZero (amount t)) l)).

(** The binary64 sum of the absolute amounts of a list of records, taken
    from the left *)
Definition sumOfAbs (l : list Transaction) : Num.number :=
  Num.sum (List.map (fun t => Num.abs (amount t)) l).

(** The expenses among the records, and the expenses under a category *)
Definition expenses (l : list Transaction) : list Transaction :=
  List.filter (fun t => Num.ltZero (amount t)) l.

Definition expensesOf (c : string) (l : list Transaction) : list Transaction :=
  List.filter (fun t => Num.ltZero (amount t) && String.eqb (category t) c) l.

(** The summary that holds [g c] under each category [c] *)
Definition summaryOf (g : string -> Num.number) : StrMap.t Num.number :=
  List.map (fun c => (c, g c)) Route.CATEGORIES.

(** What holds of every record of the answer: an amount that is negative
    or positive (not 0, not [NaN]), one of the six categories, a confidence
    between 0.4 and 1 *)
Definition localOk (t : Transaction) : Prop :=
  (Num.ltZero (amount t) = true \/ Num.gtZero (amount t) = true)
  /\ In (category t) Route.CATEGORIES
  /\ 4 # 10 <= confidence t /\ confidence t <= 1.

End ProcessPdf.

(** ** The page that shows the answer of the bank-statement route
    ([BankStatementProcessor]): the change of a category *)

Module Page.

Import Route.

(** [t.id === transactionId], the identifier asked for being a string *)
Definition hasId (transactionId : string) (t : Transaction) : bool :=
  match id t with
  | JSON.Str i => String.eqb i transactionId
  | _ => false
  end.

(** [{ ...t, category: newCategory }] *)
Definition withCategory (t : Transaction) (newCategory : string) : Transaction :=
  mkTransaction (id t) (date t) (description t) (amount t) newCategory
    (confidence t).

(** Recalculate summary *)
Definition recalculate (updatedTransactions : list Transaction) : StrMap.t Q :=
  List.fold_left
    (fun acc category =>
       StrMap.set acc category
         (sumAbs (List.filter (fun t => String.eqb (Route.category t) category)
                    updatedTransactions)))
    CATEGORIES [].

(** What becomes of the data of the file at [fileIndex] *)
Definition updateData (transactionId newCategory : string)
  (data : ProcessedData) : ProcessedData :=
  let updatedTransactions :=
    List.map (fun t => if hasId transactionId t
                       then withCategory t newCategory else t)
      (transactions data) in
  mkProcessed updatedTransactions (totalAmount data)
    (recalculate updatedTransactions).

(** [prev.map((data, index) => ...)] *)
Fixpoint updateFrom (index fileIndex : nat) (transactionId newCategory : string)
  (prev : list ProcessedData) : list ProcessedData :=
  match prev with
  | [] => []
  | data :: rest =>
      (if Nat.eqb index fileIndex
       then updateData transactionId newCategory data
       else data)
      :: updateFrom (S index) fileIndex transactionId newCategory rest
  end.

Definition updateTransactionCategory (fileIndex : nat)
  (transactionId newCategory : string) (prev : list ProcessedData)
  : list ProcessedData :=
  updateFrom 0 fileIndex transactionId newCategory prev.

(** [data.summary[cat]]; a category that the summary lacks gives
    [undefined], which a sum turns into [NaN] *)
Definition summaryValue (data : ProcessedData) (cat : string) : Num.number :=
  match StrMap.get (summary data) cat with
  | Some v => Num.Fin v
  | None => Num.NaN
  end.

(** [CATEGORIES.forEach(cat => { acc[cat] = (acc[cat] || 0) + data.summary[cat] })] *)
Definition addSummary (acc : StrMap.t Num.number) (data : ProcessedData)
  : StrMap.t Num.number :=
  List.fold_left
    (fun acc cat =>
       StrMap.set acc cat
         (Num.add (ProcessPdf.orZero (StrMap.get acc cat)) (summaryValue data cat)))
    CATEGORIES acc.

(** The data of a file that the page can add up: a summary with the six
    categories and no negative value *)
Definition fileOk (data : ProcessedData) : Prop :=
  StrMap.keys (summary data) = CATEGORIES
  /\ Forall (fun cv => 0 <= snd cv) (summary data).

Definition totalSummary (processedData : list ProcessedData)
  : StrMap.t Num.number :=
  List.fold_left addSummary processedData [].

(** [Object.values(totalSummary).reduce((sum, val) => sum + val, 0)] *)
Definition grandTotal (processedData : list ProcessedData) : Num.number :=
  List.fold_left Num.add (StrMap.values (totalSummary processedData)) (Num.Fin 0).

End Page.

(** ** Sample inputs *)

Module Samples.

Import JSON.

Definition dq : string := Classifier.dq.

(** An entry with the three required fields, and more members after them *)
Definition entry (date description : string) (amount : Q)
  (more : list (string * value)) : value :=
  Object (("date", Str date) :: ("description", Str description)
          :: ("amount", Number (Num.flQ amount)) :: more).

(** An entry whose confidence is 1.5, one whose confidence is 0, one with an
    amount of 0, one without a description *)
Definition bell : value :=
  entry "2025-07-14" "Bell Canada" (11991 # 100)
    [("category", Str "Utilities"); ("confidence", Number (15 # 10))].

Definition unsure : value :=
  entry "2025-07-15" "Corner store" (-5) [("confidence", Number 0)].

Definition free : value :=
  entry "2025-07-16" "Free sample" 0 [("category", Str "Groceries")].

Definition nameless : value :=
  Object [("date", Str "2025-07-17"); ("amount", Number 12)].

(** An entry whose description is a number *)
Definition numbered : value :=
  Object [("date", Str "2025-07-18"); ("description", Number 5);
          ("amount", Number 12)].

(** The answer
    [{"transactions":[{"date":"2025-07-17","amount":12},null,
      {"date":"2025-07-14","description":"Bell Canada","amount":119.91}]}] *)
Definition answerWithNull : string :=
  "{" ++ dq ++ "transactions" ++ dq ++ ":[{"
  ++ dq ++ "date" ++ dq ++ ":" ++ dq ++ "2025-07-17" ++ dq ++ ","
  ++ dq ++ "amount" ++ dq ++ ":12},null,{"
  ++ dq ++ "date" ++ dq ++ ":" ++ dq ++ "2025-07-14" ++ dq ++ ","
  ++ dq ++ "description" ++ dq ++ ":" ++ dq ++ "Bell Canada" ++ dq ++ ","
  ++ dq ++ "amount" ++ dq ++ ":119.91}]}".

(** The same answer without the [null] *)
Definition answerWithoutNull : string :=
  "{" ++ dq ++ "transactions" ++ dq ++ ":[{"
  ++ dq ++ "date" ++ dq ++ ":" ++ dq ++ "2025-07-17" ++ dq ++ ","
  ++ dq ++ "amount" ++ dq ++ ":12},{"
  ++ dq ++ "date" ++ dq ++ ":" ++ dq ++ "2025-07-14" ++ dq ++ ","
  ++ dq ++ "description" ++ dq ++ ":" ++ dq ++ "Bell Canada" ++ dq ++ ","
  ++ dq ++ "amount" ++ dq ++ ":119.91}]}".

(** Three entries in three categories, one of them very large *)
Definition fleet : value :=
  entry "2025-07-01" "Fleet purchase" 10000000000000000
    [("category", Str "Car")].

Definition apple : value :=
  entry "2025-07-02" "Apple" 1 [("category", Str "Groceries")].

Definition coffee : value :=
  entry "2025-07-03" "Coffee" 1 [("category", Str "Restaurants")].

Definition toll : value :=
  entry "2025-07-04" "Toll" 1 [("category", Str "Car")].

(** The text [[{"a":1},{"b":2}]]: an array of two objects *)
Definition twoObjects : string :=
  "[{" ++ dq ++ "a" ++ dq ++ ":1},{" ++ dq ++ "b" ++ dq ++ ":2}]".

(** The answer of scenario 4 of the specification *)
Definition scenario4 : string :=
  "Sure, here is the result: {" ++ dq ++ "transactions" ++ dq ++ ":[{"
  ++ dq ++ "date" ++ dq ++ ":" ++ dq ++ "2025-07-14" ++ dq ++ ","
  ++ dq ++ "description" ++ dq ++ ":" ++ dq ++ "Bell Canada" ++ dq ++ ","
  ++ dq ++ "amount" ++ dq ++ ":119.91,"
  ++ dq ++ "category" ++ dq ++ ":" ++ dq ++ "Utilities" ++ dq ++ ","
  ++ dq ++ "confidence" ++ dq ++ ":1.5}]}".

(** A training entry for a category of its own *)
Definition kennel : Classifier.TrainingData :=
  Classifier.mkTraining "dog walker" "Pets" ["kennel"; "veterinary"].

End Samples.

(** * Properties *)

Local Open Scope Q_scope.

(** ** Comparisons *)

Lemma lt_true (x y : Q) : Num.lt x y = true <-> x < y.
Proof.
  unfold Num.lt. rewrite Qlt_alt.
  destruct (x ?= y); split; congruence.
Qed.

Lemma lt_false (x y : Q) : Num.lt x y = false <-> y <= x.
Proof.
  unfold Num.lt. destruct (x ?= y) eqn:E.
  - apply Qeq_alt in E. split; [intros _ | reflexivity].
    rewrite E. apply Qle_refl.
  - apply Qlt_alt in E. split; [discriminate |].
    intros H. exfalso. apply (Qlt_not_le _ _ E H).
  - apply Qgt_alt in E. split; [intros _ | reflexivity].
    apply Qlt_le_weak. exact E.
Qed.

(** ** Rounding to binary64 *)

Section Binary64.

Import Num.

Lemma pow2_pos (k : Z) : 0 < pow2 k.
Proof. apply Qpower_0_lt. reflexivity. Qed.

Lemma pow2_add (a b : Z) : pow2 (a + b) == pow2 a * pow2 b.
Proof. apply Qpower_plus. discriminate. Qed.

Lemma pow2_le (a b : Z) : (a <= b)%Z -> pow2 a <= pow2 b.
Proof. intros H. apply Qpower_le_compat_l; [exact H | discriminate]. Qed.

Lemma pow2_le_inv (a b : Z) : pow2 a <= pow2 b -> (a <= b)%Z.
Proof. intros H. apply (Qpower_le_compat_l_inv 2); [exact H | reflexivity]. Qed.

Lemma pow2_lt_inv (a b : Z) : pow2 a < pow2 b -> (a < b)%Z.
Proof. intros H. apply (Qpower_lt_compat_l_inv 2); [exact H | reflexivity]. Qed.

Lemma pow2_Z (n : Z) : (0 <= n)%Z -> pow2 n == inject_Z (2 ^ n).
Proof. intros H. unfold pow2. rewrite Zpower_Qpower by exact H. reflexivity. Qed.

Lemma pow2_sub (a b : Z) : (0 <= a)%Z -> (0 <= b)%Z ->
  pow2 (a - b) == inject_Z (2 ^ a) / inject_Z (2 ^ b).
Proof.
  intros Ha Hb. unfold Z.sub. rewrite pow2_add. unfold pow2 at 2.
  rewrite Qpower_opp. fold (pow2 b). rewrite !pow2_Z by assumption.
  reflexivity.
Qed.

Lemma ratio_le (n d : positive) (A B : Z) :
  (0 < B)%Z -> (A * Zpos d <= Zpos n * B)%Z ->
  inject_Z A / inject_Z B <= Zpos n # d.
Proof.
  intros HB H. destruct B as [|p|p]; try lia.
  unfold Qle, Qdiv, Qmult, Qinv, inject_Z. cbn [Qnum Qden].
  rewrite Pos.mul_1_l. lia.
Qed.

Lemma ratio_lt (n d : positive) (A B : Z) :
  (0 < B)%Z -> (Zpos n * B < A * Zpos d)%Z ->
  Zpos n # d < inject_Z A / inject_Z B.
Proof.
  intros HB H. destruct B as [|p|p]; try lia.
  unfold Qlt, Qdiv, Qmult, Qinv, inject_Z. cbn [Qnum Qden].
  rewrite Pos.mul_1_l. lia.
Qed.

Lemma ilog2_spec (n d : positive) :
  pow2 (ilog2 n d) <= Zpos n # d /\ Zpos n # d < pow2 (ilog2 n d + 1).
Proof.
  unfold ilog2.
  pose proof (Z.log2_nonneg (Zpos n)) as Na.
  pose proof (Z.log2_nonneg (Zpos d)) as Nb.
  destruct (Z.log2_spec (Zpos n) eq_refl) as [A1 A2].
  destruct (Z.log2_spec (Zpos d) eq_refl) as [B1 B2].
  set (a := Z.log2 (Zpos n)) in *. set (b := Z.log2 (Zpos d)) in *.
  assert (Pa : (0 < 2 ^ a)%Z) by (apply Z.pow_pos_nonneg; lia).
  assert (Pb : (0 < 2 ^ b)%Z) by (apply Z.pow_pos_nonneg; lia).
  replace (Z.succ a) with (a + 1)%Z in A2 by lia.
  replace (Z.succ b) with (b + 1)%Z in B2 by lia.
  destruct (Qle_bool (pow2 (a - b)) (Zpos n # d)) eqn:T.
  - split; [apply Qle_bool_iff, T |].
    replace (a - b + 1)%Z with ((a + 1) - b)%Z by lia.
    rewrite pow2_sub by lia. apply ratio_lt; [exact Pb | nia].
  - split.
    + replace (a - b - 1)%Z with (a - (b + 1))%Z by lia.
      rewrite pow2_sub by lia. apply ratio_le; [lia | nia].
    + replace (a - b - 1 + 1)%Z with (a - b)%Z by lia.
      apply Qnot_le_lt. intros L. apply Qle_bool_iff in L. congruence.
Qed.

Lemma ilog2_unique (x : Q) (k k' : Z) :
  pow2 k <= x -> x < pow2 (k + 1) -> pow2 k' <= x -> x < pow2 (k' + 1) ->
  k = k'.
Proof.
  intros L U L' U'.
  assert (A : (k < k' + 1)%Z) by (apply pow2_lt_inv; lra).
  assert (B : (k' < k + 1)%Z) by (apply pow2_lt_inv; lra).
  lia.
Qed.

Lemma nearestEven_spec (q : Q) :
  Qabs (inject_Z (nearestEven q) - q) <= 1 # 2.
Proof.
  unfold nearestEven.
  pose proof (Qfloor_le q) as L. pose proof (Qlt_floor q) as U.
  rewrite inject_Z_plus in U. change (inject_Z 1) with 1 in U.
  assert (P : inject_Z (Qfloor q + 1) == inject_Z (Qfloor q) + 1)
    by (rewrite inject_Z_plus; reflexivity).
  destruct (Qcompare_spec (q - inject_Z (Qfloor q)) (1 # 2)) as [E | E | E].
  - destruct (Z.even (Qfloor q)); [| rewrite P]; apply Qabs_Qle_condition; lra.
  - apply Qabs_Qle_condition; lra.
  - rewrite P. apply Qabs_Qle_condition; lra.
Qed.

Lemma nearestEven_nonneg (q : Q) : 0 <= q -> (0 <= nearestEven q)%Z.
Proof.
  intros H. unfold nearestEven.
  assert (F : (0 <= Qfloor q)%Z).
  { change 0%Z with (Qfloor 0). apply Qfloor_resp_le, H. }
  destruct (Qcompare _ _); [destruct (Z.even _) | |]; lia.
Qed.

Lemma nearestEven_wd (a b : Q) : a == b -> nearestEven a = nearestEven b.
Proof.
  intros E. unfold nearestEven. rewrite (Qfloor_comp _ _ E).
  assert (C : (a - inject_Z (Qfloor b) ?= 1 # 2) = (b - inject_Z (Qfloor b) ?= 1 # 2)).
  { apply Qcompare_comp; [rewrite E |]; reflexivity. }
  rewrite C. reflexivity.
Qed.

Lemma quantum_pos (k : Z) : 0 < quantum k.
Proof. apply pow2_pos. Qed.

Lemma nearest_value (n d : positive) :
  nearest n d
  == inject_Z (nearestEven ((Zpos n # d) / quantum (ilog2 n d)))
     * quantum (ilog2 n d).
Proof. unfold nearest. apply Qred_correct. Qed.

Lemma nearest_error (n d : positive) :
  Qabs (nearest n d - (Zpos n # d)) <= quantum (ilog2 n d) * (1 # 2).
Proof.
  rewrite nearest_value.
  set (u := quantum (ilog2 n d)). set (x := Zpos n # d).
  pose proof (quantum_pos (ilog2 n d)) as Pu. fold u in Pu.
  pose proof (nearestEven_spec (x / u)) as S.
  set (m := inject_Z (nearestEven (x / u))) in *.
  assert (E : m * u - x == (m - x / u) * u) by (field; lra).
  rewrite E, Qabs_Qmult, (Qabs_pos u) by lra.
  rewrite (Qmult_comm u). apply Qmult_le_compat_r; lra.
Qed.

Lemma nearest_nonneg (n d : positive) : 0 <= nearest n d.
Proof.
  rewrite nearest_value.
  pose proof (quantum_pos (ilog2 n d)) as Pu.
  apply Qmult_le_0_compat; [| lra].
  change 0 with (inject_Z 0). rewrite <- Zle_Qle.
  apply nearestEven_nonneg. apply Qle_shift_div_l; [exact Pu |].
  rewrite Qmult_0_l. discriminate.
Qed.

Lemma quantum_bound (n d : positive) (E : Z) :
  (Zpos n # d) <= pow2 E -> (-1022 <= E)%Z ->
  quantum (ilog2 n d) <= pow2 (E - 52).
Proof.
  intros H HE. destruct (ilog2_spec n d) as [L _].
  apply pow2_le. assert (ilog2 n d <= E)%Z by (apply pow2_le_inv; lra). lia.
Qed.

Lemma quantum_normal (n d : positive) :
  pow2 (-1022) <= (Zpos n # d) ->
  quantum (ilog2 n d) <= (Zpos n # d) * pow2 (-52).
Proof.
  intros H. destruct (ilog2_spec n d) as [L U].
  assert (K : (-1022 < ilog2 n d + 1)%Z) by (apply pow2_lt_inv; lra).
  unfold quantum. rewrite Z.max_l by lia.
  unfold Z.sub. rewrite pow2_add.
  apply Qmult_le_compat_r; [exact L | apply Qlt_le_weak, pow2_pos].
Qed.

Lemma pow2_half (k : Z) : pow2 (k - 1) == pow2 k * (1 # 2).
Proof. unfold Z.sub. rewrite pow2_add. reflexivity. Qed.

Lemma flQ_opp (q : Q) : flQ (- q) == - flQ q.
Proof.
  destruct q as [[|n|n] d]; unfold flQ; cbn [Qnum Qden Qopp Z.opp];
    [reflexivity | reflexivity | ring].
Qed.

Lemma flQ_nonneg (q : Q) : 0 <= q -> 0 <= flQ q.
Proof.
  destruct q as [[|n|n] d]; intros H; unfold flQ; cbn [Qnum Qden].
  - discriminate.
  - apply nearest_nonneg.
  - exfalso. revert H. unfold Qle. cbn. lia.
Qed.

Lemma flQ_nonpos (q : Q) : q <= 0 -> flQ q <= 0.
Proof.
  intros H. assert (N : 0 <= flQ (- q)) by (apply flQ_nonneg; lra).
  rewrite flQ_opp in N. lra.
Qed.

Lemma flQ_error_quantum (n d : positive) (b : Q) :
  quantum (ilog2 n d) * (1 # 2) <= b ->
  Qabs (flQ (Zpos n # d) - (Zpos n # d)) <= b
  /\ Qabs (flQ (Zneg n # d) - (Zneg n # d)) <= b.
Proof.
  intros H. pose proof (nearest_error n d) as N.
  unfold flQ; cbn [Qnum Qden]. split; [lra |].
  assert (E : - nearest n d - (Z.neg n # d) == - (nearest n d - (Zpos n # d))).
  { change (Z.neg n # d) with (- (Zpos n # d)). ring. }
  rewrite E, Qabs_opp. lra.
Qed.

Lemma Qabs_Zneg (n d : positive) : Qabs (Zneg n # d) = (Zpos n # d).
Proof. reflexivity. Qed.

Lemma flQ_zero (d : positive) : flQ (0 # d) = 0.
Proof. reflexivity. Qed.

(** The rounding error is at most half a unit in the last place: for a
    number of size at most [2^E], at most [2^(E-53)] *)
Lemma flQ_abs_error (E : Z) (q : Q) :
  Qabs q <= pow2 E -> (-1022 <= E)%Z ->
  Qabs (flQ q - q) <= pow2 (E - 53).
Proof.
  intros H HE.
  assert (P : 0 < pow2 (E - 53)) by apply pow2_pos.
  destruct q as [[|n|n] d].
  - rewrite flQ_zero. setoid_replace (0 - (0 # d)) with 0 by (unfold Qeq; cbn; lia).
    cbn. lra.
  - apply flQ_error_quantum.
    replace (E - 53)%Z with (E - 52 - 1)%Z by lia. rewrite pow2_half.
    apply Qmult_le_compat_r; [| discriminate].
    apply quantum_bound; [exact H | exact HE].
  - apply flQ_error_quantum.
    replace (E - 53)%Z with (E - 52 - 1)%Z by lia. rewrite pow2_half.
    apply Qmult_le_compat_r; [| discriminate].
    apply quantum_bound; [exact H | exact HE].
Qed.

(** and for a number in the normal range, at most [2^-53] of its size *)
Lemma flQ_rel_error (q : Q) :
  pow2 (-1022) <= Qabs q ->
  Qabs (flQ q - q) <= Qabs q * pow2 (-53).
Proof.
  intros H.
  assert (R : forall n d, pow2 (-1022) <= (Zpos n # d) ->
              quantum (ilog2 n d) * (1 # 2) <= (Zpos n # d) * pow2 (-53)).
  { intros n d Hn. pose proof (quantum_normal n d Hn) as Qn.
    change (-53)%Z with (-52 - 1)%Z. rewrite pow2_half.
    rewrite Qmult_assoc. apply Qmult_le_compat_r; [exact Qn | discriminate]. }
  destruct q as [[|n|n] d].
  - exfalso. pose proof (pow2_pos (-1022)) as P.
    assert (Z0 : Qabs (0 # d) == 0) by (unfold Qeq; cbn; lia). lra.
  - apply flQ_error_quantum, R, H.
  - apply flQ_error_quantum. rewrite Qabs_Zneg. apply R, H.
Qed.

Lemma nearest_wd (n d n' d' : positive) :
  (Zpos n # d) == (Zpos n' # d') -> nearest n d = nearest n' d'.
Proof.
  intros E.
  assert (K : ilog2 n d = ilog2 n' d').
  { destruct (ilog2_spec n d) as [L U]. destruct (ilog2_spec n' d') as [L' U'].
    apply (ilog2_unique (Zpos n # d)); try assumption; rewrite E; assumption. }
  unfold nearest. rewrite K.
  apply Qred_complete.
  rewrite (nearestEven_wd _ ((Zpos n' # d') / quantum (ilog2 n' d'))).
  - reflexivity.
  - rewrite E. reflexivity.
Qed.

Lemma flQ_wd (a b : Q) : a == b -> flQ a = flQ b.
Proof.
  destruct a as [[|n|n] d], b as [[|n'|n'] d']; intros E;
    try (exfalso; revert E; unfold Qeq; cbn; lia).
  - reflexivity.
  - unfold flQ; cbn [Qnum Qden]. apply nearest_wd, E.
  - unfold flQ; cbn [Qnum Qden]. f_equal. apply nearest_wd.
    revert E. unfold Qeq. cbn. lia.
Qed.

#[global] Instance flQ_Proper : Proper (Qeq ==> Qeq) flQ.
Proof. intros a b E. rewrite (flQ_wd a b E). reflexivity. Qed.

Lemma flQ_Qabs (q : Q) : Qabs (flQ q) == flQ (Qabs q).
Proof.
  destruct (Qlt_le_dec q 0) as [N | P].
  - rewrite (Qabs_neg q) by lra.
    rewrite Qabs_neg by (apply flQ_nonpos; lra).
    rewrite flQ_opp. reflexivity.
  - rewrite (Qabs_pos q) by exact P.
    apply Qabs_pos, flQ_nonneg, P.
Qed.

Lemma fl_cases (q : Q) :
  fl q = PosInf \/ fl q = NegInf \/ fl q = Fin (flQ q).
Proof.
  unfold fl. destruct (Qle_bool (pow2 1024) (flQ q)); [tauto |].
  destruct (Qle_bool (flQ q) (- pow2 1024)); tauto.
Qed.

(** A number that is not negative is read as a finite number that is not
    negative, or as the positive infinity *)
Lemma fl_nonneg (q : Q) :
  0 <= q -> fl q = PosInf \/ (fl q = Fin (flQ q) /\ 0 <= flQ q).
Proof.
  intros H. pose proof (flQ_nonneg q H) as P. unfold fl.
  destruct (Qle_bool (pow2 1024) (flQ q)); [tauto |].
  destruct (Qle_bool (flQ q) (- pow2 1024)) eqn:E; [| tauto].
  exfalso. apply Qle_bool_iff in E. pose proof (pow2_pos 1024). lra.
Qed.

(** Rounding keeps a number of the normal range away from 0 *)
Lemma flQ_pos (q : Q) : pow2 (-1022) <= q -> 0 < flQ q.
Proof.
  intros H. pose proof (pow2_pos (-1022)) as P.
  assert (A : pow2 (-1022) <= Qabs q) by (rewrite Qabs_pos; lra).
  pose proof (flQ_rel_error q A) as R. rewrite (Qabs_pos q) in R by lra.
  apply Qabs_Qle_condition in R.
  assert (K : pow2 (-53) == 1 # 9007199254740992) by reflexivity.
  rewrite K in R. nra.
Qed.

(** A positive whole number of cents is read as a positive number *)
Lemma fl_cents_sign (cents : Z) :
  (0 < cents)%Z ->
  gtZero (fl (cents # 100)) = true /\ ltZero (neg (fl (cents # 100))) = true.
Proof.
  intros C.
  assert (P : 0 <= cents # 100) by (unfold Qle; simpl; lia).
  destruct (fl_nonneg _ P) as [-> | [-> _]]; [split; reflexivity |].
  assert (Y : 0 < flQ (cents # 100)).
  { apply flQ_pos. apply Qle_trans with (1 # 100).
    - apply Qle_bool_iff. vm_compute. reflexivity.
    - unfold Qle. simpl. lia. }
  split.
  - unfold gtZero. destruct (0 ?= flQ (cents # 100)) eqn:K; [| reflexivity |].
    + apply Qeq_alt in K. lra.
    + apply Qgt_alt in K. lra.
  - unfold neg, ltZero.
    destruct (- flQ (cents # 100) ?= 0) eqn:K; [| reflexivity |].
    + apply Qeq_alt in K. lra.
    + apply Qgt_alt in K. lra.
Qed.

End Binary64.

(** ** The keyword classifier *)

Section ClassifierFacts.

Import Classifier.

Lemma finalConfidence_bounds (bestScore : Q) :
  4 # 10 <= finalConfidence bestScore /\ finalConfidence bestScore <= 1.
Proof.
  unfold finalConfidence.
  set (c := Qmin (bestScore / maxPossibleScore) 1).
  assert (Hc : c <= 1) by apply Q.le_min_r.
  destruct (Num.lt (5 # 10) c) eqn:E.
  - split.
    + apply Qle_trans with (7 # 10); [discriminate | apply Q.le_max_r].
    + apply Q.max_lub; [exact Hc | discriminate].
  - apply lt_false in E. split.
    + apply Q.le_max_r.
    + apply Q.max_lub; [exact Hc | discriminate].
Qed.

Lemma finalConfidence_unfold (bestScore : Q) :
  finalConfidence bestScore =
  (if Num.lt (5 # 10) (Qmin (bestScore / 2) 1)
   then Qmax (Qmin (bestScore / 2) 1) (7 # 10)
   else Qmax (Qmin (bestScore / 2) 1) (4 # 10)).
Proof. reflexivity. Qed.

(** The best score found is at least every score of the map, and at least
    the score it started from *)
Lemma bestStep_fold_ge (reasons : StrMap.t (list string))
  (scores : list (string * Q)) (best : Best) :
  let b := List.fold_left (bestStep reasons) scores best in
  snd (fst best) <= snd (fst b) /\
  forall c s, In (c, s) scores -> s <= snd (fst b).
Proof.
  revert best. induction scores as [| [c0 s0] scores IH]; intros best; simpl.
  - split; [apply Qle_refl | intros c s []].
  - destruct best as [[bc bs] br]. simpl.
    destruct (Num.lt bs s0) eqn:E.
    + destruct (IH (c0, s0, getReasons reasons c0)) as [H1 H2]. simpl in H1.
      apply lt_true in E. split.
      * apply Qle_trans with s0; [apply Qlt_le_weak; exact E | exact H1].
      * intros c s [Heq | Hin]; [inversion Heq; subst; exact H1 | eauto].
    + destruct (IH (bc, bs, br)) as [H1 H2]. simpl in H1.
      apply lt_false in E. split; [exact H1 |].
      intros c s [Heq | Hin]; [inversion Heq; subst |]; eauto using Qle_trans.
Qed.

Lemma lowerChar_whitespace (c : ascii) :
  JS.isWhiteSpace (JS.lowerChar c) = JS.isWhiteSpace c.
Proof.
  destruct c as [[] [] [] [] [] [] [] []]; reflexivity.
Qed.

Lemma trimStart_blank (s : string) :
  JS.all JS.isWhiteSpace s = true -> JS.trimStart s = EmptyString.
Proof.
  induction s as [| c s IH]; simpl; [reflexivity |].
  intros H. apply andb_true_iff in H. destruct H as [Hc Hs].
  rewrite Hc. exact (IH Hs).
Qed.

Lemma toLowerCase_blank (s : string) :
  JS.all JS.isWhiteSpace (JS.toLowerCase s) = JS.all JS.isWhiteSpace s.
Proof.
  induction s as [| c s IH]; simpl; [reflexivity |].
  rewrite lowerChar_whitespace, IH. reflexivity.
Qed.

Lemma normalized_blank (description : string) :
  JS.all JS.isWhiteSpace description = true ->
  JS.trim (JS.toLowerCase description) = EmptyString.
Proof.
  intros H. unfold JS.trim. rewrite trimStart_blank; [reflexivity |].
  rewrite toLowerCase_blank. exact H.
Qed.

(** C8: the confidence returned for a description is the normalised winning
    score with its floor: with raw = min(winningScore / 2, 1), it is
    max(raw, 0.7) when raw exceeds 0.5 and max(raw, 0.4) otherwise; hence it
    lies between 0.4 and 1.  The winning score is the greatest of the
    accumulated category scores. *)
Theorem classifier_confidence_floor (description : string) :
  let r := classifyTransaction description in
  let normalizedDesc := JS.trim (JS.toLowerCase description) in
  let words := RegExp.split (RegExp.Plus RegExp.s) normalizedDesc in
  let winning := winningScore TRAINING_DATA description in
  let raw := Qmin (winning / 2) 1 in
  confidence r =
    (if Num.lt (5 # 10) raw then Qmax raw (7 # 10) else Qmax raw (4 # 10))
  /\ 4 # 10 <= confidence r /\ confidence r <= 1
  /\ 0 <= winning
  /\ Forall (fun cs => snd cs <= winning)
       (fst (scoreAll TRAINING_DATA normalizedDesc words)).
Proof.
  intros r normalizedDesc words winning raw.
  assert (Hr : confidence r = finalConfidence winning).
  { unfold r, winning, classifyTransaction, classifyWith, winningScore.
    fold normalizedDesc. fold words.
    destruct (findBest (scoreAll TRAINING_DATA normalizedDesc words))
      as [[bc bs] br]. reflexivity. }
  rewrite Hr. destruct (finalConfidence_bounds winning) as [Hlo Hhi].
  split; [apply finalConfidence_unfold |].
  split; [exact Hlo |]. split; [exact Hhi |].
  clear. subst winning. unfold winningScore, findBest.
  destruct (bestStep_fold_ge
              (snd (scoreAll TRAINING_DATA normalizedDesc words))
              (fst (scoreAll TRAINING_DATA normalizedDesc words))
              ("Miscellaneous"%string, 0, [])) as [H0 Hall].
  split; [exact H0 |].
  apply Forall_forall. intros [c s] Hin. exact (Hall c s Hin).
Qed.

(** C10: a description made of white space only is not sent to
    'Miscellaneous' with a low confidence.  Its single token is empty and
    occurs in every keyword, so every training entry scores 0.3 for each of
    its keywords, every category scores 0.3 times its number of keywords, and
    the answer is the category with the most keywords, 'Living Expenses',
    with confidence 1. *)
Theorem blank_description_classification (description : string) :
  JS.all JS.isWhiteSpace description = true ->
  let r := classifyTransaction description in
  let normalizedDesc := JS.trim (JS.toLowerCase description) in
  let words := RegExp.split (RegExp.Plus RegExp.s) normalizedDesc in
  words = [EmptyString]
  /\ Forall (fun training =>
               fst (scoreEntry normalizedDesc words training)
               == (3 # 10) * inject_Z (Z.of_nat (List.length (t_keywords training))))
       TRAINING_DATA
  /\ Forall (fun cs =>
               snd cs == (3 # 10) * inject_Z (Z.of_nat (keywordCount TRAINING_DATA (fst cs))))
       (fst (scoreAll TRAINING_DATA normalizedDesc words))
  /\ Forall (fun training =>
               (keywordCount TRAINING_DATA (t_category training)
                <= keywordCount TRAINING_DATA "Living Expenses")%nat)
       TRAINING_DATA
  /\ category r = "Living Expenses"%string
  /\ confidence r == 1.
Proof.
  intros Hblank r normalizedDesc words.
  assert (Hn : normalizedDesc = EmptyString) by exact (normalized_blank _ Hblank).
  assert (Hr : r = classifyTransaction EmptyString).
  { unfold r, classifyTransaction, classifyWith. fold normalizedDesc.
    rewrite Hn. reflexivity. }
  unfold words. rewrite Hn, Hr. clear.
  split; [reflexivity |].
  split.
  { apply Forall_forall. intros training Hin.
    apply Qeq_bool_iff. revert training Hin. apply forallb_forall.
    vm_compute. reflexivity. }
  split.
  { apply Forall_forall. intros cs Hin.
    apply Qeq_bool_iff. revert cs Hin. apply forallb_forall.
    vm_compute. reflexivity. }
  split.
  { apply Forall_forall. intros training Hin.
    apply Nat.leb_le. revert training Hin. apply forallb_forall.
    vm_compute. reflexivity. }
  split; vm_compute; reflexivity.
Qed.

Lemma blank_description_classification_witness :
  JS.all JS.isWhiteSpace "   " = true /\
  category (classifyTransaction "   ") = "Living Expenses"%string.
Proof.
  split; [reflexivity |].
  destruct (blank_description_classification "   " eq_refl)
    as (_ & _ & _ & _ & H & _).
  exact H.
Defined.

End ClassifierFacts.

(** ** Strings *)

Section StringFacts.

Lemma trimEnd_empty (s : string) :
  JS.trimEnd s = EmptyString <-> JS.all JS.isWhiteSpace s = true.
Proof.
  induction s as [| c s IH]; simpl.
  - split; reflexivity.
  - destruct (JS.trimEnd s) eqn:E.
    + destruct (JS.isWhiteSpace c); simpl.
      * split; intros _; [apply IH |]; reflexivity.
      * split; discriminate.
    + split; [discriminate |]. intros H.
      apply andb_true_iff in H. destruct H as [_ H].
      apply IH in H. discriminate.
Qed.

Lemma trimStart_all (s : string) :
  JS.all JS.isWhiteSpace (JS.trimStart s) = JS.all JS.isWhiteSpace s.
Proof.
  induction s as [| c s IH]; simpl; [reflexivity |].
  destruct (JS.isWhiteSpace c) eqn:E; simpl; [exact IH |].
  rewrite E. reflexivity.
Qed.

Lemma trim_empty (s : string) :
  JS.trim s = EmptyString <-> JS.all JS.isWhiteSpace s = true.
Proof.
  unfold JS.trim. rewrite trimEnd_empty, trimStart_all. reflexivity.
Qed.

Lemma startsWith_app (s w : string) :
  JS.startsWith s w = true <-> exists rest, s = w ++ rest.
Proof.
  revert s. induction w as [| d w IH]; intros s; simpl.
  - split; [intros _; exists s; reflexivity | reflexivity].
  - destruct s as [| c s].
    + split; [discriminate | intros [rest H]; discriminate].
    + rewrite andb_true_iff, IH, Ascii.eqb_eq. split.
      * intros [-> [rest ->]]. exists rest. reflexivity.
      * intros [rest H]. inversion H; subst. split; [reflexivity |].
        exists rest. reflexivity.
Qed.

(** [includes] is the substring relation *)
Lemma includes_spec (s w : string) :
  JS.includes s w = true <-> exists before after, s = before ++ w ++ after.
Proof.
  induction s as [| c s IH].
  - simpl. rewrite orb_false_r, startsWith_app. split.
    + intros [rest H]. exists EmptyString, rest. exact H.
    + intros [before [after H]]. destruct before; simpl in H.
      * exists after. exact H.
      * discriminate.
  - simpl. rewrite orb_true_iff, startsWith_app, IH. split.
    + intros [[rest H] | [before [after H]]].
      * exists EmptyString, rest. exact H.
      * exists (String c before), after. simpl. rewrite H. reflexivity.
    + intros [before [after H]]. destruct before as [| b before]; simpl in H.
      * left. exists after. exact H.
      * right. inversion H; subst. exists before, after. reflexivity.
Qed.

Lemma length_app (a b : string) :
  String.length (a ++ b) = (String.length a + String.length b)%nat.
Proof.
  induction a as [| c a IH]; simpl; [reflexivity | rewrite IH; reflexivity].
Qed.

Lemma take_app (m rest : string) :
  JS.take (String.length (m ++ rest) - String.length rest) (m ++ rest) = m.
Proof.
  rewrite length_app, Nat.add_sub.
  induction m as [| c m IH]; simpl.
  - destruct rest; reflexivity.
  - rewrite IH. reflexivity.
Qed.

End StringFacts.

(** ** The matcher *)

Section RegExpFacts.

Import RegExp.

Lemma all_app (p : ascii -> bool) (a b : string) :
  JS.all p (a ++ b) = JS.all p a && JS.all p b.
Proof.
  induction a as [| c a IH]; simpl; [reflexivity |].
  rewrite IH, andb_assoc. reflexivity.
Qed.

Lemma app_assoc_string (a b c : string) : (a ++ b) ++ c = a ++ b ++ c.
Proof.
  induction a as [| x a IH]; simpl; [reflexivity | rewrite IH; reflexivity].
Qed.

(** A successful run matched a prefix of the text, and the continuation
    accepted what follows *)
Lemma run_sound (A : Type) (r : regex) :
  forall (s : string) (k : string -> option A) (a : A),
    run r s k = Some a ->
    exists m rest, s = m ++ rest /\ k rest = Some a /\ Matches r m rest.
Proof.
  induction r as [| p | r1 IH1 r2 IH2 | r1 IH1 r2 IH2 | r1 IH1 |];
    intros s k a H.
  - exists EmptyString, s. repeat split; assumption.
  - simpl in H. destruct s as [| c s']; [discriminate |].
    destruct (p c) eqn:P; [| discriminate].
    exists (String c EmptyString), s'. repeat split; try assumption.
    exists c. split; [reflexivity | exact P].
  - simpl in H. apply IH1 in H. destruct H as (m1 & rest1 & E1 & H & M1).
    apply IH2 in H. destruct H as (m2 & rest & E2 & H & M2).
    exists (m1 ++ m2), rest. subst s rest1. rewrite app_assoc_string.
    split; [reflexivity |]. split; [exact H |].
    exists m1, m2. repeat split; assumption.
  - simpl in H. destruct (run r1 s k) as [a' |] eqn:R1.
    + inversion H; subst a'. apply IH1 in R1.
      destruct R1 as (m & rest & E & Hk & M). exists m, rest.
      repeat split; try assumption. left. exact M.
    + apply IH2 in H. destruct H as (m & rest & E & Hk & M). exists m, rest.
      repeat split; try assumption. right. exact M.
  - cbn [run] in H.
    match type of H with
    | ?f (String.length _) _ = _ => set (F := f) in H
    end.
    assert (G : forall n s0, F n s0 = Some a ->
                exists m rest, s0 = m ++ rest /\ k rest = Some a
                               /\ Iter (Matches r1) m rest).
    { clear H. induction n as [| n IHn]; intros s0 H0.
      - change (F O s0) with (k s0) in H0.
        exists EmptyString, s0. repeat split; try assumption. constructor.
      - change (F (S n) s0) with
          (match run r1 s0 (fun s' =>
                   if Nat.ltb (String.length s') (String.length s0)
                   then F n s' else None) with
           | Some a => Some a
           | None => k s0
           end) in H0.
        destruct (run r1 s0 _) as [a' |] eqn:R1.
        + inversion H0; subst a'. apply IH1 in R1.
          destruct R1 as (m1 & rest1 & E1 & Hk & M1).
          destruct (Nat.ltb (String.length rest1) (String.length s0));
            [| discriminate].
          apply IHn in Hk. destruct Hk as (m2 & rest & E2 & Hk & M2).
          exists (m1 ++ m2), rest. subst s0 rest1. rewrite app_assoc_string.
          split; [reflexivity |]. split; [exact Hk |].
          constructor; assumption.
        + exists EmptyString, s0. repeat split; try assumption. constructor. }
    exact (G _ _ H).
  - simpl in H. destruct s; [| discriminate].
    exists EmptyString, EmptyString. repeat split; assumption.
Qed.

Lemma exec_sound (r : regex) (s m rest : string) :
  exec r s = Some (m, rest) -> s = m ++ rest /\ Matches r m rest.
Proof.
  unfold exec. intros H.
  destruct (run r s (fun rest => Some rest)) as [rest' |] eqn:R; [| discriminate].
  apply run_sound in R. destruct R as (m' & rest'' & E & Hk & M).
  inversion Hk; subst rest''. inversion H; subst rest'.
  subst s. rewrite take_app. split; [reflexivity | exact M].
Qed.

Lemma search_sound (r : regex) (s b m a : string) :
  search r s = Some (b, m, a) -> s = b ++ m ++ a /\ Matches r m a.
Proof.
  revert b. induction s as [| c s IH]; intros b H; simpl in H.
  - destruct (exec r EmptyString) as [[m' rest] |] eqn:E; [| discriminate].
    inversion H; subst. apply exec_sound in E. exact E.
  - destruct (exec r (String c s)) as [[m' rest] |] eqn:E.
    + inversion H; subst. apply exec_sound in E. exact E.
    + destruct (search r s) as [[[b' m'] a'] |]; [| discriminate].
      inversion H; subst. destruct (IH b' eq_refl) as [Es M].
      split; [simpl; rewrite <- Es; reflexivity | exact M].
Qed.

Lemma matchAllFrom_sound (r : regex) (fuel : nat) :
  forall s, Forall (fun m => exists rest, Matches r m rest)
              (matchAllFrom fuel r s).
Proof.
  induction fuel as [| fuel IH]; intros s; simpl; [constructor |].
  destruct (search r s) as [[[b m] a] |] eqn:E; [| constructor].
  apply search_sound in E. destruct E as [_ M].
  destruct m as [| c m]; [destruct a |]; constructor;
    try (exists EmptyString; exact M); try (eexists; exact M);
    try apply IH. constructor.
Qed.

Lemma Iter_Cls (p : ascii -> bool) (m rest : string) :
  Iter (Matches (Cls p)) m rest -> JS.all p m = true.
Proof.
  induction 1 as [| m1 m2 rest [c [-> Hc]] _ IH]; [reflexivity |].
  simpl. rewrite Hc, IH. reflexivity.
Qed.

(** The leftmost character of a class *)
Lemma search_Cls (p : ascii -> bool) (c : ascii) (s : string) :
  search (Cls p) (String c s) =
  if p c then Some (EmptyString, String c EmptyString, s)
  else match search (Cls p) s with
       | Some (b, m, a) => Some (String c b, m, a)
       | None => None
       end.
Proof.
  cbn [search]. unfold exec at 1. cbn [run].
  destruct (p c); [| reflexivity].
  assert (E : (String.length (String c s) - String.length s = 1)%nat)
    by (simpl String.length; lia).
  rewrite E. reflexivity.
Qed.

(** Replacing every character of a class by nothing removes them all *)
Lemma replaceAllFrom_Cls (p : ascii -> bool) (fuel : nat) :
  forall s, (String.length s < fuel)%nat ->
            replaceAllFrom fuel (Cls p) EmptyString s = JS.reject p s.
Proof.
  induction fuel as [| fuel IH]; intros s Hlen; [lia |].
  induction s as [| c s IHs].
  - reflexivity.
  - cbn [replaceAllFrom]. rewrite search_Cls. simpl in Hlen.
    destruct (p c) eqn:P.
    + cbn [JS.reject]. rewrite P. simpl. apply IH. lia.
    + cbn [JS.reject]. rewrite P.
      assert (Hs : (String.length s < S fuel)%nat) by lia.
      specialize (IHs Hs). cbn [replaceAllFrom] in IHs.
      destruct (search (Cls p) s) as [[[b m] a] |] eqn:E.
      * destruct m as [| c' m']; [destruct a |]; simpl in *;
          f_equal; exact IHs.
      * f_equal. exact IHs.
Qed.

Lemma replaceAll_Cls (p : ascii -> bool) (s : string) :
  replaceAll (Cls p) EmptyString s = JS.reject p s.
Proof. apply replaceAllFrom_Cls. lia. Qed.

Lemma any_app (p : ascii -> bool) (a b : string) :
  JS.any p (a ++ b) = JS.any p a || JS.any p b.
Proof.
  induction a as [| c a IH]; simpl; [reflexivity |].
  rewrite IH, orb_assoc. reflexivity.
Qed.

Lemma any_none (p q : ascii -> bool) (m : string) :
  (forall x, p x = true -> q x = false) ->
  JS.all q m = true -> JS.any p m = false.
Proof.
  intros Hpq. induction m as [| c m IH]; simpl; [reflexivity |].
  intros H. apply andb_true_iff in H. destruct H as [Hc Hm].
  rewrite (IH Hm), orb_false_r.
  destruct (p c) eqn:P; [| reflexivity].
  rewrite (Hpq c P) in Hc. discriminate.
Qed.

Lemma Plus_Cls (p : ascii -> bool) (m rest : string) :
  Matches (Plus (Cls p)) m rest -> JS.all p m = true.
Proof.
  cbn [Plus Matches].
  intros (m1 & m2 & -> & (c & -> & Hc) & Hstar).
  apply Iter_Cls in Hstar. simpl. rewrite Hc, Hstar. reflexivity.
Qed.

(** Replacing the runs of a class keeps every character outside the class *)
Lemma replaceAllFrom_keeps (p q : ascii -> bool) (w : string) (fuel : nat) :
  (forall x, p x = true -> q x = false) ->
  forall s, JS.any p s = true ->
            JS.any p (replaceAllFrom fuel (Plus (Cls q)) w s) = true.
Proof.
  intros Hpq. induction fuel as [| fuel IH]; intros s Hs; [exact Hs |].
  cbn [replaceAllFrom].
  destruct (search (Plus (Cls q)) s) as [[[b m] a] |] eqn:E; [| exact Hs].
  apply search_sound in E. destruct E as [-> M].
  apply Plus_Cls in M. apply (any_none p q m Hpq) in M.
  rewrite !any_app, M, orb_false_l in Hs.
  apply orb_true_iff in Hs.
  destruct m as [| c m]; [destruct a as [| c' a'] |];
    rewrite !any_app.
  - destruct Hs as [Hb | Ha]; [rewrite Hb; reflexivity | discriminate].
  - destruct Hs as [Hb | Ha]; [rewrite Hb; reflexivity |].
    simpl in Ha. apply orb_true_iff in Ha. simpl.
    destruct Ha as [Hc | Ha']; [rewrite Hc | rewrite (IH a' Ha')];
      rewrite ?orb_true_r; reflexivity.
  - destruct Hs as [Hb | Ha]; [rewrite Hb; reflexivity |].
    rewrite (IH a Ha), !orb_true_r. reflexivity.
Qed.

(** *** The fuel of the matcher is enough *)

Lemma run_ext (A : Type) (r : regex) :
  forall (s : string) (k1 k2 : string -> option A),
    (forall x, k1 x = k2 x) -> run r s k1 = run r s k2.
Proof.
  induction r as [| p | r1 IH1 r2 IH2 | r1 IH1 r2 IH2 | r1 IH1 |];
    intros s k1 k2 H.
  - apply H.
  - simpl. destruct s as [| c s']; [reflexivity |].
    destruct (p c); [apply H | reflexivity].
  - simpl. apply IH1. intros x. apply IH2. exact H.
  - simpl. rewrite (IH1 s k1 k2 H), (IH2 s k1 k2 H). reflexivity.
  - cbn [run].
    match goal with
    | |- ?f1 _ _ = ?f2 _ _ => set (F1 := f1); set (F2 := f2)
    end.
    assert (G : forall n s0, F1 n s0 = F2 n s0).
    { induction n as [| n IHn]; intros s0.
      - change (F1 O s0) with (k1 s0). change (F2 O s0) with (k2 s0). apply H.
      - change (F1 (S n) s0) with
          (match run r1 s0 (fun s' =>
                   if Nat.ltb (String.length s') (String.length s0)
                   then F1 n s' else None) with
           | Some a => Some a
           | None => k1 s0
           end).
        change (F2 (S n) s0) with
          (match run r1 s0 (fun s' =>
                   if Nat.ltb (String.length s') (String.length s0)
                   then F2 n s' else None) with
           | Some a => Some a
           | None => k2 s0
           end).
        rewrite (IH1 s0 _ (fun s' =>
                   if Nat.ltb (String.length s') (String.length s0)
                   then F2 n s' else None)).
        + rewrite H. reflexivity.
        + intros x. destruct (Nat.ltb (String.length x) (String.length s0));
            [apply IHn | reflexivity]. }
    apply G.
  - simpl. destruct s; [apply H | reflexivity].
Qed.

Lemma run_none (A : Type) (r : regex) (s : string) (k : string -> option A) :
  (forall x, k x = None) -> run r s k = None.
Proof.
  intros H. destruct (run r s k) as [a |] eqn:E; [| reflexivity].
  apply run_sound in E. destruct E as (m & rest & _ & Hk & _).
  rewrite H in Hk. discriminate.
Qed.

(** The loop of a star, with its fuel as a parameter *)
Lemma star_fuel (A : Type) (r1 : regex) (k : string -> option A) :
  forall n1 n2 s,
    (String.length s <= n1)%nat -> (String.length s <= n2)%nat ->
    (fix star (n : nat) (s : string) {struct n} : option A :=
       match n with
       | O => k s
       | S n' =>
           match run r1 s (fun s' =>
                   if Nat.ltb (String.length s') (String.length s)
                   then star n' s' else None) with
           | Some a => Some a
           | None => k s
           end
       end) n1 s
    = (fix star (n : nat) (s : string) {struct n} : option A :=
       match n with
       | O => k s
       | S n' =>
           match run r1 s (fun s' =>
                   if Nat.ltb (String.length s') (String.length s)
                   then star n' s' else None) with
           | Some a => Some a
           | None => k s
           end
       end) n2 s.
Proof.
  set (F := fix star (n : nat) (s : string) {struct n} : option A :=
       match n with
       | O => k s
       | S n' =>
           match run r1 s (fun s' =>
                   if Nat.ltb (String.length s') (String.length s)
                   then star n' s' else None) with
           | Some a => Some a
           | None => k s
           end
       end).
  assert (Hempty : forall n, F n EmptyString = k EmptyString).
  { intros [| n]; [reflexivity |].
    change (F (S n) EmptyString) with
      (match run r1 EmptyString (fun s' =>
               if Nat.ltb (String.length s') (String.length EmptyString)
               then F n s' else None) with
       | Some a => Some a
       | None => k EmptyString
       end).
    rewrite run_none; [reflexivity |]. intros x. reflexivity. }
  induction n1 as [| n1 IH]; intros n2 s H1 H2.
  - destruct s; [| simpl in H1; lia]. rewrite !Hempty. reflexivity.
  - destruct s as [| c s]; [rewrite !Hempty; reflexivity |].
    destruct n2 as [| n2]; [simpl in H2; lia |].
    change (F (S n1) (String c s)) with
      (match run r1 (String c s) (fun s' =>
               if Nat.ltb (String.length s') (String.length (String c s))
               then F n1 s' else None) with
       | Some a => Some a
       | None => k (String c s)
       end).
    change (F (S n2) (String c s)) with
      (match run r1 (String c s) (fun s' =>
               if Nat.ltb (String.length s') (String.length (String c s))
               then F n2 s' else None) with
       | Some a => Some a
       | None => k (String c s)
       end).
    rewrite (run_ext A r1 (String c s) _
               (fun s' =>
                  if Nat.ltb (String.length s') (String.length (String c s))
                  then F n2 s' else None)); [reflexivity |].
    intros x.
    destruct (Nat.ltb (String.length x) (String.length (String c s))) eqn:L;
      [| reflexivity].
    apply Nat.ltb_lt in L. simpl in L, H1, H2. apply IH; lia.
Qed.

(** The equation of the greedy star: one more iteration that consumes
    something, then the star again; failing that, what follows *)
Lemma run_Star (A : Type) (r1 : regex) (s : string) (k : string -> option A) :
  run (Star r1) s k =
  match run r1 s (fun s' =>
          if Nat.ltb (String.length s') (String.length s)
          then run (Star r1) s' k else None) with
  | Some a => Some a
  | None => k s
  end.
Proof.
  destruct s as [| c s].
  - transitivity (k EmptyString); [reflexivity |]. symmetry.
    rewrite run_none; [reflexivity |]. intros x. reflexivity.
  - cbn [run String.length].
    rewrite (run_ext A r1 (String c s) _
               (fun s' =>
                  if Nat.ltb (String.length s') (S (String.length s))
                  then run (Star r1) s' k else None)); [reflexivity |].
    intros x. destruct (Nat.ltb (String.length x) (S (String.length s))) eqn:L;
      [| reflexivity].
    apply Nat.ltb_lt in L. cbn [run].
    apply star_fuel; lia.
Qed.

Lemma search_length (r : regex) (s b m a : string) :
  search r s = Some (b, m, a) ->
  String.length s = (String.length b + String.length m + String.length a)%nat.
Proof.
  intros H. apply search_sound in H. destruct H as [-> _].
  rewrite !length_app. lia.
Qed.

(** The loops over the matches: any fuel above the length of the text gives
    the same answer *)
Lemma matchAllFrom_fuel (r : regex) :
  forall f1 f2 s,
    (String.length s < f1)%nat -> (String.length s < f2)%nat ->
    matchAllFrom f1 r s = matchAllFrom f2 r s.
Proof.
  induction f1 as [| f1 IH]; intros f2 s H1 H2; [lia |].
  destruct f2 as [| f2]; [lia |]. cbn [matchAllFrom].
  destruct (search r s) as [[[b m] a] |] eqn:E; [| reflexivity].
  apply search_length in E.
  destruct m as [| c m]; [destruct a as [| c' a'] |];
    try reflexivity; f_equal; apply IH; simpl in *; lia.
Qed.

Lemma replaceAllFrom_fuel (r : regex) (w : string) :
  forall f1 f2 s,
    (String.length s < f1)%nat -> (String.length s < f2)%nat ->
    replaceAllFrom f1 r w s = replaceAllFrom f2 r w s.
Proof.
  induction f1 as [| f1 IH]; intros f2 s H1 H2; [lia |].
  destruct f2 as [| f2]; [lia |]. cbn [replaceAllFrom].
  destruct (search r s) as [[[b m] a] |] eqn:E; [| reflexivity].
  apply search_length in E.
  destruct m as [| c m]; [destruct a as [| c' a'] |].
  - reflexivity.
  - rewrite (IH f2 a') by (simpl in *; lia). reflexivity.
  - rewrite (IH f2 a) by (simpl in *; lia). reflexivity.
Qed.

Lemma splitFrom_fuel (r : regex) :
  forall f1 f2 piece s,
    (2 * String.length s + (match piece with EmptyString => 0 | _ => 1 end) < f1)%nat ->
    (2 * String.length s + (match piece with EmptyString => 0 | _ => 1 end) < f2)%nat ->
    splitFrom f1 r piece s = splitFrom f2 r piece s.
Proof.
  induction f1 as [| f1 IH]; intros f2 piece s H1 H2; [lia |].
  destruct f2 as [| f2]; [lia |]. cbn [splitFrom].
  destruct s as [| c s']; [reflexivity |].
  destruct (exec r (String c s')) as [[m a] |] eqn:E.
  - apply exec_sound in E. destruct E as [E _].
    apply (f_equal String.length) in E. rewrite length_app in E.
    destruct m as [| c0 m].
    + destruct piece as [| p0 piece].
      * apply IH; simpl in *; lia.
      * f_equal. apply IH; simpl in *; lia.
    + f_equal. apply IH; simpl in *; lia.
  - apply IH; simpl in *; destruct piece; simpl; lia.
Qed.

End RegExpFacts.

(** ** The line parser and the description normaliser *)

Section LineParserFacts.

Import TransactionProcessor.

(** *** The sign of an amount *)

Lemma digitsValueFrom_nonneg (s : string) (acc : Z) :
  (0 <= acc)%Z -> (0 <= digitsValueFrom acc s)%Z.
Proof.
  revert acc. induction s as [| c s IH]; intros acc H;
    cbn [digitsValueFrom]; [exact H |].
  apply IH. unfold digitValue. lia.
Qed.

Lemma digitsValue_nonneg (s : string) : (0 <= digitsValue s)%Z.
Proof. apply digitsValueFrom_nonneg. lia. Qed.

Lemma scale10_nonneg (m : Q) (e : Z) : 0 <= m -> 0 <= scale10 m e.
Proof.
  intros H. destruct e as [| p | p]; unfold scale10; [exact H | |].
  - apply Qmult_le_0_compat; [exact H |].
    change 0 with (inject_Z 0). rewrite <- Zle_Qle. apply Z.pow_nonneg. lia.
  - apply Qmult_le_0_compat; [exact H |].
    apply Qinv_le_0_compat.
    change 0 with (inject_Z 0). rewrite <- Zle_Qle. apply Z.pow_nonneg. lia.
Qed.

Lemma readDecimal_nonneg (u rest : string) (q : Q) :
  readDecimal u = Some (q, rest) -> 0 <= q.
Proof.
  unfold readDecimal.
  destruct (readDigits u) as [ints r0].
  destruct (match r0 with
            | EmptyString => (EmptyString, r0)
            | String c r => if Ascii.eqb c "." then readDigits r
                            else (EmptyString, r0)
            end) as [fracs r1].
  set (mant := match fracs with
               | EmptyString => inject_Z (digitsValue ints)
               | String _ _ =>
                   Qmake (digitsValue (ints ++ fracs)) (pow10 (String.length fracs))
               end).
  assert (Hm : 0 <= mant).
  { unfold mant. destruct fracs.
    - change 0 with (inject_Z 0). rewrite <- Zle_Qle. apply digitsValue_nonneg.
    - unfold Qle. simpl. pose proof (digitsValue_nonneg (ints ++ String a fracs)).
      lia. }
  clearbody mant.
  set (after := if match r0 with
                   | EmptyString => false
                   | String c _ => Ascii.eqb c "."
                   end then r1 else r0).
  clearbody after.
  assert (G : match readExponent after with
              | Some (e, rest0) => Some (scale10 mant e, rest0)
              | None => Some (mant, after)
              end = Some (q, rest) -> 0 <= q).
  { destruct (readExponent after) as [[e rest0] |]; intros H;
      inversion H; subst; [apply scale10_nonneg |]; exact Hm. }
  destruct ints; destruct fracs; try exact G. discriminate.
Qed.

Lemma readDigits_app (x rest : string) :
  JS.all JS.isDigit x = true ->
  match rest with
  | EmptyString => True
  | String c _ => JS.isDigit c = false
  end ->
  readDigits (x ++ rest) = (x, rest).
Proof.
  intros Hx Hrest. induction x as [| c x IH]; cbn [append readDigits].
  - destruct rest as [| c r]; [reflexivity |].
    cbn [readDigits]. rewrite Hrest. reflexivity.
  - cbn [JS.all] in Hx. apply andb_true_iff in Hx. destruct Hx as [Hc Hx].
    rewrite Hc, (IH Hx). reflexivity.
Qed.

Lemma digit_char (c : ascii) :
  JS.isDigit c = true ->
  JS.isWhiteSpace c = false /\ Ascii.eqb c "-" = false
  /\ Ascii.eqb c "+" = false /\ Ascii.eqb c "I" = false
  /\ Ascii.eqb c "," = false.
Proof.
  destruct c as [[] [] [] [] [] [] [] []]; vm_compute; intros H;
    try discriminate; repeat split.
Qed.

(** Digits, a point and two digits read as that many cents *)
Lemma readDecimal_cents (x : string) (d1 d2 : ascii) :
  JS.all JS.isDigit x = true -> JS.isDigit d1 = true -> JS.isDigit d2 = true ->
  readDecimal (x ++ String "." (String d1 (String d2 EmptyString)))
  = Some (digitsValue (x ++ String d1 (String d2 EmptyString)) # 100,
          EmptyString).
Proof.
  intros Hx H1 H2. unfold readDecimal.
  rewrite (readDigits_app x _ Hx) by reflexivity.
  cbn [Ascii.eqb Bool.eqb readDigits]. rewrite H1, H2.
  cbn [readExponent].
  destruct x; reflexivity.
Qed.

Lemma parseFloat_cents (x : string) (d1 d2 : ascii) :
  JS.all JS.isDigit x = true -> JS.isDigit d1 = true -> JS.isDigit d2 = true ->
  parseFloat (x ++ String "." (String d1 (String d2 EmptyString)))
  = fl (digitsValue (x ++ String d1 (String d2 EmptyString)) # 100).
Proof.
  intros Hx H1 H2. unfold parseFloat.
  pose proof (readDecimal_cents x d1 d2 Hx H1 H2) as R.
  destruct x as [| c x].
  - simpl append in *. cbn [JS.trimStart]. 
    change (JS.isWhiteSpace ".") with false. cbv iota.
    change (Ascii.eqb "." "-") with false.
    change (Ascii.eqb "." "+") with false. cbv iota.
    change (JS.startsWith (String "." (String d1 (String d2 EmptyString))) "Infinity")
      with false. cbv iota.
    rewrite R. reflexivity.
  - simpl in Hx. apply andb_true_iff in Hx. destruct Hx as [Hc _].
    destruct (digit_char c Hc) as (Hw & Hm & Hp & Hi & _).
    simpl append in *. cbn [JS.trimStart]. rewrite Hw, Hm, Hp.
    cbn [JS.startsWith]. rewrite Hi. cbn [andb]. cbv iota.
    rewrite R. reflexivity.
Qed.

Lemma reject_app (p : ascii -> bool) (a b : string) :
  JS.reject p (a ++ b) = JS.reject p a ++ JS.reject p b.
Proof.
  induction a as [| c a IH]; simpl; [reflexivity |].
  rewrite IH. destruct (p c); reflexivity.
Qed.

Lemma reject_commas_digits (run : string) :
  JS.all (fun c => JS.isDigit c || JS.isChar "," c) run = true ->
  JS.all JS.isDigit (JS.reject (JS.isChar ",") run) = true.
Proof.
  induction run as [| c run IH]; simpl; [reflexivity |].
  intros H. apply andb_true_iff in H. destruct H as [Hc Hr].
  destruct (JS.isChar "," c) eqn:E; [exact (IH Hr) |].
  rewrite orb_false_r in Hc. simpl. rewrite Hc. exact (IH Hr).
Qed.

(** What [[\d,]+\.\d{2}] matches: digits and commas, a point, two digits *)
Lemma amountToken_shape (m rest : string) :
  RegExp.Matches amountToken m rest ->
  exists run d1 d2,
    m = run ++ String "." (String d1 (String d2 EmptyString))
    /\ JS.all (fun c => JS.isDigit c || JS.isChar "," c) run = true
    /\ JS.isDigit d1 = true /\ JS.isDigit d2 = true.
Proof.
  unfold amountToken. cbn [Seq RegExp.Plus RegExp.Lit RegExp.Rep RegExp.Matches].
  intros (m1 & m2 & -> & (m11 & m12 & -> & (c & -> & Hc) & Hstar)
          & (m21 & m22 & -> & (p & -> & Hp)
             & (m221 & m222 & -> & (d1 & -> & H1) & (d2 & -> & H2)))).
  apply Iter_Cls in Hstar.
  unfold JS.isChar in Hp. apply Ascii.eqb_eq in Hp. subst p.
  exists (String c m12), d1, d2. repeat split; try assumption.
  simpl. rewrite Hc, Hstar. reflexivity.
Qed.

(** The value of an amount token: so many cents *)
Lemma amount_token_value (m rest : string) :
  RegExp.Matches amountToken m rest ->
  exists cents : Z,
    (0 <= cents)%Z
    /\ parseFloat (RegExp.replaceAll (RegExp.Lit ",") "" m) = fl (cents # 100).
Proof.
  intros H. destruct (amountToken_shape m rest H) as (run & d1 & d2 & -> & Hr & H1 & H2).
  change (RegExp.Lit ",") with (RegExp.Cls (JS.isChar ",")).
  rewrite replaceAll_Cls, reject_app.
  assert (E : JS.reject (JS.isChar ",") (String "." (String d1 (String d2 EmptyString)))
              = String "." (String d1 (String d2 EmptyString))).
  { destruct (digit_char d1 H1) as (_ & _ & _ & _ & C1).
    destruct (digit_char d2 H2) as (_ & _ & _ & _ & C2).
    cbn [JS.reject]. unfold JS.isChar. rewrite C1, C2. reflexivity. }
  rewrite E.
  rewrite (parseFloat_cents _ d1 d2 (reject_commas_digits run Hr) H1 H2).
  eexists. split; [apply digitsValue_nonneg | reflexivity].
Qed.

Lemma last_In {A : Type} (l : list A) (x d : A) : In (List.last (x :: l) d) (x :: l).
Proof.
  revert x. induction l as [| y l IH]; intros x.
  - left. reflexivity.
  - right. exact (IH y).
Qed.

Lemma last_amount_token (cleanLine : string) :
  RegExp.matchAll amountToken cleanLine <> [] ->
  exists rest,
    RegExp.Matches amountToken
      (List.last (RegExp.matchAll amountToken cleanLine) EmptyString) rest.
Proof.
  intros Hne.
  pose proof (matchAllFrom_sound amountToken
                (S (String.length cleanLine)) cleanLine) as Hall.
  fold (RegExp.matchAll amountToken cleanLine) in Hall.
  destruct (RegExp.matchAll amountToken cleanLine) as [| m0 ms];
    [contradiction |].
  rewrite Forall_forall in Hall. apply Hall. apply last_In.
Qed.

Lemma hasDebitWord_spec (cleanLine : string) :
  hasDebitWord cleanLine = true
  <-> exists w before after,
        In w ["Withdrawal"; "Debit"; "Purchase"; "Payment"]%string
        /\ cleanLine = before ++ w ++ after.
Proof.
  unfold hasDebitWord. rewrite !orb_true_iff, !includes_spec. split.
  - intros [[[H | H] | H] | H]; destruct H as (b & a & E);
      eexists; exists b, a; (split; [| exact E]); simpl; tauto.
  - intros (w & b & a & Hin & E). simpl in Hin.
    destruct Hin as [<- | [<- | [<- | [<- | []]]]];
      [left; left; left | left; left; right | left; right | right];
      exists b, a; exact E.
Qed.

(** The amount read on a line that carries an amount token *)
Lemma extracted_amount_value (line : string) :
  RegExp.matchAll amountToken (cleanLineOf line) <> [] ->
  exists cents : Z,
    (0 <= cents)%Z
    /\ parseFloat
         (RegExp.replaceAll (RegExp.Lit ",") ""
            (List.last (RegExp.matchAll amountToken (cleanLineOf line)) EmptyString))
       = fl (cents # 100)
    /\ snd (extractDescriptionAndAmount line)
       = (if hasDebitWord (cleanLineOf line)
          then neg (fl (cents # 100)) else fl (cents # 100)).
Proof.
  intros Hne.
  destruct (last_amount_token _ Hne) as [rest HM].
  destruct (amount_token_value _ _ HM) as (cents & Hc & Hv).
  exists cents. split; [exact Hc |]. split; [exact Hv |].
  unfold extractDescriptionAndAmount.
  destruct (RegExp.matchAll amountToken (cleanLineOf line)) as [| m0 ms] eqn:M;
    [contradiction |].
  cbv zeta. cbn [snd]. rewrite Hv.
  destruct (hasDebitWord (cleanLineOf line)); reflexivity.
Qed.

(** C3: when a line carries an amount token, the amount read is the value of
    the last token, a whole number of cents as a binary64 number (the
    positive infinity when the token is beyond the largest one); it is
    negated exactly when the line, without its leading date and trimmed,
    contains Withdrawal, Debit, Purchase or Payment in this very spelling,
    and left as it is otherwise. *)
Theorem sign_policy (line : string) :
  RegExp.matchAll amountToken (cleanLineOf line) <> [] ->
  exists cents : Z,
    (0 <= cents)%Z
    /\ parseFloat
         (RegExp.replaceAll (RegExp.Lit ",") ""
            (List.last (RegExp.matchAll amountToken (cleanLineOf line)) EmptyString))
       = fl (cents # 100)
    /\ snd (extractDescriptionAndAmount line)
       = (if hasDebitWord (cleanLineOf line)
          then neg (fl (cents # 100)) else fl (cents # 100))
    /\ (hasDebitWord (cleanLineOf line) = true
        <-> exists w before after,
              In w ["Withdrawal"; "Debit"; "Purchase"; "Payment"]%string
              /\ cleanLineOf line = before ++ w ++ after).
Proof.
  intros Hne.
  destruct (extracted_amount_value line Hne) as (cents & Hc & Hv & Ha).
  exists cents. repeat split; try assumption; apply hasDebitWord_spec.
Qed.

Lemma sign_policy_witness :
  snd (extractDescriptionAndAmount "14 Jul Visa Debit purchase - 1234 STORE 1,254.18")
  = neg (fl (125418 # 100)).
Proof.
  destruct (sign_policy "14 Jul Visa Debit purchase - 1234 STORE 1,254.18")
    as (cents & _ & Hv & Ha & _).
  - vm_compute. discriminate.
  - rewrite Ha, <- Hv. vm_compute. reflexivity.
Defined.

(** An amount other than 0 read on a line is negative when the line, without
    its leading date, has one of the four words, and positive when it has
    none *)
Lemma extracted_amount_sign (line : string) :
  let amount := snd (extractDescriptionAndAmount line) in
  isNotZero amount = true ->
  if hasDebitWord (cleanLineOf line)
  then ltZero amount = true
  else gtZero amount = true.
Proof.
  cbv zeta.
  destruct (RegExp.matchAll amountToken (cleanLineOf line)) as [| m0 ms] eqn:M.
  - unfold extractDescriptionAndAmount. rewrite M. cbn [snd]. discriminate.
  - destruct (extracted_amount_value line) as (cents & Hc & _ & Ha).
    + rewrite M. discriminate.
    + rewrite Ha.
      assert (P : 0 <= cents # 100) by (unfold Qle; simpl; lia).
      destruct (fl_nonneg _ P) as [-> | [-> Py]];
        [destruct (hasDebitWord (cleanLineOf line)); reflexivity |].
      set (y := flQ (cents # 100)) in *. clearbody y.
      destruct (hasDebitWord (cleanLineOf line));
        cbn [neg isNotZero ltZero gtZero]; intros Hnz;
        apply negb_true_iff in Hnz.
      * destruct (- y ?= 0) eqn:E; try reflexivity.
        -- apply Qeq_alt in E. apply Qeq_bool_iff in E. congruence.
        -- apply Qgt_alt in E. lra.
      * destruct (0 ?= y) eqn:E; try reflexivity.
        -- apply Qeq_alt in E. symmetry in E. apply Qeq_bool_iff in E. congruence.
        -- apply Qgt_alt in E. lra.
Qed.

Lemma keeper_not_space (c : ascii) : keeper c = true -> JS.isWhiteSpace c = false.
Proof.
  unfold keeper. intros H. apply andb_true_iff in H. destruct H as [H _].
  apply negb_true_iff in H. exact H.
Qed.

Lemma keeper_not_digit (c : ascii) : keeper c = true -> JS.isDigit c = false.
Proof.
  unfold keeper. intros H. apply andb_true_iff in H. destruct H as [_ H].
  apply negb_true_iff in H. exact H.
Qed.

(** Removing four digits at the end keeps every character that is not a
    digit *)
Lemma removeDigits_keeps (s : string) :
  JS.any keeper s = true ->
  JS.any keeper (RegExp.removeMatch (RegExp.Cat (RegExp.Rep 4 RegExp.d) RegExp.Eol) s)
  = true.
Proof.
  intros Hs. unfold RegExp.removeMatch.
  destruct (RegExp.search _ s) as [[[b m] a] |] eqn:E; [| exact Hs].
  apply search_sound in E. destruct E as [-> M].
  cbn [RegExp.Rep RegExp.Matches RegExp.d] in M.
  destruct M as (m1 & m2 & -> & M1 & -> & ->).
  destruct M1 as (x1 & y1 & -> & (c1 & -> & H1)
                  & (x2 & y2 & -> & (c2 & -> & H2)
                     & (x3 & y3 & -> & (c3 & -> & H3) & (c4 & -> & H4)))).
  rewrite !any_app in Hs. simpl in Hs.
  assert (K : forall c, JS.isDigit c = true -> keeper c = false).
  { intros c Hc. destruct (keeper c) eqn:Kc; [| reflexivity].
    apply keeper_not_digit in Kc. congruence. }
  rewrite (K c1 H1), (K c2 H2), (K c3 H3), (K c4 H4) in Hs.
  simpl in Hs. rewrite !orb_false_r in Hs.
  rewrite any_app, Hs. reflexivity.
Qed.

Lemma any_not_all (p q : ascii -> bool) (s : string) :
  (forall x, p x = true -> q x = false) ->
  JS.any p s = true -> JS.all q s = true -> False.
Proof.
  intros Hpq Hs Hall. rewrite (any_none p q s Hpq Hall) in Hs. discriminate.
Qed.

(** C5: the description normaliser has no fallback to the original text: it
    returns the empty string exactly when the three replacements leave
    nothing but white space, and a non-empty trimmed remainder otherwise.
    The remainder is not empty, in particular, when no listed prefix starts
    the collapsed text and the description has a character that is neither
    white space nor a digit. *)
Theorem cleanDescription_empty_iff (description : string) :
  (cleanDescription description = EmptyString
   <-> JS.all JS.isWhiteSpace (stripDescription description) = true)
  /\ (RegExp.testAtStart descriptionPrefix (collapseSpaces description) = false ->
      JS.any keeper description = true ->
      cleanDescription description <> EmptyString).
Proof.
  split.
  - unfold cleanDescription. apply trim_empty.
  - intros Hprefix Hkeep Hempty.
    unfold cleanDescription in Hempty. apply trim_empty in Hempty.
    apply (any_not_all keeper JS.isWhiteSpace (stripDescription description)
             keeper_not_space); [| exact Hempty].
    unfold stripDescription. apply removeDigits_keeps.
    unfold RegExp.removeAtStart. unfold RegExp.testAtStart in Hprefix.
    destruct (RegExp.exec descriptionPrefix (collapseSpaces description));
      [discriminate |].
    unfold collapseSpaces, RegExp.replaceAll.
    apply replaceAllFrom_keeps; [exact keeper_not_space | exact Hkeep].
Qed.

(** C5, as stated, fails on a reference number alone: the description
    [1234] is not empty, and its clean form is, where the claim asks for the
    trimmed original. *)
Lemma cleanDescription_can_be_empty :
  "1234"%string <> EmptyString /\
  JS.trim "1234" = "1234"%string /\
  cleanDescription "1234" = EmptyString /\
  cleanDescription "1234" <> JS.trim "1234".
Proof.
  repeat split; try discriminate; vm_compute; try reflexivity; discriminate.
Qed.

(** C2: in 2025 the sample line gives exactly one record; it is dated
    2025-01-14, the date pattern matching [14 PRE] inside the line; its
    description is the line without the amount, which contains TOYOTA
    FINANCE, and its amount is 254.18, positive: the line has none of the
    four words in their exact spelling. *)
Theorem toyota_line_record :
  exists t,
    parseTransactionText 2025 "Jul 14 PREAUTHORIZED DEBIT TOYOTA FINANCE 254.18"
    = [t]
    /\ date t = "2025-01-14"%string
    /\ description t = "Jul 14 PREAUTHORIZED DEBIT TOYOTA FINANCE"%string
    /\ JS.includes (description t) "TOYOTA FINANCE" = true
    /\ amount t = fl (25418 # 100)
    /\ hasDebitWord
         (cleanLineOf "Jul 14 PREAUTHORIZED DEBIT TOYOTA FINANCE 254.18") = false.
Proof.
  eexists. split; [vm_compute; reflexivity |].
  repeat split; vm_compute; reflexivity.
Qed.

(** C2, as stated, fails: the one record of the sample line is dated
    2025-01-14, not 2025-07-14, and its amount is 254.18, not -254.18. *)
Lemma toyota_line_parsed :
  parseTransactionText 2025 "Jul 14 PREAUTHORIZED DEBIT TOYOTA FINANCE 254.18"
  = [mkRaw "2025-01-14" "Jul 14 PREAUTHORIZED DEBIT TOYOTA FINANCE"
       (fl (25418 # 100))]
  /\ "2025-01-14"%string <> "2025-07-14"%string
  /\ gtZero (fl (25418 # 100)) = true
  /\ fl (25418 # 100) <> neg (fl (25418 # 100)).
Proof.
  split; [vm_compute; reflexivity |]. split; [discriminate |].
  split; [reflexivity | vm_compute; discriminate].
Qed.

(** C3, as stated, fails on a line whose debit word is in another casing:
    the line has an amount token and contains [purchase], and its amount
    stays positive; so do [payment] and [DEBIT]. *)
Lemma lower_case_purchase_is_not_negated :
  RegExp.matchAll amountToken
    (cleanLineOf "14 Jul Contactless Interac purchase - 1234 STORE 12.34")
  = ["12.34"%string]
  /\ JS.includes
       (JS.toLowerCase "14 Jul Contactless Interac purchase - 1234 STORE 12.34")
       (JS.toLowerCase "Purchase") = true
  /\ extractDescriptionAndAmount
       "14 Jul Contactless Interac purchase - 1234 STORE 12.34"
     = ("Contactless Interac purchase - 1234 STORE"%string, fl (1234 # 100))
  /\ gtZero (fl (1234 # 100)) = true
  /\ extractDescriptionAndAmount "14 Jul Online Banking payment - 5678 VISA 80.00"
     = ("Online Banking payment - 5678 VISA"%string, fl (8000 # 100))
  /\ gtZero (fl (8000 # 100)) = true
  /\ extractDescriptionAndAmount "Jul 14 PREAUTHORIZED DEBIT TOYOTA FINANCE 254.18"
     = ("Jul 14 PREAUTHORIZED DEBIT TOYOTA FINANCE"%string, fl (25418 # 100))
  /\ gtZero (fl (25418 # 100)) = true.
Proof. repeat split; vm_compute; reflexivity. Qed.

End LineParserFacts.

(** ** [JSON.parse]: the fuel is enough *)

Section JSONFacts.

Import JSON.

Local Abbreviation len := String.length.

Lemma settled_longer (r : result value) (t s : string) :
  settled r t -> (len t <= len s)%nat -> settled r s.
Proof. destruct r; simpl; [lia | trivial | trivial]. Qed.

Lemma skipWs_le (s : string) : (len (skipWs s) <= len s)%nat.
Proof.
  induction s as [| c s IH]; simpl; [lia |].
  destruct (isWs c); simpl; lia.
Qed.

Lemma skipWs_cons (s r : string) (c : ascii) :
  skipWs s = String c r -> (len r < len s)%nat.
Proof.
  intros E. pose proof (skipWs_le s) as H. rewrite E in H. simpl in H. lia.
Qed.

Lemma parseChars_lt (n : nat) :
  forall s str rest,
    (len s <= n)%nat -> parseChars s = Some (str, rest) ->
    (len rest < len s)%nat.
Proof.
  induction n as [| n IH]; intros s str rest Hn H.
  - destruct s; [discriminate | simpl in Hn; lia].
  - destruct s as [| c r]; [discriminate |]. simpl in Hn.
    cbn [parseChars] in H.
    destruct (Nat.eqb (JS.code c) 34).
    { inversion H; subst. simpl. lia. }
    destruct (Nat.eqb (JS.code c) 92).
    { destruct r as [| e r']; [discriminate |].
      destruct (Nat.eqb (JS.code e) 117).
      - destruct r' as [| h1 [| h2 [| h3 [| h4 r'']]]]; try discriminate.
        destruct (hex4 h1 h2 h3 h4) as [k |]; [| discriminate].
        destruct (Nat.ltb k 256); [| discriminate].
        destruct (parseChars r'') as [[str' rest'] |] eqn:E; [| discriminate].
        inversion H; subst. apply IH in E; simpl in *; lia.
      - destruct (escapeChar e); [| discriminate].
        destruct (parseChars r') as [[str' rest'] |] eqn:E; [| discriminate].
        inversion H; subst. apply IH in E; simpl in *; lia. }
    destruct (Nat.ltb (JS.code c) 32); [discriminate |].
    destruct (parseChars r) as [[str' rest'] |] eqn:E; [| discriminate].
    inversion H; subst. apply IH in E; simpl in *; lia.
Qed.

Lemma readDigits_len (s : string) :
  len s = (len (fst (Num.readDigits s)) + len (snd (Num.readDigits s)))%nat.
Proof.
  induction s as [| c s IH]; [reflexivity |].
  cbn [Num.readDigits]. destruct (JS.isDigit c); [| reflexivity].
  destruct (Num.readDigits s) as [ds rest]. simpl in *. lia.
Qed.

Lemma readExponent_le (s rest : string) (e : Z) :
  Num.readExponent s = Some (e, rest) -> (len rest <= len s)%nat.
Proof.
  unfold Num.readExponent. destruct s as [| c r]; [discriminate |].
  destruct (Ascii.eqb c "e" || Ascii.eqb c "E"); [| discriminate].
  set (p := match r with
            | EmptyString => (1%Z, r)
            | String c1 r1 =>
                if Ascii.eqb c1 "-" then ((-1)%Z, r1)
                else if Ascii.eqb c1 "+" then (1%Z, r1) else (1%Z, r)
            end).
  assert (Hp : (len (snd p) <= len r)%nat).
  { unfold p. destruct r as [| c1 r1]; [simpl; lia |].
    destruct (Ascii.eqb c1 "-"); [simpl; lia |].
    destruct (Ascii.eqb c1 "+"); simpl; lia. }
  destruct p as [sign r1]. simpl in Hp.
  pose proof (readDigits_len r1) as L.
  destruct (Num.readDigits r1) as [ds rest']. simpl in L.
  destruct ds; [discriminate |]. intros H. inversion H; subst. simpl. lia.
Qed.

Lemma parseNumber_settled (s : string) : settled (parseNumber s) s.
Proof.
  unfold parseNumber.
  set (p := match s with
            | EmptyString => (false, s)
            | String c r => if Ascii.eqb c "-" then (true, r) else (false, s)
            end).
  assert (Hp : (len (snd p) <= len s)%nat).
  { unfold p. destruct s as [| c r]; [simpl; lia |].
    destruct (Ascii.eqb c "-"); simpl; lia. }
  destruct p as [negative u]. simpl in Hp.
  set (q := match u with
            | EmptyString => (EmptyString, u)
            | String c r =>
                if Ascii.eqb c "0" then (String c EmptyString, r)
                else Num.readDigits u
            end).
  assert (Hq : len u = (len (fst q) + len (snd q))%nat).
  { unfold q. destruct u as [| c r]; [reflexivity |].
    destruct (Ascii.eqb c "0"); [reflexivity | apply readDigits_len]. }
  destruct q as [ints r0]. simpl in Hq.
  destruct ints as [| i ints]; [exact I |].
  set (f := match r0 with
            | EmptyString => (EmptyString, r0)
            | String c r =>
                if Ascii.eqb c "." then
                  match Num.readDigits r with
                  | (EmptyString, _) => (EmptyString, r0)
                  | (ds, rest) => (ds, rest)
                  end
                else (EmptyString, r0)
            end).
  assert (Hf : (len (snd f) <= len r0)%nat).
  { unfold f. destruct r0 as [| c r]; [simpl; lia |].
    destruct (Ascii.eqb c "."); [| simpl; lia].
    pose proof (readDigits_len r) as L.
    destruct (Num.readDigits r) as [ds rest]. simpl in L.
    destruct ds; simpl; lia. }
  destruct f as [fracs r1]. simpl in Hf.
  destruct (Num.readExponent r1) as [[e rest] |] eqn:E.
  - apply readExponent_le in E. simpl in *. lia.
  - simpl in *. lia.
Qed.

Lemma startsWith_drop (s w : string) :
  JS.startsWith s w = true ->
  (len (JS.drop (len w) s) + len w = len s)%nat.
Proof.
  revert s. induction w as [| d w IH]; intros s H; simpl; [lia |].
  destruct s as [| c s]; [discriminate |]. simpl in H.
  apply andb_true_iff in H. destruct H as [_ H].
  apply IH in H. simpl. lia.
Qed.

Lemma parseLiteral_settled (s : string) : settled (parseLiteral s) s.
Proof.
  unfold parseLiteral.
  destruct (JS.startsWith s "true") eqn:T.
  { apply startsWith_drop in T. simpl in *. lia. }
  destruct (JS.startsWith s "false") eqn:F.
  { apply startsWith_drop in F. simpl in *. lia. }
  destruct (JS.startsWith s "null") eqn:N.
  { apply startsWith_drop in N. simpl in *. lia. }
  exact I.
Qed.

(** With twice the length of the text as fuel, and one more, no parser runs
    out of fuel *)
Lemma fuel_enough (n : nat) :
  (forall s, (2 * len s < n)%nat -> settled (parseValue n s) s)
  /\ (forall s acc, (2 * len s + 1 < n)%nat -> settled (parseElements n s acc) s)
  /\ (forall s acc, (2 * len s + 1 < n)%nat -> settled (parseMembers n s acc) s).
Proof.
  induction n as [| n (IHv & IHe & IHm)].
  - repeat split; intros; lia.
  - split; [| split].
    + intros s Hn. cbn [parseValue].
      destruct (skipWs s) as [| c r] eqn:E; [exact I |].
      pose proof (skipWs_cons _ _ _ E) as Hr.
      destruct (Ascii.eqb c "{").
      { destruct (skipWs r) as [| c' r'] eqn:E'; [exact I |].
        pose proof (skipWs_cons _ _ _ E') as Hr'.
        destruct (Ascii.eqb c' "}"); [simpl; lia |].
        apply (settled_longer _ (String c' r')).
        - apply IHm. simpl. lia.
        - simpl. lia. }
      destruct (Ascii.eqb c "[").
      { destruct (skipWs r) as [| c' r'] eqn:E'; [exact I |].
        pose proof (skipWs_cons _ _ _ E') as Hr'.
        destruct (Ascii.eqb c' "]"); [simpl; lia |].
        apply (settled_longer _ (String c' r')).
        - apply IHe. simpl. lia.
        - simpl. lia. }
      destruct (Nat.eqb (JS.code c) 34).
      { destruct (parseChars r) as [[str rest] |] eqn:P; [| exact I].
        apply (parseChars_lt (len r)) in P; [| lia]. simpl. lia. }
      destruct (Ascii.eqb c "-" || JS.isDigit c).
      { apply (settled_longer _ (String c r)); [apply parseNumber_settled |].
        simpl. lia. }
      apply (settled_longer _ (String c r)); [apply parseLiteral_settled |].
      simpl. lia.
    + intros s acc Hn. cbn [parseElements].
      pose proof (IHv s ltac:(lia)) as Hv.
      destruct (parseValue n s) as [v rest | |]; [| exact I | exact Hv].
      simpl in Hv.
      destruct (skipWs rest) as [| c r] eqn:E; [exact I |].
      pose proof (skipWs_cons _ _ _ E) as Hr.
      destruct (Ascii.eqb c ",").
      { apply (settled_longer _ r); [apply IHe; lia | lia]. }
      destruct (Ascii.eqb c "]"); [simpl; lia | exact I].
    + intros s acc Hn. cbn [parseMembers].
      destruct (skipWs s) as [| q r] eqn:E; [exact I |].
      pose proof (skipWs_cons _ _ _ E) as Hr.
      destruct (Nat.eqb (JS.code q) 34); [| exact I].
      destruct (parseChars r) as [[key rest] |] eqn:P; [| exact I].
      apply (parseChars_lt (len r)) in P; [| lia].
      destruct (skipWs rest) as [| c r1] eqn:E1; [exact I |].
      pose proof (skipWs_cons _ _ _ E1) as Hr1.
      destruct (Ascii.eqb c ":"); [| exact I].
      pose proof (IHv r1 ltac:(lia)) as Hv.
      destruct (parseValue n r1) as [v rest1 | |]; [| exact I | exact Hv].
      simpl in Hv.
      destruct (skipWs rest1) as [| c2 r2] eqn:E2; [exact I |].
      pose proof (skipWs_cons _ _ _ E2) as Hr2.
      destruct (Ascii.eqb c2 ",").
      { apply (settled_longer _ r2); [apply IHm; lia | lia]. }
      destruct (Ascii.eqb c2 "}"); [simpl; lia | exact I].
Qed.

(** [JSON.parse] never answers [None] for want of fuel *)
Lemma parse_has_fuel (text : string) :
  parseValue (2 * len text + 1) text <> OutOfFuel.
Proof.
  destruct (fuel_enough (2 * len text + 1)) as (H & _ & _).
  specialize (H text ltac:(lia)). intros E. rewrite E in H. exact H.
Qed.

(** More fuel does not change a result *)
Lemma fuel_monotone (n : nat) :
  (forall s m, (n <= m)%nat -> parseValue n s <> OutOfFuel ->
               parseValue m s = parseValue n s)
  /\ (forall s acc m, (n <= m)%nat -> parseElements n s acc <> OutOfFuel ->
                      parseElements m s acc = parseElements n s acc)
  /\ (forall s acc m, (n <= m)%nat -> parseMembers n s acc <> OutOfFuel ->
                      parseMembers m s acc = parseMembers n s acc).
Proof.
  induction n as [| n (IHv & IHe & IHm)].
  - repeat split; intros; exfalso; auto.
  - split; [| split].
    + intros s m Hm. destruct m as [| m]; [lia |].
      cbn [parseValue]. intros H.
      destruct (skipWs s) as [| c r]; [reflexivity |].
      destruct (Ascii.eqb c "{").
      { destruct (skipWs r) as [| c' r']; [reflexivity |].
        destruct (Ascii.eqb c' "}"); [reflexivity |].
        apply IHm; [lia | exact H]. }
      destruct (Ascii.eqb c "[").
      { destruct (skipWs r) as [| c' r']; [reflexivity |].
        destruct (Ascii.eqb c' "]"); [reflexivity |].
        apply IHe; [lia | exact H]. }
      reflexivity.
    + intros s acc m Hm. destruct m as [| m]; [lia |].
      cbn [parseElements]. intros H.
      assert (Hv : parseValue n s <> OutOfFuel).
      { intros E. rewrite E in H. apply H. reflexivity. }
      rewrite (IHv s m ltac:(lia) Hv).
      destruct (parseValue n s) as [v rest | |]; try reflexivity.
      destruct (skipWs rest) as [| c r]; [reflexivity |].
      destruct (Ascii.eqb c ","); [| reflexivity].
      apply IHe; [lia | exact H].
    + intros s acc m Hm. destruct m as [| m]; [lia |].
      cbn [parseMembers]. intros H.
      destruct (skipWs s) as [| q r]; [reflexivity |].
      destruct (Nat.eqb (JS.code q) 34); [| reflexivity].
      destruct (parseChars r) as [[key rest] |]; [| reflexivity].
      destruct (skipWs rest) as [| c r1]; [reflexivity |].
      destruct (Ascii.eqb c ":"); [| reflexivity].
      assert (Hv : parseValue n r1 <> OutOfFuel).
      { intros E. rewrite E in H. apply H. reflexivity. }
      rewrite (IHv r1 m ltac:(lia) Hv).
      destruct (parseValue n r1) as [v rest1 | |]; try reflexivity.
      destruct (skipWs rest1) as [| c2 r2]; [reflexivity |].
      destruct (Ascii.eqb c2 ","); [| reflexivity].
      apply IHm; [lia | exact H].
Qed.

(** The answer of [JSON.parse] is the answer with any larger fuel *)
Lemma parse_fuel_irrelevant (text : string) (fuel : nat) :
  (2 * len text + 1 <= fuel)%nat ->
  parseValue fuel text = parseValue (2 * len text + 1) text.
Proof.
  intros H. destruct (fuel_monotone (2 * len text + 1)) as (Hv & _ & _).
  apply Hv; [exact H | apply parse_has_fuel].
Qed.

End JSONFacts.

(** ** Validation of the answer of the model *)

Section ValidatorFacts.

Import JSON Route.

(** What a pushed record was made from *)
Lemma processEntry_Push (transaction : value) (index : nat) (t : Transaction) :
  processEntry transaction index = Push t ->
  exists vdate text a conf,
    prop transaction "date" = Some vdate
    /\ prop transaction "description" = Some (Str text)
    /\ prop transaction "amount" = Some (Number a)
    /\ truthy (Some vdate) = true
    /\ truthy (Some (Str text)) = true
    /\ testDate vdate = Return true
    /\ normalizeConfidence (prop transaction "confidence") = Return conf
    /\ t = mkTransaction (entryId transaction index) vdate (JS.trim text)
             (Num.round2 (negateIfPositive a)) (entryCategory transaction) conf.
Proof.
  unfold processEntry. intros H.
  assert (H' :
    match prop transaction "date", prop transaction "description",
          isNumber (prop transaction "amount") with
    | Some vdate, Some vdescription, Some a =>
        if negb (truthy (Some vdate)) || negb (truthy (Some vdescription))
        then Skip
        else
          if negb (categoryPrints transaction) then Abort
          else
            match testDate vdate with
            | Throw => Abort
            | Return false => Skip
            | Return true =>
                match vdescription with
                | Str text =>
                    match normalizeConfidence (prop transaction "confidence") with
                    | Throw => Abort
                    | Return conf =>
                        Push (mkTransaction (entryId transaction index) vdate
                                (JS.trim text) (Num.round2 (negateIfPositive a))
                                (entryCategory transaction) conf)
                    end
                | _ => Abort
                end
            end
    | _, _, _ => Skip
    end = Push t).
  { destruct transaction; try discriminate; exact H. }
  clear H.
  destruct (prop transaction "date") as [vdate |]; [| discriminate].
  destruct (prop transaction "description") as [vdescription |]; [| discriminate].
  destruct (prop transaction "amount") as [[| | a | | |] |]; try discriminate.
  simpl isNumber in H'. cbv iota in H'.
  destruct (truthy (Some vdate)) eqn:Td; [| discriminate].
  destruct (truthy (Some vdescription)) eqn:Ts; [| discriminate].
  cbn [negb orb] in H'.
  destruct (categoryPrints transaction); [| discriminate].
  cbn [negb] in H'.
  destruct (testDate vdate) as [[|] |] eqn:Tt; try discriminate.
  destruct vdescription as [| | | text | |]; try discriminate.
  destruct (normalizeConfidence (prop transaction "confidence")) as [conf |];
    [| discriminate].
  exists vdate, text, a, conf. inversion H'. repeat split; assumption.
Qed.

Lemma max_Fin (c h : Q) : Num.max (Num.Fin c) (Num.Fin h) = Num.Fin (Qmax c h).
Proof.
  unfold Num.max, Num.ltNum, Num.lt, Qmax, GenericMinMax.gmax.
  destruct (c ?= h); reflexivity.
Qed.

Lemma min_Fin (c h : Q) : Num.min (Num.Fin c) (Num.Fin h) = Num.Fin (Qmin c h).
Proof.
  unfold Num.min, Num.ltNum, Num.lt, Qmin, GenericMinMax.gmin.
  rewrite <- (Qcompare_antisym c h).
  destruct (c ?= h); reflexivity.
Qed.

Lemma normalizeConfidence_number (c : Q) :
  normalizeConfidence (Some (Number c)) =
  Return (if Qeq_bool c 0 then Num.Fin (8 # 10)
          else Num.Fin (Qmin (Qmax c (5 # 10)) 1)).
Proof.
  unfold normalizeConfidence. simpl truthy.
  destruct (Qeq_bool c 0); simpl negb; cbv iota; simpl ToNumber; cbv iota.
  - reflexivity.
  - rewrite max_Fin, min_Fin. reflexivity.
Qed.

Lemma normalizeConfidence_absent :
  normalizeConfidence None = Return (Num.Fin (8 # 10)).
Proof. reflexivity. Qed.

(** C6: for an accepted entry, a numeric confidence other than 0 is clamped
    into [0.5, 1]: the record carries min(max(c, 0.5), 1); an absent
    confidence, and a confidence of 0, give 0.8. *)
Theorem confidence_normalisation (transaction : value) (index : nat)
  (t : Transaction) :
  processEntry transaction index = Push t ->
  (prop transaction "confidence" = None -> confidence t = Num.Fin (8 # 10))
  /\ (forall c, prop transaction "confidence" = Some (Number c) ->
        ~ c == 0 -> confidence t = Num.Fin (Qmin (Qmax c (5 # 10)) 1))
  /\ (forall c, prop transaction "confidence" = Some (Number c) ->
        c == 0 -> confidence t = Num.Fin (8 # 10)).
Proof.
  intros H.
  destruct (processEntry_Push _ _ _ H)
    as (vdate & text & a & conf & _ & _ & _ & _ & _ & _ & Hc & ->).
  simpl confidence. repeat split.
  - intros E. rewrite E, normalizeConfidence_absent in Hc. congruence.
  - intros c E Hnz. rewrite E, normalizeConfidence_number in Hc.
    destruct (Qeq_bool c 0) eqn:Q0; [| congruence].
    apply Qeq_bool_iff in Q0. contradiction.
  - intros c E Hz. rewrite E, normalizeConfidence_number in Hc.
    apply Qeq_bool_iff in Hz. rewrite Hz in Hc. congruence.
Qed.

Lemma confidence_normalisation_witness :
  processEntry Samples.bell 0 = Push (recordOf Samples.bell 0)
  /\ confidence (recordOf Samples.bell 0)
     = Num.Fin (Qmin (Qmax (15 # 10) (5 # 10)) 1).
Proof.
  split; [reflexivity |].
  destruct (confidence_normalisation Samples.bell 0 (recordOf Samples.bell 0)
              eq_refl) as (_ & Hc & _).
  apply Hc; [reflexivity | discriminate].
Defined.

(** C6, as stated, fails for a confidence of 0: the record carries 0.8, where
    min(max(0, 0.5), 1) is 0.5. *)
Lemma confidence_zero_is_defaulted :
  exists t, processEntry Samples.unsure 0 = Push t
            /\ prop Samples.unsure "confidence" = Some (Number 0)
            /\ confidence t = Num.Fin (8 # 10)
            /\ ~ (8 # 10 == Qmin (Qmax 0 (5 # 10)) 1).
Proof.
  eexists. split; [vm_compute; reflexivity |].
  split; [reflexivity |]. split; [reflexivity |].
  vm_compute. discriminate.
Qed.

Lemma Qabs_of_pos (a : Q) : 0 < a -> Qabs a = a.
Proof.
  destruct a as [n d]. unfold Qlt, Qabs. simpl. intros H.
  f_equal. lia.
Qed.

Lemma negateIfPositive_eq (a : Q) :
  negateIfPositive a = (if Num.lt 0 a then - a else a).
Proof.
  unfold negateIfPositive. destruct (Num.lt 0 a) eqn:E; [| reflexivity].
  apply lt_true in E. rewrite (Qabs_of_pos a E). reflexivity.
Qed.

(** C9: an entry that is [null], or whose description is a number, makes
    the validation throw, so that the route answers with a processing error:
    the entry without a description before it is not dropped without an
    error, and the well-formed entry after it is not validated, where the
    same arrays without that entry give the record of the well-formed
    entry. *)
Theorem throwing_entry_loses_the_batch :
  processEntry Samples.nameless 0 = Skip
  /\ processEntry Null 1 = Abort
  /\ processEntry Samples.numbered 1 = Abort
  /\ processEntry Samples.bell 2 = Push (recordOf Samples.bell 2)
  /\ validate [Samples.nameless; Null; Samples.bell] = Throw
  /\ validate [Samples.nameless; Samples.numbered; Samples.bell] = Throw
  /\ validate [Samples.nameless; Samples.bell]
     = Return [recordOf Samples.bell 1]
  /\ JSON.parse Samples.answerWithNull
     = Some (Object [("transactions",
                      Array [Samples.nameless; Null;
                             Samples.entry "2025-07-14" "Bell Canada"
                               (11991 # 100) []])])
  /\ processTransactionText Samples.answerWithNull = ProcessingError
  /\ processTransactionText Samples.answerWithoutNull
     = Processed
         (aggregate [recordOf (Samples.entry "2025-07-14" "Bell Canada"
                                 (11991 # 100) []) 1]).
Proof. repeat split; vm_compute; reflexivity. Qed.

(** An entry whose category has no string form throws as well, because of
    the message about the unknown category, even when its date is not of
    the form that is asked for *)
Example unprintable_category_throws :
  processEntry
    (Samples.entry "14/07/2025" "Bell Canada" (11991 # 100)
       [("category", Object [("toString", Number 1)])]) 0
  = Abort
  /\ processEntry
       (Samples.entry "14/07/2025" "Bell Canada" (11991 # 100)
          [("category", Object [("name", Number 1)])]) 0
     = Skip.
Proof. split; vm_compute; reflexivity. Qed.

(** *** Amounts in cents *)

(** Linear arithmetic, hundredths being products *)
Ltac cents_lra :=
  unfold Qdiv in *; change (/ 100) with (1 # 100) in *; lra.

Lemma floor_unique (x : Q) (z : Z) :
  inject_Z z <= x -> x < inject_Z z + 1 -> Qfloor x = z.
Proof.
  intros L U.
  pose proof (Qfloor_le x) as FL. pose proof (Qlt_floor x) as FU.
  rewrite inject_Z_plus in FU. change (inject_Z 1) with 1 in FU.
  assert (A : (Qfloor x < z + 1)%Z).
  { rewrite Zlt_Qlt, inject_Z_plus. change (inject_Z 1) with 1. lra. }
  assert (B : (z < Qfloor x + 1)%Z).
  { rewrite Zlt_Qlt, inject_Z_plus. change (inject_Z 1) with 1. lra. }
  lia.
Qed.

Lemma floor_half (z : Z) : Qfloor (inject_Z z + (1 # 2)) = z.
Proof. apply floor_unique; lra. Qed.

(** The powers of 2 that bound the amounts below: a sum of at most [2^30]
    is rounded with an error of at most [2^-23], its hundredfold with an
    error of at most [2^-16] *)
Lemma pow2_30 : Num.pow2 30 == 1073741824.
Proof. reflexivity. Qed.

Lemma pow2_37 : Num.pow2 37 == 137438953472.
Proof. reflexivity. Qed.

Lemma pow2_m23 : Num.pow2 (30 - 53) == 1 # 8388608.
Proof. reflexivity. Qed.

Lemma pow2_m16 : Num.pow2 (37 - 53) == 1 # 65536.
Proof. reflexivity. Qed.

Lemma pow2_m53 : Num.pow2 (-53) == 1 # 9007199254740992.
Proof. reflexivity. Qed.

Lemma pow2_tiny : Num.pow2 (-1022) <= 1 # 100.
Proof. apply Qle_bool_iff. vm_compute. reflexivity. Qed.

(** Rounding a number of size at most [2^30] *)
Lemma flQ_error_30 (q : Q) :
  Qabs q <= 1073741824 -> Qabs (Num.flQ q - q) <= 1 # 8388608.
Proof.
  intros H. rewrite <- pow2_m23. apply flQ_abs_error; [| lia].
  rewrite pow2_30. exact H.
Qed.

Lemma flQ_error_37 (q : Q) :
  Qabs q <= 137438953472 -> Qabs (Num.flQ q - q) <= 1 # 65536.
Proof.
  intros H. rewrite <- pow2_m16. apply flQ_abs_error; [| lia].
  rewrite pow2_37. exact H.
Qed.

Lemma round2_cents (q : Q) : cents (Num.round2 q).
Proof. exists (Num.round (Num.flQ (q * 100))). reflexivity. Qed.

Lemma Qabs_hundredth (z : Z) :
  Qabs (inject_Z z / 100) == inject_Z (Z.abs z) / 100.
Proof.
  unfold Qeq, Qabs, Qdiv, Qmult, Qinv, inject_Z. simpl. lia.
Qed.

Lemma centsOf_nonneg (t : Transaction) : (0 <= centsOf t)%Z.
Proof.
  unfold centsOf. change 0%Z with (Qfloor 0). apply Qfloor_resp_le.
  pose proof (Qabs_nonneg (amount t)). lra.
Qed.

Lemma totalCents_nonneg (l : list Transaction) : (0 <= totalCents l)%Z.
Proof.
  induction l as [| t l IH]; unfold totalCents in *; simpl; [lia |].
  pose proof (centsOf_nonneg t). lia.
Qed.

(** The cents of an amount that is a whole number of cents, as long as they
    are few enough to be read back *)
Lemma centsOf_cents (t : Transaction) (z : Z) :
  amount t = Num.flQ (inject_Z z / 100) ->
  (centsOf t <= 100000010000)%Z ->
  centsOf t = Z.abs z
  /\ Qabs (amount t) == Num.flQ (inject_Z (Z.abs z) / 100).
Proof.
  intros E B.
  assert (A : Qabs (amount t) == Num.flQ (inject_Z (Z.abs z) / 100)).
  { rewrite E, flQ_Qabs. rewrite (flQ_wd _ _ (Qabs_hundredth z)). reflexivity. }
  split; [| exact A].
  unfold centsOf in *.
  assert (F : Qabs (amount t) * 100 + (1 # 2)
              == Num.flQ (inject_Z (Z.abs z) / 100) * 100 + (1 # 2))
    by (rewrite A; reflexivity).
  rewrite (Qfloor_comp _ _ F) in *. clear F A E.
  set (w := Z.abs z) in *. assert (Hw : (0 <= w)%Z) by apply Z.abs_nonneg.
  clearbody w.
  destruct (Z.eq_dec w 0) as [-> | Hnz]; [reflexivity |].
  assert (W1 : 1 <= inject_Z w).
  { change 1 with (inject_Z 1). rewrite <- Zle_Qle. lia. }
  assert (N : Num.pow2 (-1022) <= Qabs (inject_Z w / 100)).
  { rewrite Qabs_pos by cents_lra.
    apply Qle_trans with (1 # 100); [exact pow2_tiny | cents_lra]. }
  pose proof (flQ_rel_error _ N) as R. clear N.
  rewrite (Qabs_pos (inject_Z w / 100)), pow2_m53 in R by cents_lra.
  apply Qabs_Qle_condition in R.
  set (a := Num.flQ (inject_Z w / 100)) in *. clearbody a.
  pose proof (Qlt_floor (a * 100 + (1 # 2))) as FU.
  rewrite inject_Z_plus in FU. change (inject_Z 1) with 1 in FU.
  assert (C : inject_Z (Qfloor (a * 100 + (1 # 2))) <= 100000010000).
  { change 100000010000 with (inject_Z 100000010000).
    rewrite <- Zle_Qle. exact B. }
  apply floor_unique; cents_lra.
Qed.

(** *** Sums *)

Lemma fold_sumAbs (l : list Transaction) :
  Forall emittedOk l ->
  forall (acc : Q) (A : Z) (err : Q),
    (0 <= A)%Z -> 0 <= err ->
    Qabs (acc - inject_Z A / 100) <= err ->
    (A + totalCents l <= 100000010000)%Z ->
    err + inject_Z (Z.of_nat (List.length l)) * (2 # 8388608)
    <= 20000 # 8388608 ->
    Qabs (List.fold_left (fun sum t => Num.flQ (sum + Qabs (amount t))) l acc
          - inject_Z (A + totalCents l) / 100)
    <= err + inject_Z (Z.of_nat (List.length l)) * (2 # 8388608).
Proof.
  induction 1 as [| t l Ht Hl IH]; intros acc A err HA Herr Hacc HB Hn.
  - cbn [List.fold_left List.length Z.of_nat].
    replace (A + totalCents [])%Z with A by (unfold totalCents; simpl; lia).
    change (inject_Z 0) with 0. cents_lra.
  - pose proof (centsOf_nonneg t) as Ct. pose proof (totalCents_nonneg l) as Cl.
    assert (TC : totalCents (t :: l) = (centsOf t + totalCents l)%Z) by reflexivity.
    rewrite TC in *.
    destruct Ht as (_ & [z Hz] & _).
    destruct (centsOf_cents t z Hz ltac:(lia)) as [Cz Az].
    cbn [List.fold_left].
    assert (L : inject_Z (Z.of_nat (List.length (t :: l)))
                == inject_Z (Z.of_nat (List.length l)) + 1).
    { cbn [List.length]. rewrite Nat2Z.inj_succ. unfold Z.succ.
      rewrite inject_Z_plus. reflexivity. }
    rewrite L in *.
    assert (Ln : 0 <= inject_Z (Z.of_nat (List.length l))).
    { change 0 with (inject_Z 0). rewrite <- Zle_Qle. lia. }
    set (w := centsOf t) in *.
    assert (Wb : inject_Z w <= 100000010000).
    { change 100000010000 with (inject_Z 100000010000). rewrite <- Zle_Qle. lia. }
    assert (W0 : 0 <= inject_Z w).
    { change 0 with (inject_Z 0). rewrite <- Zle_Qle. lia. }
    assert (Ab : inject_Z (A + w) <= 100000010000).
    { change 100000010000 with (inject_Z 100000010000). rewrite <- Zle_Qle. lia. }
    assert (A0 : 0 <= inject_Z A).
    { change 0 with (inject_Z 0). rewrite <- Zle_Qle. lia. }
    assert (Aw : inject_Z (A + w) == inject_Z A + inject_Z w)
      by (rewrite inject_Z_plus; reflexivity).
    (* the amount is within one rounding of its cents *)
    assert (E1 : Qabs (Qabs (amount t) - inject_Z w / 100) <= 1 # 8388608).
    { rewrite Az, <- Cz. apply flQ_error_30. rewrite Qabs_pos; cents_lra. }
    apply Qabs_Qle_condition in E1. apply Qabs_Qle_condition in Hacc.
    (* and so is the sum *)
    assert (E2 : Qabs (Num.flQ (acc + Qabs (amount t)) - (acc + Qabs (amount t)))
                 <= 1 # 8388608).
    { apply flQ_error_30. apply Qabs_Qle_condition. cents_lra. }
    apply Qabs_Qle_condition in E2.
    replace (A + (w + totalCents l))%Z with ((A + w) + totalCents l)%Z by lia.
    eapply Qle_trans.
    + apply (IH (Num.flQ (acc + Qabs (amount t))) (A + w)%Z
               (err + (2 # 8388608))); try lia; try cents_lra.
      apply Qabs_Qle_condition. cents_lra.
    + cents_lra.
Qed.

(** The sum of the absolute amounts is within so many roundings of the sum
    of the cents *)
Lemma sumAbs_error (l : list Transaction) :
  Forall emittedOk l ->
  (Z.of_nat (List.length l) <= 10000)%Z ->
  (totalCents l <= 100000010000)%Z ->
  Qabs (sumAbs l - inject_Z (totalCents l) / 100) <= 20000 # 8388608.
Proof.
  intros Hok Hn HB.
  assert (Ln : inject_Z (Z.of_nat (List.length l)) <= 10000).
  { change 10000 with (inject_Z 10000). rewrite <- Zle_Qle. lia. }
  pose proof (fold_sumAbs l Hok 0 0%Z 0 ltac:(lia) ltac:(cents_lra)) as F.
  cbn [Z.add] in F. eapply Qle_trans; [apply F |]; try lia; try cents_lra.
  setoid_replace (0 - inject_Z 0 / 100) with 0 by reflexivity. discriminate.
Qed.

(** Rounding to two decimals gives the cents back *)
Lemma round2_recovers (sum : Q) (z : Z) :
  (0 <= z <= 100000010000)%Z ->
  Qabs (sum - inject_Z z / 100) <= 20000 # 8388608 ->
  Num.round2 sum = Num.flQ (inject_Z z / 100).
Proof.
  intros [Z0 ZB] H. unfold Num.round2, Num.round.
  assert (Zb : inject_Z z <= 100000010000).
  { change 100000010000 with (inject_Z 100000010000). rewrite <- Zle_Qle. lia. }
  assert (Zp : 0 <= inject_Z z).
  { change 0 with (inject_Z 0). rewrite <- Zle_Qle. lia. }
  apply Qabs_Qle_condition in H.
  assert (E : Qabs (Num.flQ (sum * 100) - sum * 100) <= 1 # 65536).
  { apply flQ_error_37. apply Qabs_Qle_condition. cents_lra. }
  apply Qabs_Qle_condition in E.
  rewrite (floor_unique _ z); [reflexivity | cents_lra | cents_lra].
Qed.

Lemma round2_sumAbs (l : list Transaction) :
  Forall emittedOk l ->
  (Z.of_nat (List.length l) <= 10000)%Z ->
  (totalCents l <= 100000010000)%Z ->
  Num.round2 (sumAbs l) = Num.flQ (inject_Z (totalCents l) / 100).
Proof.
  intros Hok Hn HB. apply round2_recovers.
  - pose proof (totalCents_nonneg l). lia.
  - apply sumAbs_error; assumption.
Qed.

(** The exact sum of the absolute amounts is within so many roundings of the
    sum of the cents *)
Lemma absSum_error (l : list Transaction) :
  Forall emittedOk l ->
  (totalCents l <= 100000010000)%Z ->
  Qabs (absSum l - inject_Z (totalCents l) / 100)
  <= inject_Z (Z.of_nat (List.length l)) * (1 # 8388608).
Proof.
  induction 1 as [| t l Ht Hl IH]; intros HB.
  - vm_compute. discriminate.
  - pose proof (centsOf_nonneg t) as Ct. pose proof (totalCents_nonneg l) as Cl.
    assert (TC : totalCents (t :: l) = (centsOf t + totalCents l)%Z) by reflexivity.
    rewrite TC in *.
    destruct Ht as (_ & [z Hz] & _).
    destruct (centsOf_cents t z Hz ltac:(lia)) as [Cz Az].
    assert (L : inject_Z (Z.of_nat (List.length (t :: l)))
                == inject_Z (Z.of_nat (List.length l)) + 1).
    { cbn [List.length]. rewrite Nat2Z.inj_succ. unfold Z.succ.
      rewrite inject_Z_plus. reflexivity. }
    rewrite L.
    assert (S : absSum (t :: l) == Qabs (amount t) + absSum l) by reflexivity.
    rewrite S, inject_Z_plus.
    set (w := centsOf t) in *.
    assert (Wb : inject_Z w <= 100000010000).
    { change 100000010000 with (inject_Z 100000010000). rewrite <- Zle_Qle. lia. }
    assert (W0 : 0 <= inject_Z w).
    { change 0 with (inject_Z 0). rewrite <- Zle_Qle. lia. }
    assert (E1 : Qabs (Qabs (amount t) - inject_Z w / 100) <= 1 # 8388608).
    { rewrite Az, <- Cz. apply flQ_error_30. rewrite Qabs_pos; cents_lra. }
    apply Qabs_Qle_condition in E1.
    specialize (IH ltac:(lia)). apply Qabs_Qle_condition in IH.
    apply Qabs_Qle_condition. cents_lra.
Qed.

Lemma categoryTotal_absSum (c : string) (l : list Transaction) :
  categoryTotal c l
  = absSum (List.filter (fun t => String.eqb (category t) c) l).
Proof. reflexivity. Qed.

Lemma summarize_unfold (l : list Transaction) :
  summarize l =
  List.map
    (fun c => (c, Num.round2
                    (sumAbs (List.filter (fun t => String.eqb (category t) c) l))))
    CATEGORIES.
Proof. reflexivity. Qed.

(** The categories split the records: the cents of the six categories add
    up to the cents of all records *)
Lemma categoryCents_partition (l : list Transaction) :
  Forall (fun t => In (category t) CATEGORIES) l ->
  List.fold_right Z.add 0%Z (List.map (fun c => categoryCents c l) CATEGORIES)
  = totalCents l.
Proof.
  induction 1 as [| t l Ht Hl IH].
  - reflexivity.
  - simpl in IH. unfold categoryCents, totalCents in *. simpl in Ht. simpl.
    destruct Ht as [E | [E | [E | [E | [E | [E | []]]]]]]; rewrite <- E;
      simpl; lia.
Qed.

Lemma entryCategory_known (transaction : value) :
  In (entryCategory transaction) CATEGORIES.
Proof.
  unfold entryCategory, knownCategory.
  destruct (prop transaction "category") as [[| | | c | |] |];
    try (simpl; tauto).
  destruct (existsb (String.eqb c) CATEGORIES) eqn:E; [| simpl; tauto].
  apply existsb_exists in E. destruct E as [x [Hin Hx]].
  apply String.eqb_eq in Hx. subst x. exact Hin.
Qed.

Lemma negateIfPositive_le (a : Q) : negateIfPositive a <= 0.
Proof.
  rewrite negateIfPositive_eq. destruct (Num.lt 0 a) eqn:E.
  - apply lt_true in E. lra.
  - apply lt_false in E. exact E.
Qed.

Lemma negateIfPositive_abs (a : Q) : negateIfPositive a == - Qabs a.
Proof.
  rewrite negateIfPositive_eq. destruct (Num.lt 0 a) eqn:E.
  - apply lt_true in E. rewrite Qabs_pos by lra. reflexivity.
  - apply lt_false in E. rewrite Qabs_neg by exact E. ring.
Qed.

Lemma hundredth_nonpos (z : Z) : (z <= 0)%Z -> inject_Z z / 100 <= 0.
Proof.
  intros H. assert (inject_Z z <= 0).
  { change 0 with (inject_Z 0). rewrite <- Zle_Qle. exact H. }
  cents_lra.
Qed.

Lemma round2_nonpos (x : Q) : x <= 0 -> Num.round2 x <= 0.
Proof.
  intros H. unfold Num.round2, Num.round.
  apply flQ_nonpos, hundredth_nonpos.
  assert (Hy : Num.flQ (x * 100) <= 0) by (apply flQ_nonpos; lra).
  assert (L : inject_Z (Qfloor (Num.flQ (x * 100) + (1 # 2))) < inject_Z 1).
  { pose proof (Qfloor_le (Num.flQ (x * 100) + (1 # 2))).
    change (inject_Z 1) with 1. lra. }
  rewrite <- Zlt_Qlt in L. lia.
Qed.

Lemma flQ_neg (q : Q) : q <= - (1 # 100) -> Num.flQ q < 0.
Proof.
  intros H.
  assert (P : 0 < Num.flQ (- q)).
  { apply flQ_pos. apply Qle_trans with (1 # 100); [exact pow2_tiny | lra]. }
  rewrite flQ_opp in P. lra.
Qed.

(** The sign of an emitted amount: it is negative when the hundredfold of
    the amount of the entry, as a binary64 number, is more than one half,
    and 0 otherwise *)
Lemma round2_sign (a : Q) :
  (1 # 2 < Num.flQ (Qabs a * 100) -> Num.round2 (negateIfPositive a) < 0)
  /\ (Num.flQ (Qabs a * 100) <= 1 # 2 -> Num.round2 (negateIfPositive a) = 0).
Proof.
  unfold Num.round2, Num.round.
  assert (E : negateIfPositive a * 100 == - (Qabs a * 100)).
  { rewrite negateIfPositive_abs. ring. }
  rewrite (flQ_wd _ _ E).
  assert (O : Num.flQ (- (Qabs a * 100)) + (1 # 2)
              == - Num.flQ (Qabs a * 100) + (1 # 2)).
  { rewrite flQ_opp. reflexivity. }
  rewrite (Qfloor_comp _ _ O).
  assert (P : 0 <= Num.flQ (Qabs a * 100)).
  { apply flQ_nonneg. pose proof (Qabs_nonneg a). lra. }
  set (y := Num.flQ (Qabs a * 100)) in *. clearbody y.
  split; intros H.
  - apply flQ_neg.
    assert (L : inject_Z (Qfloor (- y + (1 # 2))) < inject_Z 0).
    { pose proof (Qfloor_le (- y + (1 # 2))). change (inject_Z 0) with 0. lra. }
    rewrite <- Zlt_Qlt in L.
    assert (M : inject_Z (Qfloor (- y + (1 # 2))) <= - (1)).
    { change (- (1)) with (inject_Z (-1)). rewrite <- Zle_Qle. lia. }
    cents_lra.
  - rewrite (floor_unique _ 0%Z); [reflexivity | |]; change (inject_Z 0) with 0; lra.
Qed.

(** An amount that is at least one cent away from 0 has a hundredfold of
    more than one half *)
Lemma hundredfold_of_cent (a : Q) :
  1 # 100 <= Qabs a -> 1 # 2 < Num.flQ (Qabs a * 100).
Proof.
  intros H.
  assert (N : Num.pow2 (-1022) <= Qabs (Qabs a * 100)).
  { rewrite Qabs_pos by lra.
    apply Qle_trans with (1 # 100); [exact pow2_tiny | lra]. }
  pose proof (flQ_rel_error _ N) as R.
  rewrite (Qabs_pos (Qabs a * 100)), pow2_m53 in R by lra.
  apply Qabs_Qle_condition in R. lra.
Qed.

Lemma processEntry_emittedOk (transaction : value) (index : nat) (t : Transaction) :
  processEntry transaction index = Push t -> emittedOk t.
Proof.
  intros H.
  destruct (processEntry_Push _ _ _ H)
    as (vdate & text & a & conf & _ & _ & _ & _ & _ & _ & _ & ->).
  repeat split; simpl.
  - apply entryCategory_known.
  - apply round2_cents.
  - apply round2_nonpos, negateIfPositive_le.
Qed.

Lemma forEachFrom_emittedOk (l : list value) :
  forall index acc out,
    Forall emittedOk acc ->
    forEachFrom index l acc = Return out -> Forall emittedOk out.
Proof.
  induction l as [| e l IH]; intros index acc out Hacc H; simpl in H.
  - inversion H; subst. exact Hacc.
  - destruct (processEntry e index) as [| t |] eqn:E; [| | discriminate].
    + exact (IH _ _ _ Hacc H).
    + apply (IH _ _ _ (proj2 (Forall_app _ _ _) (conj Hacc (Forall_cons _ (processEntry_emittedOk _ _ _ E) (Forall_nil _)))) H).
Qed.

Lemma validate_emittedOk (rawTransactions : list value) (out : list Transaction) :
  validate rawTransactions = Return out -> Forall emittedOk out.
Proof. apply forEachFrom_emittedOk. constructor. Qed.

Lemma Forall_filter {A : Type} (P : A -> Prop) (f : A -> bool) (l : list A) :
  Forall P l -> Forall P (List.filter f l).
Proof.
  induction 1 as [| x l Hx Hl IH]; simpl; [constructor |].
  destruct (f x); [constructor |]; assumption.
Qed.

Lemma filter_length_le {A : Type} (f : A -> bool) (l : list A) :
  (Z.of_nat (List.length (List.filter f l)) <= Z.of_nat (List.length l))%Z.
Proof.
  induction l as [| x l IH]; simpl; [lia |].
  destruct (f x); simpl List.length; lia.
Qed.

Lemma totalCents_filter (f : Transaction -> bool) (l : list Transaction) :
  (totalCents (List.filter f l) <= totalCents l)%Z.
Proof.
  induction l as [| t l IH]; simpl; [lia |].
  pose proof (centsOf_nonneg t).
  destruct (f t); unfold totalCents in *; simpl; lia.
Qed.

(** The cents are at most the hundredfold of the sum, and half a cent for
    each record *)
Lemma totalCents_absSum (l : list Transaction) :
  inject_Z (totalCents l)
  <= absSum l * 100 + inject_Z (Z.of_nat (List.length l)) * (1 # 2).
Proof.
  induction l as [| t l IH].
  - vm_compute. discriminate.
  - assert (TC : totalCents (t :: l) = (centsOf t + totalCents l)%Z) by reflexivity.
    assert (S : absSum (t :: l) == Qabs (amount t) + absSum l) by reflexivity.
    assert (L : inject_Z (Z.of_nat (List.length (t :: l)))
                == inject_Z (Z.of_nat (List.length l)) + 1).
    { cbn [List.length]. rewrite Nat2Z.inj_succ. unfold Z.succ.
      rewrite inject_Z_plus. reflexivity. }
    rewrite TC, S, L, inject_Z_plus.
    pose proof (Qfloor_le (Qabs (amount t) * 100 + (1 # 2))) as F.
    fold (centsOf t) in F. lra.
Qed.

Lemma totalCents_bound (l : list Transaction) :
  (Z.of_nat (List.length l) <= 10000)%Z -> absSum l <= 1000000000 ->
  (totalCents l <= 100000010000)%Z.
Proof.
  intros Hn Hs. pose proof (totalCents_absSum l) as T.
  assert (Ln : inject_Z (Z.of_nat (List.length l)) <= 10000).
  { change 10000 with (inject_Z 10000). rewrite <- Zle_Qle. lia. }
  rewrite Zle_Qle. change (inject_Z 100000010000) with 100000010000. lra.
Qed.

Lemma absSum_nonneg (l : list Transaction) : 0 <= absSum l.
Proof.
  induction l as [| t l IH]; [discriminate |].
  assert (S : absSum (t :: l) == Qabs (amount t) + absSum l) by reflexivity.
  rewrite S. pose proof (Qabs_nonneg (amount t)). lra.
Qed.

(** What the aggregation gives for a list of emitted records of a moderate
    size: each value is its cents, as a binary64 number, and is within half
    a cent of the exact sum *)
Lemma round2_sumAbs_close (l : list Transaction) :
  Forall emittedOk l ->
  (Z.of_nat (List.length l) <= 10000)%Z ->
  (totalCents l <= 100000010000)%Z ->
  Num.round2 (sumAbs l) = Num.flQ (inject_Z (totalCents l) / 100)
  /\ Qabs (Num.round2 (sumAbs l) - inject_Z (totalCents l) / 100) <= 1 # 8388608
  /\ Qabs (Num.round2 (sumAbs l) - absSum l) <= 1 # 200.
Proof.
  intros Hok Hn HB.
  pose proof (round2_sumAbs l Hok Hn HB) as R.
  pose proof (totalCents_nonneg l) as T0.
  assert (Tb : inject_Z (totalCents l) <= 100000010000).
  { change 100000010000 with (inject_Z 100000010000). rewrite <- Zle_Qle. lia. }
  assert (Tp : 0 <= inject_Z (totalCents l)).
  { change 0 with (inject_Z 0). rewrite <- Zle_Qle. lia. }
  assert (E : Qabs (Num.flQ (inject_Z (totalCents l) / 100)
                    - inject_Z (totalCents l) / 100) <= 1 # 8388608).
  { apply flQ_error_30. apply Qabs_Qle_condition. cents_lra. }
  rewrite R. split; [reflexivity |]. split; [exact E |].
  pose proof (absSum_error l Hok HB) as A.
  assert (Ln : inject_Z (Z.of_nat (List.length l)) <= 10000).
  { change 10000 with (inject_Z 10000). rewrite <- Zle_Qle. lia. }
  apply Qabs_Qle_condition in E. apply Qabs_Qle_condition in A.
  apply Qabs_Qle_condition. cents_lra.
Qed.

(** C7: for the records that the validator emits and the fixed category
    set, the summary has exactly the categories of the set as keys, with 0
    for a category that has no record.  When there are at most 10000
    records, whose absolute amounts add up to at most 1000000000: the value
    of a category is the sum of the absolute amounts of its records rounded
    to two decimals, that is the binary64 number nearest to the cents of
    these records, within half a cent of their exact sum; totalAmount is the
    same for all records; and the values add up to totalAmount within the
    tolerance of 0.01. *)
Theorem aggregation_correct (rawTransactions : list value)
  (validTransactions : list Transaction) :
  validate rawTransactions = Return validTransactions ->
  let data := aggregate validTransactions in
  transactions data = validTransactions
  /\ StrMap.keys (summary data) = CATEGORIES
  /\ Forall (fun c => exists v,
               StrMap.get (summary data) c = Some v
               /\ (List.filter (fun t => String.eqb (category t) c)
                     validTransactions = [] -> v = 0))
       CATEGORIES
  /\ ((Z.of_nat (List.length validTransactions) <= 10000)%Z ->
      absSum validTransactions <= 1000000000 ->
      Forall (fun c => exists v,
                StrMap.get (summary data) c = Some v
                /\ v = Num.flQ (inject_Z (categoryCents c validTransactions) / 100)
                /\ Qabs (v - categoryTotal c validTransactions) <= 1 # 200)
        CATEGORIES
      /\ totalAmount data
         = Num.flQ (inject_Z (totalCents validTransactions) / 100)
      /\ Qabs (totalAmount data - absSum validTransactions) <= 1 # 200
      /\ Qabs (sumValues (summary data) - totalAmount data) <= 1 # 100).
Proof.
  intros H data.
  split; [reflexivity |]. split; [reflexivity |].
  split.
  { unfold data, aggregate. simpl summary. rewrite summarize_unfold.
    repeat (apply Forall_cons;
            [eexists; split; [reflexivity |];
             intros Hnone; rewrite Hnone; reflexivity |]).
    apply Forall_nil. }
  intros Hn Hs.
  pose proof (validate_emittedOk _ _ H) as Hok.
  assert (Hcat : Forall (fun t => In (category t) CATEGORIES) validTransactions).
  { eapply Forall_impl; [| exact Hok]. intros t (C & _ & _). exact C. }
  pose proof (totalCents_bound _ Hn Hs) as HB.
  assert (Hval : forall c,
    let v := Num.round2 (sumAbs (List.filter (fun t => String.eqb (category t) c)
                                   validTransactions)) in
    v = Num.flQ (inject_Z (categoryCents c validTransactions) / 100)
    /\ Qabs (v - inject_Z (categoryCents c validTransactions) / 100) <= 1 # 8388608
    /\ Qabs (v - categoryTotal c validTransactions) <= 1 # 200).
  { intros c. cbv zeta. rewrite categoryTotal_absSum. unfold categoryCents.
    apply round2_sumAbs_close.
    - apply Forall_filter, Hok.
    - pose proof (filter_length_le (fun t => String.eqb (category t) c)
                    validTransactions). lia.
    - pose proof (totalCents_filter (fun t => String.eqb (category t) c)
                    validTransactions). lia. }
  destruct (round2_sumAbs_close _ Hok Hn HB) as (Tv & Te & Ta).
  split.
  { unfold data, aggregate. simpl summary. rewrite summarize_unfold.
    repeat (apply Forall_cons;
            [eexists; split; [reflexivity |];
             split; [apply Hval | apply Hval] |]).
    apply Forall_nil. }
  split; [exact Tv |]. split; [exact Ta |].
  assert (P : inject_Z (List.fold_right Z.add 0%Z
                          (List.map (fun c => categoryCents c validTransactions)
                             CATEGORIES))
              == inject_Z (totalCents validTransactions)).
  { rewrite (categoryCents_partition _ Hcat). reflexivity. }
  cbn [List.map List.fold_right CATEGORIES] in P.
  rewrite !inject_Z_plus in P. change (inject_Z 0) with 0 in P.
  unfold data, aggregate. cbn [summary totalAmount]. rewrite summarize_unfold.
  unfold sumValues, StrMap.values. cbn [List.map List.fold_right CATEGORIES snd].
  destruct (Hval "Living Expenses"%string) as (_ & E1 & _).
  destruct (Hval "Groceries"%string) as (_ & E2 & _).
  destruct (Hval "Restaurants"%string) as (_ & E3 & _).
  destruct (Hval "Car"%string) as (_ & E4 & _).
  destruct (Hval "Entertainment"%string) as (_ & E5 & _).
  destruct (Hval "Miscellaneous"%string) as (_ & E6 & _).
  cbv zeta in E1, E2, E3, E4, E5, E6.
  apply Qabs_Qle_condition in E1, E2, E3, E4, E5, E6, Te.
  apply Qabs_Qle_condition. cents_lra.
Qed.

Lemma aggregation_correct_witness :
  validate [Samples.bell; Samples.nameless; Samples.unsure]
  = Return [recordOf Samples.bell 0; recordOf Samples.unsure 2]
  /\ totalAmount (aggregate [recordOf Samples.bell 0; recordOf Samples.unsure 2])
     = Num.flQ (12491 # 100)
  /\ Qabs (sumValues (summary (aggregate [recordOf Samples.bell 0;
                                          recordOf Samples.unsure 2]))
           - totalAmount (aggregate [recordOf Samples.bell 0;
                                     recordOf Samples.unsure 2])) <= 1 # 100.
Proof.
  split; [reflexivity |].
  destruct (aggregation_correct
              [Samples.bell; Samples.nameless; Samples.unsure]
              [recordOf Samples.bell 0; recordOf Samples.unsure 2] eq_refl)
    as (_ & _ & _ & B).
  destruct B as (_ & T & _ & S).
  - vm_compute. discriminate.
  - vm_compute. discriminate.
  - split; [| exact S]. rewrite T. vm_compute. reflexivity.
Defined.

(** C7, as stated, fails for large amounts: with records of 10000000000000000,
    1 and 1 in three categories, the total is 10000000000000000, the second
    and the third record being lost in the rounding of the sum, and the
    values of the summary add up to 10000000000000002. *)
Lemma large_amounts_miss_the_total :
  exists validTransactions,
    validate [Samples.fleet; Samples.apple; Samples.coffee] = Return validTransactions
    /\ List.map amount validTransactions = [- (10000000000000000); - (1); - (1)]
    /\ totalAmount (aggregate validTransactions) = 10000000000000000
    /\ StrMap.values (summary (aggregate validTransactions))
       = [0; 1; 1; 10000000000000000; 0; 0]
    /\ sumValues (summary (aggregate validTransactions)) == 10000000000000002
    /\ ~ Qabs (sumValues (summary (aggregate validTransactions))
               - totalAmount (aggregate validTransactions)) <= 1 # 100.
Proof.
  eexists. split; [vm_compute; reflexivity |].
  repeat split; try (vm_compute; reflexivity).
  vm_compute. intros H. apply H. reflexivity.
Qed.

(** *** The text handed to [JSON.parse] *)

(** The star of [[\s\S]*\}]: the longest run first, then shorter and shorter
    ones, until a closing brace follows *)
Lemma star_any_brace (n : nat) (s : string) :
  (String.length s <= n)%nat ->
  (fix star (n : nat) (s : string) {struct n} : option string :=
     match n with
     | O => closeBrace s
     | S n' =>
         match RegExp.run (RegExp.Cls JS.anyChar) s
                 (fun s' => if Nat.ltb (String.length s') (String.length s)
                            then star n' s' else None) with
         | Some a => Some a
         | None => closeBrace s
         end
     end) n s = afterLastBrace s.
Proof.
  set (F := fix star (n : nat) (s : string) {struct n} : option string :=
     match n with
     | O => closeBrace s
     | S n' =>
         match RegExp.run (RegExp.Cls JS.anyChar) s
                 (fun s' => if Nat.ltb (String.length s') (String.length s)
                            then star n' s' else None) with
         | Some a => Some a
         | None => closeBrace s
         end
     end).
  revert s. induction n as [| n IH]; intros s Hlen.
  - destruct s; [reflexivity | simpl in Hlen; lia].
  - destruct s as [| c s]; [reflexivity |].
    simpl in Hlen. specialize (IH s ltac:(lia)).
    change (F (S n) (String c s)) with
      (match (if Nat.ltb (String.length s) (String.length (String c s))
              then F n s else None) with
       | Some a => Some a
       | None => closeBrace (String c s)
       end).
    replace (Nat.ltb (String.length s) (String.length (String c s))) with true
      by (symmetry; apply Nat.ltb_lt; simpl; lia).
    rewrite IH. simpl afterLastBrace.
    destruct (afterLastBrace s); reflexivity.
Qed.

Lemma run_jsonObjectPattern (c : ascii) (r : string) :
  RegExp.run jsonObjectPattern (String c r) (fun rest => Some rest)
  = if Ascii.eqb c "{" then afterLastBrace r else None.
Proof.
  unfold jsonObjectPattern.
  cbn [TransactionProcessor.Seq RegExp.Lit RegExp.run].
  unfold JS.isChar at 1.
  destruct (Ascii.eqb c "{"); [| reflexivity].
  exact (star_any_brace (String.length r) r (le_n _)).
Qed.

Lemma afterLastBrace_upto (s : string) :
  match afterLastBrace s with
  | Some rest => exists m, uptoLastBrace s = Some m /\ s = m ++ rest
  | None => uptoLastBrace s = None
  end.
Proof.
  induction s as [| c s IH]; simpl; [reflexivity |].
  destruct (afterLastBrace s) as [rest |].
  - destruct IH as [m [Hm Hs]]. exists (String c m). rewrite Hm.
    split; [reflexivity |]. simpl. rewrite <- Hs. reflexivity.
  - rewrite IH. destruct (Ascii.eqb c "}"); [| reflexivity].
    exists (String c EmptyString). split; reflexivity.
Qed.

Lemma exec_jsonObjectPattern (c : ascii) (r : string) :
  RegExp.exec jsonObjectPattern (String c r)
  = if Ascii.eqb c "{" then
      match uptoLastBrace r, afterLastBrace r with
      | Some m, Some rest => Some (String c m, rest)
      | _, _ => None
      end
    else None.
Proof.
  unfold RegExp.exec. rewrite run_jsonObjectPattern.
  destruct (Ascii.eqb c "{"); [| reflexivity].
  pose proof (afterLastBrace_upto r) as H.
  destruct (afterLastBrace r) as [rest |].
  - destruct H as [m [Hm Hs]]. rewrite Hm. f_equal. f_equal.
    assert (E : String c r = String c m ++ rest) by (simpl; congruence).
    rewrite E at 2. rewrite E at 1. apply take_app.
  - rewrite H. reflexivity.
Qed.

Lemma no_brace_no_match (s : string) :
  uptoLastBrace s = None -> RegExp.search jsonObjectPattern s = None.
Proof.
  induction s as [| c s IH]; intros H.
  - reflexivity.
  - simpl in H. destruct (uptoLastBrace s) eqn:U; [discriminate |].
    simpl RegExp.search. rewrite exec_jsonObjectPattern, U.
    rewrite (IH eq_refl). destruct (Ascii.eqb c "{"); reflexivity.
Qed.

(** The match of [/\{[\s\S]*\}/] is the text from the first opening brace
    to the last closing brace *)
Lemma firstMatch_braceSpan (s : string) :
  RegExp.firstMatch jsonObjectPattern s = braceSpan s.
Proof.
  unfold RegExp.firstMatch. induction s as [| c s IH]; [reflexivity |].
  simpl RegExp.search. rewrite exec_jsonObjectPattern. simpl braceSpan.
  destruct (Ascii.eqb c "{").
  - pose proof (afterLastBrace_upto s) as H.
    destruct (uptoLastBrace s) as [m |] eqn:U.
    + destruct (afterLastBrace s) as [rest |]; [reflexivity |]. discriminate.
    + rewrite (no_brace_no_match s U).
      destruct (afterLastBrace s); reflexivity.
  - destruct (RegExp.search jsonObjectPattern s) as [[[b m] a] |];
      rewrite <- IH; reflexivity.
Qed.

Lemma processTransactionText_Processed (aiResponse : string) (data : ProcessedData) :
  processTransactionText aiResponse = Processed data ->
  exists rawTransactions validTransactions,
    validate rawTransactions = Return validTransactions
    /\ data = aggregate validTransactions.
Proof.
  unfold processTransactionText. destruct aiResponse as [| c r]; [discriminate |].
  destruct (JSON.parse (jsonCandidate (String c r))) as [parsedData |];
    [| discriminate].
  destruct (rawTransactionsOf parsedData) as [raw |]; [| discriminate].
  destruct (validate raw) as [valid |] eqn:V; [| discriminate].
  intros H. exists raw, valid. split; [exact V |]. congruence.
Qed.

(** C4: the validator parses one text only: the text from the first opening
    brace to the last closing brace when the answer has one, the whole answer
    otherwise.  It signals ParseFailure exactly when the answer is not empty
    and that one text is not JSON; the whole answer is not tried after the
    text between the braces has failed. *)
Theorem one_parse_attempt (aiResponse : string) :
  jsonCandidate aiResponse =
    match braceSpan aiResponse with
    | Some jsonMatch => jsonMatch
    | None => aiResponse
    end
  /\ (processTransactionText aiResponse = ParseFailure
      <-> aiResponse <> EmptyString
          /\ JSON.parse (jsonCandidate aiResponse) = None).
Proof.
  split.
  - unfold jsonCandidate. rewrite firstMatch_braceSpan. reflexivity.
  - unfold processTransactionText. destruct aiResponse as [| c r].
    + split; [discriminate | intros [H _]; contradiction].
    + destruct (JSON.parse (jsonCandidate (String c r))) as [parsedData |].
      * split; [| intros [_ H]; discriminate].
        destruct (rawTransactionsOf parsedData) as [raw |]; [| discriminate].
        destruct (validate raw); discriminate.
      * split; [intros _; split; [discriminate | reflexivity] | reflexivity].
Qed.

(** Scenario 4 of the specification: the answer is wrapped in prose, the
    amount is made negative, the unknown category becomes Miscellaneous and
    the confidence 1.5 is clamped to 1 *)
Example scenario4_validated :
  exists data t,
    processTransactionText Samples.scenario4 = Processed data
    /\ transactions data = [t]
    /\ id t = Str "txn_001"
    /\ date t = Str "2025-07-14"
    /\ description t = "Bell Canada"%string
    /\ amount t = Num.flQ (- (11991 # 100))
    /\ category t = "Miscellaneous"%string
    /\ confidence t = Num.Fin 1.
Proof.
  eexists. eexists. split; [vm_compute; reflexivity |].
  repeat split.
Qed.

(** C4, as stated, fails on an answer that is an array of two objects: the
    text between the braces is not JSON, the whole answer is, and the
    validator signals ParseFailure. *)
Lemma no_fallback_to_whole_text :
  exists jsonMatch,
    braceSpan Samples.twoObjects = Some jsonMatch
    /\ JSON.parse jsonMatch = None
    /\ JSON.parse Samples.twoObjects
       = Some (Array [Object [("a"%string, Number 1)];
                      Object [("b"%string, Number 2)]])
    /\ processTransactionText Samples.twoObjects = ParseFailure.
Proof.
  eexists. split; [vm_compute; reflexivity |].
  split; [vm_compute; reflexivity |].
  split; vm_compute; reflexivity.
Qed.

End ValidatorFacts.

(** ** The amounts that the two routes emit *)

Section EmittedAmounts.

Import TransactionProcessor.

Lemma parseLine_amount (currentYear : nat) (rawLine : string) (t : RawTransaction) :
  parseLine currentYear rawLine = Some t ->
  amount t = snd (extractDescriptionAndAmount (JS.trim rawLine)).
Proof.
  unfold parseLine.
  destruct (JS.trim rawLine) as [| c line] eqn:T; [discriminate |].
  destruct (isHeader (String c line)); [discriminate |].
  destruct (RegExp.firstMatch transactionPattern (String c line)); [| discriminate].
  destruct (extractDescriptionAndAmount (String c line)) as [description a].
  destruct description; [discriminate |].
  intros H. inversion H. reflexivity.
Qed.

Lemma filterMap_In {A B : Type} (f : A -> option B) (l : list A) (y : B) :
  In y (filterMap f l) -> exists x, In x l /\ f x = Some y.
Proof.
  induction l as [| x l IH]; simpl; [intros [] |].
  destruct (f x) as [y' |] eqn:E.
  - intros [-> | H].
    + exists x. split; [left; reflexivity | exact E].
    + destruct (IH H) as [x' [Hin Hx]]. exists x'. split; [right |]; assumption.
  - intros H. destruct (IH H) as [x' [Hin Hx]]. exists x'.
    split; [right |]; assumption.
Qed.

Lemma classifyFrom_amounts (fileName : string) (l : list RawTransaction) :
  forall index,
    List.map ProcessPdf.amount (ProcessPdf.classifyFrom fileName index l)
    = List.map amount l.
Proof.
  induction l as [| t l IH]; intros index; simpl; [reflexivity |].
  rewrite IH. reflexivity.
Qed.

(** C1: the amounts of the two routes.  The validator of the model's answer
    never emits a positive amount; for an accepted entry it emits a negative
    amount when the hundredfold of the entry's amount, as a binary64 number,
    is more than one half away from 0, as it is for every amount at least one
    cent away from 0.  The line parser emits no zero amount; each of its records comes from a line,
    and its amount is negative when that line, without its leading date, has
    one of the words Withdrawal, Debit, Purchase and Payment, and positive
    when it has none; the local route hands out all these records with their
    amounts, the positive ones included. *)
Theorem emitted_amounts :
  (forall aiResponse data,
      Route.processTransactionText aiResponse = Route.Processed data ->
      Forall (fun t => Route.amount t <= 0) (Route.transactions data))
  /\ (forall rawTransactions validTransactions,
      Route.validate rawTransactions = Route.Return validTransactions ->
      Forall (fun t => Route.amount t <= 0) validTransactions)
  /\ (forall transaction index t a,
         Route.processEntry transaction index = Route.Push t ->
         Route.prop transaction "amount" = Some (JSON.Number a) ->
         (1 # 2 < Num.flQ (Qabs a * 100) -> Route.amount t < 0)
         /\ (1 # 100 <= Qabs a -> Route.amount t < 0))
  /\ (forall currentYear text,
         Forall (fun t =>
                   isNotZero (amount t) = true
                   /\ exists rawLine,
                        In rawLine (JS.split newline text)
                        /\ parseLine currentYear rawLine = Some t
                        /\ if hasDebitWord (cleanLineOf (JS.trim rawLine))
                           then ltZero (amount t) = true
                           else gtZero (amount t) = true)
           (parseTransactionText currentYear text))
  /\ (forall currentYear fileName text data,
         ProcessPdf.POST currentYear fileName text = ProcessPdf.Done data ->
         List.map ProcessPdf.amount (ProcessPdf.transactions data)
         = List.map amount (parseTransactionText currentYear text)).
Proof.
  split; [| split; [| split; [| split]]].
  - intros aiResponse data H.
    destruct (processTransactionText_Processed _ _ H) as (raw & valid & Hv & ->).
    apply validate_emittedOk in Hv. simpl.
    eapply Forall_impl; [| exact Hv]. intros t (_ & _ & L). exact L.
  - intros raw valid H. apply validate_emittedOk in H.
    eapply Forall_impl; [| exact H]. intros t (_ & _ & L). exact L.
  - intros transaction index t a H Ha.
    destruct (processEntry_Push _ _ _ H)
      as (vdate & text & a' & conf & _ & _ & Ha' & _ & _ & _ & _ & ->).
    rewrite Ha in Ha'. inversion Ha'; subst a'. cbn [Route.amount].
    destruct (round2_sign a) as [Hneg _].
    split; [exact Hneg |].
    intros Habs. apply Hneg, hundredfold_of_cent, Habs.
  - intros currentYear text. apply Forall_forall. intros t Hin.
    unfold parseTransactionText in Hin. apply filter_In in Hin.
    destruct Hin as [Hin Hnz]. split; [exact Hnz |].
    apply filterMap_In in Hin. destruct Hin as (rawLine & Hline & Hparse).
    exists rawLine. split; [exact Hline |]. split; [exact Hparse |].
    rewrite (parseLine_amount _ _ _ Hparse) in *.
    apply extracted_amount_sign. exact Hnz.
  - intros currentYear fileName text data H.
    unfold ProcessPdf.POST in H.
    destruct (JS.trim text); [discriminate |].
    destruct (parseTransactionText currentYear text) as [| r rs]; [discriminate |].
    apply (f_equal (fun r => match r with
                             | ProcessPdf.Done d => ProcessPdf.transactions d
                             | _ => []
                             end)) in H.
    cbv beta iota in H. cbn [ProcessPdf.transactions] in H.
    rewrite <- H. apply classifyFrom_amounts.
Qed.

(** C1, as stated, fails on the local route: the sample line has none of
    the four words in their exact spelling, and its record goes out with the
    positive amount 254.18. *)
Lemma local_route_emits_positive_amount :
  exists data t,
    ProcessPdf.POST 2025 "statement.pdf"
      "Jul 14 PREAUTHORIZED DEBIT TOYOTA FINANCE 254.18" = ProcessPdf.Done data
    /\ In t (ProcessPdf.transactions data)
    /\ ProcessPdf.amount t = fl (25418 # 100)
    /\ gtZero (ProcessPdf.amount t) = true
    /\ ltZero (ProcessPdf.amount t) = false.
Proof.
  eexists. eexists. split; [vm_compute; reflexivity |].
  split; [left; reflexivity |]. repeat split; vm_compute; reflexivity.
Qed.

(** An accepted entry whose amount is 0 goes out with the amount 0 *)
Example zero_amount_is_emitted :
  exists t, Route.processEntry Samples.free 0 = Route.Push t
            /\ Route.amount t == 0.
Proof. eexists. split; [vm_compute; reflexivity | reflexivity]. Qed.

(** So does an entry whose amount is 0.005: the hundredfold of the binary64
    number nearest to 0.005 is rounded to one half, and then to 0 *)
Example half_cent_is_emitted_as_zero :
  exists t, Route.processEntry
              (Samples.entry "2025-07-16" "Free sample" (1 # 200) []) 0
            = Route.Push t
            /\ 1 # 200 < Num.flQ (1 # 200)
            /\ Num.flQ (Num.flQ (1 # 200) * 100) == 1 # 2
            /\ Route.amount t == 0.
Proof.
  eexists. split; [vm_compute; reflexivity |].
  repeat split; vm_compute; reflexivity.
Qed.

End EmittedAmounts.

(** * Further properties of the pipeline and of the code around it *)

(** ** More about strings *)

Section MoreStringFacts.

Lemma lowerChar_idem (c : ascii) : JS.lowerChar (JS.lowerChar c) = JS.lowerChar c.
Proof. destruct c as [[] [] [] [] [] [] [] []]; reflexivity. Qed.

Lemma toLowerCase_idem (s : string) :
  JS.toLowerCase (JS.toLowerCase s) = JS.toLowerCase s.
Proof.
  induction s as [| c r IH]; simpl; [reflexivity |].
  rewrite lowerChar_idem, IH. reflexivity.
Qed.

Lemma toLowerCase_trimStart (s : string) :
  JS.toLowerCase (JS.trimStart s) = JS.trimStart (JS.toLowerCase s).
Proof.
  induction s as [| c r IH]; simpl; [reflexivity |].
  rewrite lowerChar_whitespace.
  destruct (JS.isWhiteSpace c); [exact IH | reflexivity].
Qed.

Lemma toLowerCase_trimEnd (s : string) :
  JS.toLowerCase (JS.trimEnd s) = JS.trimEnd (JS.toLowerCase s).
Proof.
  induction s as [| c r IH]; simpl; [reflexivity |].
  rewrite <- IH, lowerChar_whitespace.
  destruct (JS.trimEnd r) as [| c' r']; simpl.
  - destruct (JS.isWhiteSpace c); reflexivity.
  - reflexivity.
Qed.

Lemma toLowerCase_trim (s : string) :
  JS.toLowerCase (JS.trim s) = JS.trim (JS.toLowerCase s).
Proof.
  unfold JS.trim. rewrite toLowerCase_trimEnd, toLowerCase_trimStart. reflexivity.
Qed.

Lemma trimStart_head (s : string) :
  JS.headIs JS.notWhiteSpace (JS.trimStart s) = true.
Proof.
  induction s as [| c r IH]; simpl; [reflexivity |].
  destruct (JS.isWhiteSpace c) eqn:E; [exact IH |].
  simpl. unfold JS.notWhiteSpace. rewrite E. reflexivity.
Qed.

Lemma trimStart_fixed (s : string) :
  JS.headIs JS.notWhiteSpace s = true -> JS.trimStart s = s.
Proof.
  destruct s as [| c r]; simpl; [reflexivity |].
  unfold JS.notWhiteSpace.
  destruct (JS.isWhiteSpace c); [discriminate | reflexivity].
Qed.

Lemma trimEnd_head (s : string) :
  JS.headIs JS.notWhiteSpace s = true ->
  JS.headIs JS.notWhiteSpace (JS.trimEnd s) = true.
Proof.
  destruct s as [| c r]; simpl; [reflexivity |].
  intros H. destruct (JS.trimEnd r); simpl.
  - unfold JS.notWhiteSpace in *.
    destruct (JS.isWhiteSpace c) eqn:W; [discriminate |].
    simpl. rewrite W. reflexivity.
  - exact H.
Qed.

Lemma trimEnd_idem (s : string) : JS.trimEnd (JS.trimEnd s) = JS.trimEnd s.
Proof.
  induction s as [| c r IH]; simpl; [reflexivity |].
  destruct (JS.trimEnd r) as [| c' r'] eqn:E.
  - destruct (JS.isWhiteSpace c) eqn:W; simpl; [reflexivity |].
    rewrite W. reflexivity.
  - cbn [JS.trimEnd]. cbn [JS.trimEnd] in IH. rewrite IH. reflexivity.
Qed.

Lemma trim_idem (s : string) : JS.trim (JS.trim s) = JS.trim s.
Proof.
  unfold JS.trim.
  rewrite (trimStart_fixed (JS.trimEnd (JS.trimStart s))).
  - apply trimEnd_idem.
  - apply trimEnd_head, trimStart_head.
Qed.

(** [trimStart] keeps a suffix, [trimEnd] a prefix *)
Lemma trimStart_suffix (s : string) :
  exists blank, s = blank ++ JS.trimStart s /\ JS.all JS.isWhiteSpace blank = true.
Proof.
  induction s as [| c r (blank & E & B)]; simpl.
  - exists EmptyString. split; reflexivity.
  - destruct (JS.isWhiteSpace c) eqn:W.
    + exists (String c blank). simpl. rewrite W, B, <- E. split; reflexivity.
    + exists EmptyString. split; reflexivity.
Qed.

Lemma trimEnd_prefix (s : string) :
  exists blank, s = JS.trimEnd s ++ blank /\ JS.all JS.isWhiteSpace blank = true.
Proof.
  induction s as [| c r (blank & E & B)]; simpl.
  - exists EmptyString. split; reflexivity.
  - destruct (JS.trimEnd r) as [| c' r'] eqn:T.
    + destruct (JS.isWhiteSpace c) eqn:W.
      * exists (String c blank). simpl. simpl in E. rewrite W, B, <- E.
        split; reflexivity.
      * exists r. simpl in E. split; [reflexivity | rewrite E; exact B].
    + exists blank. split; [| exact B].
      change (String c (String c' r') ++ blank) with (String c (String c' r' ++ blank)).
      rewrite <- E. reflexivity.
Qed.

Lemma trim_infix (s : string) :
  exists before after, s = before ++ JS.trim s ++ after.
Proof.
  unfold JS.trim.
  destruct (trimStart_suffix s) as (b & E & _).
  destruct (trimEnd_prefix (JS.trimStart s)) as (a & E' & _).
  exists b, a. rewrite <- E'. exact E.
Qed.

Lemma length_trimStart (s : string) :
  (String.length (JS.trimStart s) <= String.length s)%nat.
Proof.
  destruct (trimStart_suffix s) as (b & E & _).
  rewrite E at 2. rewrite length_app. lia.
Qed.

Lemma length_trimEnd (s : string) :
  (String.length (JS.trimEnd s) <= String.length s)%nat.
Proof.
  destruct (trimEnd_prefix s) as (b & E & _).
  rewrite E at 2. rewrite length_app. lia.
Qed.

Lemma length_trim (s : string) :
  (String.length (JS.trim s) <= String.length s)%nat.
Proof.
  unfold JS.trim.
  pose proof (length_trimEnd (JS.trimStart s)). pose proof (length_trimStart s). lia.
Qed.

(** A text goes through [trimStart] when a character that is not white
    space starts what follows it, and through [trimEnd] when one ends what
    precedes it *)
Lemma trimStart_app (b x : string) :
  JS.headIs JS.notWhiteSpace x = true -> x <> EmptyString ->
  JS.trimStart (b ++ x) = JS.trimStart b ++ x.
Proof.
  intros H N. induction b as [| c r IH]; simpl.
  - apply trimStart_fixed. exact H.
  - destruct (JS.isWhiteSpace c); [exact IH | reflexivity].
Qed.

Lemma trimEnd_app (x a : string) (c : ascii) :
  JS.isWhiteSpace c = false ->
  JS.trimEnd ((x ++ String c EmptyString) ++ a)
  = (x ++ String c EmptyString) ++ JS.trimEnd a.
Proof.
  intros W. induction x as [| e x IH].
  - simpl. destruct (JS.trimEnd a); [rewrite W |]; reflexivity.
  - change (JS.trimEnd (String e ((x ++ String c EmptyString) ++ a))
            = String e ((x ++ String c EmptyString) ++ JS.trimEnd a)).
    cbn [JS.trimEnd]. rewrite IH.
    destruct x; reflexivity.
Qed.

(** One-character patterns *)
Lemma includes_char (s : string) (c : ascii) :
  JS.includes s (String c EmptyString) = JS.any (JS.isChar c) s.
Proof.
  induction s as [| x r IH]; [reflexivity |].
  cbn [JS.includes JS.any JS.startsWith]. rewrite IH.
  unfold JS.isChar. rewrite andb_true_r. reflexivity.
Qed.

Lemma any_false_all (p : ascii -> bool) (s : string) :
  JS.any p s = false <-> JS.all (fun c => negb (p c)) s = true.
Proof.
  induction s as [| c r IH]; simpl; [tauto |].
  rewrite orb_false_iff, andb_true_iff, negb_true_iff, IH. tauto.
Qed.

Lemma all_weaken (p q : ascii -> bool) (s : string) :
  (forall c, p c = true -> q c = true) ->
  JS.all p s = true -> JS.all q s = true.
Proof.
  intros I. induction s as [| c r IH]; simpl; [reflexivity |].
  rewrite !andb_true_iff. intros [H1 H2]. split; [apply I, H1 | apply IH, H2].
Qed.

(** Splitting at a character *)
Lemma split_nonempty (sep : ascii) (s : string) : JS.split sep s <> [].
Proof.
  destruct s as [| c r]; simpl; [discriminate |].
  destruct (Ascii.eqb c sep); [discriminate |].
  destruct (JS.split sep r); discriminate.
Qed.

Lemma split_app (sep : ascii) (a b : string) :
  JS.split sep (a ++ String sep b) = (JS.split sep a ++ JS.split sep b)%list.
Proof.
  induction a as [| c r IH]; simpl.
  - rewrite Ascii.eqb_refl. reflexivity.
  - destruct (Ascii.eqb c sep); [rewrite IH; reflexivity |].
    rewrite IH.
    pose proof (split_nonempty sep r) as N.
    destruct (JS.split sep r); [congruence | reflexivity].
Qed.

Lemma split_none (sep : ascii) (s : string) :
  JS.any (JS.isChar sep) s = false -> JS.split sep s = [s].
Proof.
  induction s as [| c r IH]; simpl; [reflexivity |].
  unfold JS.isChar at 1. rewrite orb_false_iff. intros [E H].
  rewrite E, (IH H). reflexivity.
Qed.

Lemma split_any (p : ascii -> bool) (sep : ascii) (s : string) :
  JS.any p s = false ->
  Forall (fun piece => JS.any p piece = false) (JS.split sep s).
Proof.
  induction s as [| c r IH]; simpl.
  - intros _. constructor; [reflexivity | constructor].
  - rewrite orb_false_iff. intros [Hc H]. specialize (IH H).
    destruct (Ascii.eqb c sep).
    + constructor; [reflexivity | exact IH].
    + destruct (JS.split sep r) as [| p0 ps]; constructor.
      * simpl. rewrite Hc. reflexivity.
      * constructor.
      * simpl. rewrite Hc. inversion IH. assumption.
      * inversion IH. assumption.
Qed.

End MoreStringFacts.

(** ** The keyword classifier: the table, ties and suggestions *)

Section ClassifierTable.

Import Classifier.

Lemma set_In {V : Type} (m : StrMap.t V) (k : string) (v : V) (c : string) (x : V) :
  In (c, x) (StrMap.set m k v) -> (c = k /\ x = v) \/ In (c, x) m.
Proof.
  induction m as [| [k' v'] r IH]; simpl.
  - intros [H | []]. left. inversion H. split; reflexivity.
  - destruct (String.eqb k' k) eqn:E.
    + apply String.eqb_eq in E. subst k'.
      intros [H | H]; [left; inversion H; split; reflexivity | right; right; exact H].
    + intros [H | H]; [right; left; exact H |].
      destruct (IH H) as [H' | H']; [left; exact H' | right; right; exact H'].
Qed.

Lemma set_keys {V : Type} (m : StrMap.t V) (k : string) (v : V) (c : string) :
  In c (StrMap.keys (StrMap.set m k v)) -> c = k \/ In c (StrMap.keys m).
Proof.
  unfold StrMap.keys. rewrite !in_map_iff.
  intros [[c' x] [<- H]]. simpl.
  destruct (set_In _ _ _ _ _ H) as [[-> _] | H']; [left; reflexivity |].
  right. exists (c', x). split; [reflexivity | exact H'].
Qed.

(** A key that the map lacks goes to its end *)
Lemma set_absent {V : Type} (m : StrMap.t V) (k : string) (v : V) :
  StrMap.get m k = None -> StrMap.set m k v = (m ++ [(k, v)])%list.
Proof.
  induction m as [| [k' v'] r IH]; simpl; [reflexivity |].
  destruct (String.eqb k' k); [discriminate |].
  intros H. rewrite (IH H). reflexivity.
Qed.

Lemma get_In {V : Type} (m : StrMap.t V) (k : string) :
  StrMap.get m k = None -> ~ In k (StrMap.keys m).
Proof.
  induction m as [| [k' v'] r IH]; simpl; [intros _ [] |].
  destruct (String.eqb k' k) eqn:E; [discriminate |].
  intros H [H' | H']; [| exact (IH H H')].
  subst k'. rewrite String.eqb_refl in E. discriminate.
Qed.

Lemma get_set_other {V : Type} (m : StrMap.t V) (k c : string) (v : V) :
  c <> k -> StrMap.get (StrMap.set m k v) c = StrMap.get m c.
Proof.
  intros N. induction m as [| [k' v'] r IH]; simpl.
  - destruct (String.eqb k c) eqn:E; [| reflexivity].
    apply String.eqb_eq in E. congruence.
  - destruct (String.eqb k' k) eqn:E; simpl.
    + apply String.eqb_eq in E. subst k'.
      destruct (String.eqb k c) eqn:E'; [| reflexivity].
      apply String.eqb_eq in E'. congruence.
    + rewrite IH. reflexivity.
Qed.

(** What a set does to an entry of the map *)
Lemma set_keeps {V : Type} (m : StrMap.t V) (k : string) (v : V) (c : string) (x : V) :
  In (c, x) m ->
  In (c, x) (StrMap.set m k v)
  \/ (c = k /\ StrMap.get m k = Some x /\ In (k, v) (StrMap.set m k v)).
Proof.
  induction m as [| [k' v'] r IH]; simpl; [intros [] |].
  destruct (String.eqb k' k) eqn:E.
  - intros [H | H].
    + inversion H. subst k' v'. apply String.eqb_eq in E. subst c.
      right. split; [reflexivity |]. split; [reflexivity | left; reflexivity].
    + left. right. exact H.
  - intros [H | H]; [left; left; exact H |].
    destruct (IH H) as [H' | (-> & G & H')].
    + left. right. exact H'.
    + right. split; [reflexivity |]. split; [exact G | right; exact H'].
Qed.

Variables (normalizedDesc : string) (words : list string).

Local Abbreviation step := (scoreStep normalizedDesc words).

(** The keys of the table of scores are categories of the training table *)
Lemma scoreStep_keys (acc : Scores) (training : TrainingData) (c : string) :
  In c (StrMap.keys (fst (step acc training))) ->
  c = t_category training \/ In c (StrMap.keys (fst acc)).
Proof.
  unfold scoreStep.
  destruct (StrMap.has (fst acc) (t_category training)) eqn:Hh;
    destruct (scoreEntry normalizedDesc words training) as [score reasons];
    destruct (Num.lt 0 score); cbn [fst snd]; intros H.
  - destruct acc as [sc rs]. cbn [fst snd] in *.
    apply set_keys in H. exact H.
  - destruct acc as [sc rs]. cbn [fst snd] in *. right. exact H.
  - apply set_keys in H. destruct H as [H | H]; [left; exact H |].
    apply set_keys in H. exact H.
  - apply set_keys in H. exact H.
Qed.

Lemma scoreAll_keys (trainingData : list TrainingData) :
  forall (acc : Scores) (c : string),
    In c (StrMap.keys (fst (List.fold_left step trainingData acc))) ->
    In c (List.map t_category trainingData) \/ In c (StrMap.keys (fst acc)).
Proof.
  induction trainingData as [| training r IH]; simpl; intros acc c H.
  - right. exact H.
  - destruct (IH _ _ H) as [H' | H']; [left; right; exact H' |].
    destruct (scoreStep_keys _ _ _ H') as [-> | H'']; [left; left; reflexivity |].
    right. exact H''.
Qed.

(** The scan for the best category: the first entry with the highest
    score, if a score is positive *)
Lemma findBest_first_max (reasons : StrMap.t (list string))
  (scores : list (string * Q)) :
  let b := List.fold_left (bestStep reasons) scores
             ("Miscellaneous"%string, 0, []) in
  (b = ("Miscellaneous"%string, 0, []) /\ forall x, In x scores -> snd x <= 0)
  \/ exists pre post c s,
       scores = (pre ++ (c, s) :: post)%list
       /\ b = (c, s, getReasons reasons c)
       /\ 0 < s
       /\ (forall x, In x pre -> snd x < s)
       /\ (forall x, In x post -> snd x <= s).
Proof.
  induction scores as [| [c' s'] scores IH] using rev_ind; cbv zeta.
  - left. split; [reflexivity | intros x []].
  - rewrite fold_left_app. cbn [List.fold_left].
    cbv zeta in IH.
    destruct IH as [[E A] | (pre & post & c & s & E & B & P & L & R)].
    + rewrite E. cbn [bestStep].
      destruct (Num.lt 0 s') eqn:C.
      * right. exists scores, [], c', s'.
        apply lt_true in C.
        split; [reflexivity |]. split; [reflexivity |]. split; [exact C |].
        split; [| intros x []].
        intros x Hx. apply Qle_lt_trans with 0; [apply A; exact Hx | exact C].
      * left. split; [reflexivity |].
        apply lt_false in C.
        intros x Hx. apply in_app_or in Hx.
        destruct Hx as [Hx | [<- | []]]; [apply A; exact Hx | exact C].
    + rewrite B. cbn [bestStep].
      destruct (Num.lt s s') eqn:C.
      * right. exists (scores ++ [])%list, [], c', s'.
        rewrite app_nil_r.
        apply lt_true in C.
        split; [reflexivity |]. split; [reflexivity |].
        split; [apply Qlt_trans with s; assumption |].
        split; [| intros x []].
        intros x Hx. rewrite E in Hx. apply in_app_or in Hx.
        destruct Hx as [Hx | [<- | Hx]].
        -- apply Qlt_trans with s; [apply L; exact Hx | exact C].
        -- exact C.
        -- apply Qle_lt_trans with s; [apply R; exact Hx | exact C].
      * right. exists pre, (post ++ [(c', s')])%list, c, s.
        apply lt_false in C.
        split; [rewrite E, <- app_assoc; reflexivity |].
        split; [reflexivity |]. split; [exact P |]. split; [exact L |].
        intros x Hx. apply in_app_or in Hx.
        destruct Hx as [Hx | [<- | []]]; [apply R; exact Hx | exact C].
Qed.

Lemma has_keys {V : Type} (m : StrMap.t V) (k : string) :
  StrMap.has m k = List.existsb (fun k' => String.eqb k' k) (StrMap.keys m).
Proof.
  unfold StrMap.has.
  induction m as [| [k' v'] r IH]; simpl; [reflexivity |].
  destruct (String.eqb k' k); [reflexivity | exact IH].
Qed.

Lemma keys_set {V : Type} (m : StrMap.t V) (k : string) (v : V) :
  StrMap.keys (StrMap.set m k v) = addKey (StrMap.keys m) k.
Proof.
  unfold addKey. rewrite <- has_keys. unfold StrMap.has.
  induction m as [| [k' v'] r IH]; simpl; [reflexivity |].
  destruct (String.eqb k' k) eqn:E; simpl; [reflexivity |].
  rewrite IH. destruct (StrMap.get r k); reflexivity.
Qed.

Lemma addKey_idem (ks : list string) (c : string) :
  addKey (addKey ks c) c = addKey ks c.
Proof.
  unfold addKey at 2.
  destruct (List.existsb (fun k => String.eqb k c) ks) eqn:E.
  - unfold addKey. rewrite E. reflexivity.
  - unfold addKey. rewrite existsb_app, E. simpl.
    rewrite String.eqb_refl. reflexivity.
Qed.

Lemma addKey_has (ks : list string) (c : string) :
  List.existsb (fun k => String.eqb k c) ks = true -> addKey ks c = ks.
Proof. unfold addKey. intros ->. reflexivity. Qed.

Lemma scoreStep_keys_eq (acc : Scores) (training : TrainingData) :
  StrMap.keys (fst (step acc training))
  = addKey (StrMap.keys (fst acc)) (t_category training).
Proof.
  unfold scoreStep.
  destruct (StrMap.has (fst acc) (t_category training)) eqn:Hh;
    destruct (scoreEntry normalizedDesc words training) as [score reasons];
    destruct (Num.lt 0 score); destruct acc as [sc rs]; cbn [fst snd] in *.
  - rewrite keys_set. reflexivity.
  - rewrite has_keys in Hh. rewrite addKey_has; [reflexivity | exact Hh].
  - rewrite !keys_set. apply addKey_idem.
  - rewrite keys_set. reflexivity.
Qed.

Lemma scoreAll_keys_eq (trainingData : list TrainingData) :
  forall acc : Scores,
    StrMap.keys (fst (List.fold_left step trainingData acc))
    = List.fold_left addKey (List.map t_category trainingData)
        (StrMap.keys (fst acc)).
Proof.
  induction trainingData as [| training r IH]; simpl; intros acc; [reflexivity |].
  rewrite IH, scoreStep_keys_eq. reflexivity.
Qed.

(** A new entry of the table lowers no score *)
Lemma scoreStep_grows (acc : Scores) (training : TrainingData) (c : string) (s : Q) :
  In (c, s) (fst acc) ->
  exists s', In (c, s') (fst (step acc training)) /\ s <= s'.
Proof.
  intros H. unfold scoreStep.
  destruct (scoreEntry normalizedDesc words training) as [score reasons].
  destruct acc as [sc rs]. cbn [fst snd] in *.
  assert (G : forall m : StrMap.t Q,
             In (c, s) m -> 0 < score ->
             exists s', In (c, s')
                          (StrMap.set m (t_category training)
                             (getScore m (t_category training) + score))
                        /\ s <= s').
  { intros m Hm L.
    destruct (set_keeps m (t_category training)
                (getScore m (t_category training) + score) c s Hm)
      as [K | (-> & K1 & K2)].
    - exists s. split; [exact K | apply Qle_refl].
    - exists (getScore m (t_category training) + score).
      split; [exact K2 |]. unfold getScore. rewrite K1. lra. }
  destruct (StrMap.has sc (t_category training)) eqn:Hh.
  - destruct (Num.lt 0 score) eqn:L; cbn [fst].
    + apply G; [exact H | apply lt_true; exact L].
    + exists s. split; [exact H | apply Qle_refl].
  - assert (H1 : In (c, s) (StrMap.set sc (t_category training) 0)).
    { destruct (set_keeps sc (t_category training) 0 c s H) as [K | (-> & K1 & _)];
        [exact K |].
      unfold StrMap.has in Hh. rewrite K1 in Hh. discriminate. }
    destruct (Num.lt 0 score) eqn:L; cbn [fst].
    + apply G; [exact H1 | apply lt_true; exact L].
    + exists s. split; [exact H1 | apply Qle_refl].
Qed.

(** Reasons that agree on the keys of the scores give the same scan *)
Lemma bestStep_fold_ext (r1 r2 : StrMap.t (list string))
  (scores : list (string * Q)) :
  (forall c, In c (StrMap.keys scores) -> getReasons r1 c = getReasons r2 c) ->
  forall best,
    List.fold_left (bestStep r1) scores best
    = List.fold_left (bestStep r2) scores best.
Proof.
  induction scores as [| [c s] scores IH]; simpl; intros A best; [reflexivity |].
  assert (E : bestStep r1 best (c, s) = bestStep r2 best (c, s)).
  { destruct best as [[bc bs] br]. cbn [bestStep].
    rewrite (A c) by (left; reflexivity). reflexivity. }
  rewrite E. apply IH. intros c' Hc'. apply A. right. exact Hc'.
Qed.

End ClassifierTable.

Section ClassifierResults.

Import Classifier.

Variable trainingData : list TrainingData.
Variable description : string.

Local Abbreviation normalizedDesc := (JS.trim (JS.toLowerCase description)).
Local Abbreviation words := (RegExp.split (RegExp.Plus RegExp.s) normalizedDesc).

Lemma classifyWith_unfold :
  classifyWith trainingData description =
  mkResult (fst (fst (findBest (scoreAll trainingData normalizedDesc words))))
    (finalConfidence (winningScore trainingData description))
    (JS.join ", " (List.firstn 3
       (snd (findBest (scoreAll trainingData normalizedDesc words))))).
Proof.
  unfold classifyWith, winningScore.
  destruct (findBest (scoreAll trainingData normalizedDesc words)) as [[c s] r].
  reflexivity.
Qed.

Lemma winningScore_nonneg : 0 <= winningScore trainingData description.
Proof.
  unfold winningScore, findBest.
  apply (bestStep_fold_ge
           (snd (scoreAll trainingData normalizedDesc words))
           (fst (scoreAll trainingData normalizedDesc words))
           ("Miscellaneous"%string, 0, [])).
Qed.

End ClassifierResults.

Lemma finalConfidence_mono (a b : Q) :
  a <= b -> Classifier.finalConfidence a <= Classifier.finalConfidence b.
Proof.
  intros H. rewrite !finalConfidence_unfold.
  assert (M : Qmin (a / 2) 1 <= Qmin (b / 2) 1).
  { apply Q.min_le_compat_r. unfold Qdiv. apply Qmult_le_compat_r; [exact H |].
    discriminate. }
  revert M. generalize (Qmin (a / 2) 1) (Qmin (b / 2) 1). intros x y M.
  destruct (Num.lt (5 # 10) x) eqn:X; destruct (Num.lt (5 # 10) y) eqn:Y.
  - apply Q.max_le_compat_r. exact M.
  - apply lt_true in X. apply lt_false in Y. lra.
  - apply lt_false in X.
    apply Qle_trans with (7 # 10); [| apply Q.le_max_r].
    apply Q.max_lub; lra.
  - apply Q.max_le_compat_r. exact M.
Qed.

Lemma classifyWith_normalized (trainingData : list Classifier.TrainingData)
  (d1 d2 : string) :
  JS.trim (JS.toLowerCase d1) = JS.trim (JS.toLowerCase d2) ->
  Classifier.classifyWith trainingData d1 = Classifier.classifyWith trainingData d2.
Proof. unfold Classifier.classifyWith. intros ->. reflexivity. Qed.

(** *** What a caller of the classifier can rely on *)

Section ClassifierGuarantees.

Import Classifier.

Lemma classified_in_table (trainingData : list TrainingData)
  (description : string) :
  In (category (classifyWith trainingData description))
    ("Miscellaneous"%string :: List.map t_category trainingData).
Proof.
  rewrite classifyWith_unfold. cbn [category].
  set (sc := scoreAll trainingData _ _).
  unfold findBest.
  destruct (findBest_first_max (snd sc) (fst sc))
    as [[E _] | (pre & post & c & s & E & B & _)].
  - rewrite E. left. reflexivity.
  - rewrite B. cbn [fst]. right.
    assert (K : In c (StrMap.keys (fst sc))).
    { rewrite E. unfold StrMap.keys. rewrite map_app. apply in_or_app.
      right. left. reflexivity. }
    destruct (scoreAll_keys _ _ trainingData ([], []) c K) as [K' | []].
    exact K'.
Qed.

Lemma classified_in_six (description : string) :
  In (category (classifyTransaction description)) Route.CATEGORIES.
Proof.
  unfold classifyTransaction.
  generalize (classified_in_table TRAINING_DATA description).
  generalize (category (classifyWith TRAINING_DATA description)).
  intros c H.
  assert (I : List.forallb
                (fun x => List.existsb (String.eqb x) Route.CATEGORIES)
                ("Miscellaneous"%string :: List.map t_category TRAINING_DATA)
              = true) by (vm_compute; reflexivity).
  rewrite forallb_forall in I. specialize (I c H).
  apply existsb_exists in I. destruct I as (k & Hk & E).
  apply String.eqb_eq in E. subst k. exact Hk.
Qed.

Lemma classified_confidence (description : string) :
  4 # 10 <= confidence (classifyTransaction description)
  /\ confidence (classifyTransaction description) <= 1.
Proof.
  unfold classifyTransaction. rewrite classifyWith_unfold. cbn [confidence].
  apply finalConfidence_bounds.
Qed.

(** X1.  The category that the classifier answers is the default,
    Miscellaneous, or the category of an entry of its table; with the
    initial table it is one of the six categories of the application. *)
Theorem classified_category_known (description : string) :
  (forall trainingData,
      In (category (classifyWith trainingData description))
        ("Miscellaneous"%string :: List.map t_category trainingData))
  /\ In (category (classifyTransaction description)) Route.CATEGORIES.
Proof.
  split.
  - intros trainingData. apply classified_in_table.
  - apply classified_in_six.
Qed.

(** X2.  Ties go to the category met first in the table.  The scores are
    kept in the order in which the categories first occur in the table
    (for the initial table: Living Expenses, Groceries, Restaurants, Car,
    Entertainment, Miscellaneous).  If no score is positive the answer is
    Miscellaneous with confidence 0.4 and no reasoning; otherwise the answer
    is the first category of that order whose score is the highest. *)
Theorem first_highest_score_wins (trainingData : list TrainingData)
  (description : string) :
  let normalizedDesc := JS.trim (JS.toLowerCase description) in
  let words := RegExp.split (RegExp.Plus RegExp.s) normalizedDesc in
  let scores := fst (scoreAll trainingData normalizedDesc words) in
  let r := classifyWith trainingData description in
  StrMap.keys scores = firstOccurrences (List.map t_category trainingData)
  /\ firstOccurrences (List.map t_category TRAINING_DATA) = Route.CATEGORIES
  /\ ((category r = "Miscellaneous"%string /\ confidence r == 4 # 10
       /\ reasoning r = EmptyString
       /\ forall x, In x scores -> snd x <= 0)
      \/ exists pre post s,
           scores = (pre ++ (category r, s) :: post)%list
           /\ 0 < s
           /\ confidence r = finalConfidence s
           /\ (forall x, In x pre -> snd x < s)
           /\ (forall x, In x post -> snd x <= s)).
Proof.
  cbv zeta.
  split; [apply (scoreAll_keys_eq _ _ trainingData ([], [])) |].
  split; [vm_compute; reflexivity |].
  rewrite classifyWith_unfold. cbn [category confidence reasoning].
  unfold winningScore.
  set (sc := scoreAll trainingData _ _).
  unfold findBest.
  destruct (findBest_first_max (snd sc) (fst sc))
    as [[E A] | (pre & post & c & s & E & B & P & L & R)].
  - left. rewrite E. cbn [fst snd].
    split; [reflexivity |]. split; [vm_compute; reflexivity |].
    split; [reflexivity | exact A].
  - right. rewrite B. cbn [fst snd]. exists pre, post, s.
    split; [exact E |]. split; [exact P |]. split; [reflexivity |].
    split; [exact L | exact R].
Qed.

(** X3.  [getSuggestions] never proposes manual categorisation: a
    confidence is never below 0.4.  It answers the advice to add keywords
    exactly when the winning score is at most 1, and nothing otherwise. *)
Theorem suggestions_follow_the_score (trainingData : list TrainingData)
  (description : string) :
  getSuggestionsWith trainingData description
  = (if Num.lt 1 (winningScore trainingData description)
     then [] else [moreKeywords])
  /\ ~ In manualCategorization (getSuggestionsWith trainingData description).
Proof.
  assert (E : getSuggestionsWith trainingData description
              = (if Num.lt 1 (winningScore trainingData description)
                 then [] else [moreKeywords])).
  { unfold getSuggestionsWith. cbv zeta.
    rewrite classifyWith_unfold. cbn [confidence].
    generalize (winningScore trainingData description). intros ws.
    rewrite finalConfidence_unfold.
    assert (M : Qmin (ws / 2) 1 <= 1) by apply Q.le_min_r.
    assert (N : 1 < ws <-> 5 # 10 < Qmin (ws / 2) 1).
    { split; intros H.
      - apply Q.min_glb_lt; [| reflexivity].
        apply Qlt_shift_div_l; [reflexivity | lra].
      - assert (H' : 5 # 10 < ws / 2)
          by (apply Qlt_le_trans with (Qmin (ws / 2) 1); [exact H | apply Q.le_min_l]).
        assert (D : ws == (ws / 2) * 2) by (field).
        lra. }
    revert M N. generalize (Qmin (ws / 2) 1). intros x M N.
    destruct (Num.lt (5 # 10) x) eqn:X.
    - apply lt_true in X.
      assert (L : Num.lt 1 ws = true) by (apply lt_true, N; exact X).
      rewrite L.
      assert (F : 7 # 10 <= Qmax x (7 # 10)) by apply Q.le_max_r.
      assert (L1 : Num.lt (Qmax x (7 # 10)) (6 # 10) = false)
        by (apply lt_false; lra).
      assert (L2 : Num.lt (Qmax x (7 # 10)) (4 # 10) = false)
        by (apply lt_false; lra).
      rewrite L1, L2. reflexivity.
    - apply lt_false in X.
      assert (L : Num.lt 1 ws = false).
      { apply lt_false. apply Qnot_lt_le. intros H. apply N in H. lra. }
      rewrite L.
      assert (F : Qmax x (4 # 10) <= 5 # 10) by (apply Q.max_lub; lra).
      assert (F' : 4 # 10 <= Qmax x (4 # 10)) by apply Q.le_max_r.
      assert (L1 : Num.lt (Qmax x (4 # 10)) (6 # 10) = true)
        by (apply lt_true; lra).
      assert (L2 : Num.lt (Qmax x (4 # 10)) (4 # 10) = false)
        by (apply lt_false; lra).
      rewrite L1, L2. reflexivity. }
  split; [exact E |].
  rewrite E.
  destruct (Num.lt 1 (winningScore trainingData description)); simpl.
  - intros [].
  - intros [H | []]. discriminate.
Qed.

(** X4.  Training never lowers a confidence: whatever entry
    [addTrainingData] appends, every description is classified with a
    confidence at least as high as before. *)
Theorem training_never_lowers_confidence (trainingData : list TrainingData)
  (data : TrainingData) (description : string) :
  confidence (classifyWith trainingData description)
  <= confidence (classifyWith (addTrainingData trainingData data) description).
Proof.
  rewrite !classifyWith_unfold. cbn [confidence].
  apply finalConfidence_mono.
  unfold winningScore, addTrainingData, scoreAll.
  rewrite fold_left_app. cbn [List.fold_left].
  set (nd := JS.trim (JS.toLowerCase description)).
  set (ws := RegExp.split _ nd).
  set (sc := List.fold_left (scoreStep nd ws) trainingData ([], [])).
  set (sc' := scoreStep nd ws sc data).
  unfold findBest.
  pose proof (bestStep_fold_ge (snd sc') (fst sc')
                ("Miscellaneous"%string, 0, [])) as [G0 G].
  cbn [fst snd] in G0.
  destruct (findBest_first_max (snd sc) (fst sc))
    as [[E _] | (pre & post & c & s & E & B & _)].
  - rewrite E. exact G0.
  - rewrite B. cbn [fst snd].
    assert (K : In (c, s) (fst sc))
      by (rewrite E; apply in_or_app; right; left; reflexivity).
    destruct (scoreStep_grows nd ws sc data c s K) as (s' & K' & L).
    apply Qle_trans with s'; [exact L |].
    apply (G c s' K').
Qed.

(** X5.  An appended training entry that a description does not hit (no
    exact phrase, no keyword, no partial word: its score for the
    description is 0) leaves the classification of that description as it
    was, category, confidence and reasoning. *)
Theorem unrelated_training_changes_nothing (trainingData : list TrainingData)
  (data : TrainingData) (description : string) :
  let normalizedDesc := JS.trim (JS.toLowerCase description) in
  let words := RegExp.split (RegExp.Plus RegExp.s) normalizedDesc in
  fst (scoreEntry normalizedDesc words data) == 0 ->
  classifyWith (addTrainingData trainingData data) description
  = classifyWith trainingData description.
Proof.
  cbv zeta. intros Z.
  unfold classifyWith, addTrainingData, scoreAll.
  rewrite fold_left_app. cbn [List.fold_left].
  set (nd := JS.trim (JS.toLowerCase description)) in *.
  set (ws := RegExp.split _ nd) in *.
  set (sc := List.fold_left (scoreStep _ _) trainingData ([], [])).
  assert (F : findBest (scoreStep nd ws sc data) = findBest sc).
  { unfold scoreStep.
    destruct (scoreEntry nd ws data) as [score reasons]. cbn [fst] in Z.
    assert (L : Num.lt 0 score = false) by (apply lt_false; lra).
    rewrite L.
    destruct (StrMap.has (fst sc) (t_category data)) eqn:Hh.
    - destruct sc as [m r]. reflexivity.
    - destruct sc as [m r]. cbn [fst snd] in *.
      unfold StrMap.has in Hh.
      destruct (StrMap.get m (t_category data)) eqn:Gm; [discriminate |].
      unfold findBest. cbn [fst snd].
      rewrite (set_absent m _ 0 Gm), fold_left_app. cbn [List.fold_left].
      rewrite (bestStep_fold_ext (StrMap.set r (t_category data) []) r m).
      + pose proof (bestStep_fold_ge r m ("Miscellaneous"%string, 0, []))
          as [G0 _].
        destruct (List.fold_left (bestStep r) m ("Miscellaneous"%string, 0, []))
          as [[bc bs] br].
        cbn [fst snd] in G0. cbn [bestStep].
        assert (L' : Num.lt bs 0 = false) by (apply lt_false; exact G0).
        rewrite L'. reflexivity.
      + intros c Hc. unfold getReasons. rewrite get_set_other; [reflexivity |].
        intros ->. exact (get_In m _ Gm Hc). }
  rewrite F. reflexivity.
Qed.

Lemma unrelated_training_changes_nothing_witness :
  classifyWith (addTrainingData TRAINING_DATA Samples.kennel) "NETFLIX.COM 866-579-7172"
  = classifyWith TRAINING_DATA "NETFLIX.COM 866-579-7172".
Proof.
  apply (unrelated_training_changes_nothing TRAINING_DATA Samples.kennel
           "NETFLIX.COM 866-579-7172").
  vm_compute. reflexivity.
Defined.

(** X6.  The classifier ignores letter case and white space around the
    description: a description, its lower-case form and its trimmed form
    are classified alike, whatever the table. *)
Theorem classification_ignores_case_and_margins
  (trainingData : list TrainingData) (description : string) :
  classifyWith trainingData (JS.toLowerCase description)
  = classifyWith trainingData description
  /\ classifyWith trainingData (JS.trim description)
     = classifyWith trainingData description.
Proof.
  split; apply classifyWith_normalized.
  - rewrite toLowerCase_idem. reflexivity.
  - rewrite toLowerCase_trim, trim_idem. reflexivity.
Qed.

End ClassifierGuarantees.

(** ** Runs of characters of a class *)

Section ClassRuns.

Import RegExp.

Variable p : ascii -> bool.

Lemma takeWhile_dropWhile (s : string) :
  s = JS.takeWhile p s ++ JS.dropWhile p s.
Proof.
  induction s as [| c r IH]; simpl; [reflexivity |].
  destruct (p c); simpl; [rewrite <- IH |]; reflexivity.
Qed.

Lemma dropWhile_head (s : string) :
  JS.headIs (fun c => negb (p c)) (JS.dropWhile p s) = true.
Proof.
  induction s as [| c r IH]; simpl; [reflexivity |].
  destruct (p c) eqn:E; [exact IH |]. simpl. rewrite E. reflexivity.
Qed.

Lemma length_dropWhile (s : string) :
  (String.length (JS.dropWhile p s) <= String.length s)%nat.
Proof.
  induction s as [| c r IH]; simpl; [lia |].
  destruct (p c); simpl; lia.
Qed.

(** A star of a class takes the whole run *)
Lemma run_Star_Cls (s : string) :
  run (Star (Cls p)) s (fun rest => Some rest) = Some (JS.dropWhile p s).
Proof.
  induction s as [| c r IH]; [reflexivity |].
  rewrite run_Star.
  match goal with
  | |- context [run (Cls p) _ ?k] => set (K := k)
  end.
  cbn [run JS.dropWhile].
  destruct (p c); [| reflexivity].
  subst K. cbv beta.
  assert (L : Nat.ltb (String.length r) (String.length (String c r)) = true)
    by (apply Nat.ltb_lt; simpl; lia).
  rewrite L, IH. reflexivity.
Qed.

Lemma exec_Plus_Cls (s : string) :
  exec (Plus (Cls p)) s =
  match s with
  | EmptyString => None
  | String c r =>
      if p c then Some (String c (JS.takeWhile p r), JS.dropWhile p r) else None
  end.
Proof.
  destruct s as [| c r]; [reflexivity |].
  unfold exec, Plus.
  change (run (Cat (Cls p) (Star (Cls p))) (String c r) (fun rest => Some rest))
    with (if p c then run (Star (Cls p)) r (fun rest => Some rest) else None).
  destruct (p c); [| reflexivity].
  rewrite run_Star_Cls.
  f_equal. f_equal.
  set (m := String c (JS.takeWhile p r)).
  assert (E : String c r = m ++ JS.dropWhile p r)
    by (unfold m; simpl; rewrite <- takeWhile_dropWhile; reflexivity).
  rewrite E. apply take_app.
Qed.

Lemma search_Plus_Cls (s : string) :
  search (Plus (Cls p)) s =
  match s with
  | EmptyString => None
  | String c r =>
      if p c then Some (EmptyString, String c (JS.takeWhile p r), JS.dropWhile p r)
      else match search (Plus (Cls p)) r with
           | Some (b, m, a) => Some (String c b, m, a)
           | None => None
           end
  end.
Proof.
  destruct s as [| c r].
  - reflexivity.
  - cbn [search]. rewrite exec_Plus_Cls.
    destruct (p c); reflexivity.
Qed.

Lemma collapseFrom_run (w s : string) :
  JS.all (fun c => negb (p c)) s = true ->
  forall inRun, TransactionProcessor.collapseFrom p w inRun s = s.
Proof.
  induction s as [| c r IH]; simpl; intros H inRun; [reflexivity |].
  apply andb_true_iff in H. destruct H as [H1 H2].
  apply negb_true_iff in H1. rewrite H1, IH by exact H2. reflexivity.
Qed.

Lemma collapseFrom_inRun (w s : string) :
  TransactionProcessor.collapseFrom p w true s
  = TransactionProcessor.collapseFrom p w false (JS.dropWhile p s).
Proof.
  induction s as [| c r IH]; simpl; [reflexivity |].
  destruct (p c) eqn:E; [exact IH |].
  simpl. rewrite E. reflexivity.
Qed.

Lemma search_Plus_Cls_none (s : string) :
  search (Plus (Cls p)) s = None -> JS.all (fun c => negb (p c)) s = true.
Proof.
  induction s as [| c r IH]; [reflexivity |].
  rewrite search_Plus_Cls. simpl.
  destruct (p c); [discriminate |].
  destruct (search (Plus (Cls p)) r) as [[[b m] a] |]; [discriminate |].
  intros _. apply IH. reflexivity.
Qed.

Lemma replaceAllFrom_unfold (fuel : nat) (r : regex) (w s : string) :
  replaceAllFrom (S fuel) r w s =
  match search r s with
  | None => s
  | Some (b, m, a) =>
      match m, a with
      | EmptyString, EmptyString => b ++ w
      | EmptyString, String c a' =>
          b ++ w ++ String c (replaceAllFrom fuel r w a')
      | _, _ => b ++ w ++ replaceAllFrom fuel r w a
      end
  end.
Proof. reflexivity. Qed.

(** [s.replace(/[class]+/g, w)] replaces each run by [w] *)
Lemma replaceAllFrom_Plus_Cls (w : string) (n : nat) :
  forall s fuel,
    (String.length s <= n)%nat -> (String.length s < fuel)%nat ->
    replaceAllFrom fuel (Plus (Cls p)) w s
    = TransactionProcessor.collapseFrom p w false s.
Proof.
  induction n as [| n IH]; intros s fuel Hn Hf.
  - destruct s; [| simpl in Hn; lia].
    destruct fuel; reflexivity.
  - destruct fuel as [| fuel]; [lia |].
    destruct s as [| c r]; [reflexivity |].
    simpl in Hn, Hf.
    rewrite replaceAllFrom_unfold, search_Plus_Cls.
    cbn [TransactionProcessor.collapseFrom].
    destruct (p c) eqn:E.
    + pose proof (length_dropWhile r) as Ld.
      rewrite collapseFrom_inRun.
      rewrite <- (IH (JS.dropWhile p r) fuel) by lia.
      reflexivity.
    + rewrite <- (IH r fuel) by lia.
      destruct fuel as [| fuel']; [lia |].
      rewrite (replaceAllFrom_unfold fuel' _ _ r).
      destruct (search (Plus (Cls p)) r) as [[[b m] a] |] eqn:Sr; [| reflexivity].
      pose proof (search_length _ _ _ _ _ Sr) as Ls.
      destruct m as [| mc mr].
      * destruct a as [| ac ar]; [reflexivity |].
        simpl in Ls.
        rewrite (replaceAllFrom_fuel (Plus (Cls p)) w (S fuel') fuel' ar)
          by lia.
        reflexivity.
      * simpl in Ls.
        rewrite (replaceAllFrom_fuel (Plus (Cls p)) w (S fuel') fuel' a)
          by lia.
        reflexivity.
Qed.

Lemma replaceAll_Plus_Cls (w s : string) :
  replaceAll (Plus (Cls p)) w s = TransactionProcessor.collapseFrom p w false s.
Proof.
  unfold replaceAll. apply (replaceAllFrom_Plus_Cls w (String.length s)); lia.
Qed.

End ClassRuns.

(** ** The description normaliser: the shape of its result *)

Section NormalForm.

Import RegExp TransactionProcessor.

Lemma singleSpaced_app (a b : string) :
  singleSpaced (a ++ b) = true -> singleSpaced a = true /\ singleSpaced b = true.
Proof.
  induction a as [| c r IH]; [intros H; split; [reflexivity | exact H] |].
  change (String c r ++ b) with (String c (r ++ b)).
  cbn [singleSpaced]. rewrite !andb_true_iff. intros [H1 H2].
  destruct (IH H2) as [Ha Hb]. split; [| exact Hb]. split; [| exact Ha].
  destruct (JS.isWhiteSpace c); [| reflexivity].
  apply andb_true_iff in H1. destruct H1 as [H1 H3]. rewrite H1.
  destruct r; [reflexivity | exact H3].
Qed.

Lemma singleSpaced_collapse (s : string) :
  singleSpaced (collapseFrom JS.isWhiteSpace " " false s) = true
  /\ singleSpaced (collapseFrom JS.isWhiteSpace " " true s) = true
  /\ JS.headIs JS.notWhiteSpace (collapseFrom JS.isWhiteSpace " " true s) = true.
Proof.
  induction s as [| c r (IH1 & IH2 & IH3)]; [repeat split |].
  cbn [collapseFrom].
  destruct (JS.isWhiteSpace c) eqn:W.
  - split; [| split; assumption].
    change (" " ++ collapseFrom JS.isWhiteSpace " " true r)
      with (String " " (collapseFrom JS.isWhiteSpace " " true r)).
    cbn [singleSpaced]. rewrite IH2.
    change (JS.isWhiteSpace " ") with true. cbv iota.
    destruct (collapseFrom JS.isWhiteSpace " " true r); [reflexivity |].
    simpl in IH3. unfold JS.notWhiteSpace in IH3. rewrite IH3. reflexivity.
  - cbn [singleSpaced JS.headIs]. unfold JS.notWhiteSpace.
    rewrite W, IH1. repeat split.
Qed.

Lemma length_collapse (s : string) :
  forall inRun,
    (String.length (collapseFrom JS.isWhiteSpace " " inRun s)
     <= String.length s)%nat.
Proof.
  induction s as [| c r IH]; intros inRun; [simpl; lia |].
  cbn [collapseFrom].
  destruct (JS.isWhiteSpace c).
  - destruct inRun.
    + specialize (IH true). simpl. lia.
    + specialize (IH true). simpl. lia.
  - specialize (IH false). simpl. lia.
Qed.

(** What [replace] with a pattern that starts with [^] leaves is the end of
    the text; what the removal of digits before [$] leaves is its start *)
Lemma removeAtStart_suffix (r : regex) (s : string) :
  exists m, s = m ++ removeAtStart r s.
Proof.
  unfold removeAtStart.
  destruct (exec r s) as [[m a] |] eqn:E.
  - exists m. apply (exec_sound _ _ _ _ E).
  - exists EmptyString. reflexivity.
Qed.

Lemma app_empty_r (s : string) : s ++ EmptyString = s.
Proof. induction s as [| c s IH]; simpl; [| rewrite IH]; reflexivity. Qed.

Lemma removeAtEnd_prefix (r : regex) (s : string) :
  exists m, s = removeMatch (Cat r Eol) s ++ m.
Proof.
  unfold removeMatch.
  destruct (search (Cat r Eol) s) as [[[b m] a] |] eqn:E.
  - destruct (search_sound _ _ _ _ _ E) as [Es M].
    simpl in M. destruct M as (m1 & m2 & _ & _ & _ & Ea).
    exists m. subst a. rewrite Es, !app_empty_r. reflexivity.
  - exists EmptyString. rewrite app_empty_r. reflexivity.
Qed.

Lemma cleanDescription_infix (description : string) :
  exists before after,
    collapseSpaces description = before ++ cleanDescription description ++ after.
Proof.
  unfold cleanDescription, stripDescription.
  set (c := collapseSpaces description).
  destruct (removeAtStart_suffix descriptionPrefix c) as (m1 & E1).
  set (c1 := removeAtStart descriptionPrefix c) in *.
  destruct (removeAtEnd_prefix (Rep 4 d) c1) as (m2 & E2).
  set (c2 := removeMatch (Cat (Rep 4 d) Eol) c1) in *.
  destruct (trim_infix c2) as (b & a & E3).
  exists (m1 ++ b), (a ++ m2).
  rewrite E1, E2, E3 at 1.
  rewrite !app_assoc_string. reflexivity.
Qed.

(** X7.  The result of [cleanDescription] is a contiguous part of the
    description with its runs of white space collapsed; white space occurs
    in it only as single spaces between other characters; it is no longer
    than the description. *)
Theorem cleanDescription_normal_form (description : string) :
  singleSpaced (cleanDescription description) = true
  /\ JS.trim (cleanDescription description) = cleanDescription description
  /\ (String.length (cleanDescription description)
      <= String.length description)%nat
  /\ exists before after,
       collapseSpaces description
       = before ++ cleanDescription description ++ after.
Proof.
  destruct (cleanDescription_infix description) as (b & a & E).
  assert (C : collapseSpaces description
              = collapseFrom JS.isWhiteSpace " " false description)
    by apply replaceAll_Plus_Cls.
  split; [| split; [| split]].
  - pose proof (proj1 (singleSpaced_collapse description)) as S.
    rewrite <- C, E in S.
    apply singleSpaced_app in S. destruct S as [_ S].
    apply singleSpaced_app in S. exact (proj1 S).
  - unfold cleanDescription. apply trim_idem.
  - pose proof (length_collapse description false) as L.
    rewrite <- C, E, !length_app in L. lia.
  - exists b, a. exact E.
Qed.

End NormalForm.

(** ** The line parser: which lines give a record *)

Section TextParser.

Import RegExp TransactionProcessor.

Lemma filterMap_app {A B : Type} (f : A -> option B) (l1 l2 : list A) :
  filterMap f (l1 ++ l2) = (filterMap f l1 ++ filterMap f l2)%list.
Proof.
  induction l1 as [| x r IH]; simpl; [reflexivity |].
  destruct (f x); [rewrite IH |]; [reflexivity | exact IH].
Qed.

Lemma parseTransactionText_app (currentYear : nat) (a b : string) :
  parseTransactionText currentYear (a ++ String newline b)
  = (parseTransactionText currentYear a ++ parseTransactionText currentYear b)%list.
Proof.
  unfold parseTransactionText.
  rewrite split_app, filterMap_app, filter_app. reflexivity.
Qed.

(** X8.  The lines of a text are parsed independently and in order: the
    records of two texts joined by a line break are the records of the
    first followed by those of the second; the empty text has none. *)
Theorem lines_are_parsed_independently (currentYear : nat) (a b : string) :
  parseTransactionText currentYear (a ++ String newline b)
  = (parseTransactionText currentYear a ++ parseTransactionText currentYear b)%list
  /\ parseTransactionText currentYear EmptyString = [].
Proof.
  split; [apply parseTransactionText_app | reflexivity].
Qed.

Lemma any_infix (p : ascii -> bool) (b m a : string) :
  JS.any p m = true -> JS.any p (b ++ m ++ a) = true.
Proof.
  intros H. rewrite !any_app, H. apply orb_true_iff. right. reflexivity.
Qed.

Lemma transactionPattern_digit (m rest : string) :
  Matches transactionPattern m rest -> JS.any JS.isDigit m = true.
Proof.
  unfold transactionPattern, dayMonth, isoDate, slashDate. simpl.
  intros [H | [H | H]].
  - destruct H as (m1 & m2 & -> & (c & -> & Hc) & _).
    simpl. rewrite Hc. reflexivity.
  - destruct H as (m1 & m2 & -> & (m3 & m4 & -> & (c & -> & Hc) & _) & _).
    simpl. rewrite Hc. reflexivity.
  - destruct H as (m1 & m2 & -> & (m3 & m4 & -> & (c & -> & Hc) & _) & _).
    simpl. rewrite Hc. reflexivity.
Qed.

Lemma parseLine_digit (currentYear : nat) (rawLine : string) (t : RawTransaction) :
  parseLine currentYear rawLine = Some t -> JS.any JS.isDigit rawLine = true.
Proof.
  unfold parseLine.
  destruct (trim_infix rawLine) as (b0 & a0 & E0).
  destruct (JS.trim rawLine) as [| c r] eqn:T; [discriminate |].
  destruct (isHeader (String c r)); [discriminate |].
  unfold firstMatch.
  destruct (search transactionPattern (String c r)) as [[[b m] a] |] eqn:S;
    [| discriminate].
  intros _.
  destruct (search_sound _ _ _ _ _ S) as [E M].
  rewrite E0. apply any_infix. rewrite E. apply any_infix.
  exact (transactionPattern_digit _ _ M).
Qed.

Lemma cleanLineOf_infix (line : string) :
  exists before after, line = before ++ cleanLineOf line ++ after.
Proof.
  unfold cleanLineOf.
  destruct (removeAtStart_suffix dayMonth line) as (m1 & E1).
  set (l1 := removeAtStart dayMonth line) in *.
  destruct (removeAtStart_suffix isoDate l1) as (m2 & E2).
  set (l2 := removeAtStart isoDate l1) in *.
  destruct (removeAtStart_suffix slashDate l2) as (m3 & E3).
  set (l3 := removeAtStart slashDate l2) in *.
  destruct (trim_infix l3) as (b & a & E4).
  exists (m1 ++ m2 ++ m3 ++ b), a.
  rewrite E1, E2, E3, E4 at 1.
  rewrite !app_assoc_string. reflexivity.
Qed.

Lemma amountToken_stop (s : string) :
  matchAll amountToken s <> [] -> JS.any (JS.isChar ".") s = true.
Proof.
  unfold matchAll. cbn [matchAllFrom].
  destruct (search amountToken s) as [[[b m] a] |] eqn:S; [| congruence].
  intros _.
  destruct (search_sound _ _ _ _ _ S) as [E M].
  destruct (amountToken_shape _ _ M) as (run & d1 & d2 & -> & _).
  rewrite E. apply any_infix. rewrite any_app. simpl.
  apply orb_true_iff. right. reflexivity.
Qed.

(** The amount of a record: a non-zero whole number of cents, as a binary64
    number *)
Lemma parseLine_cents (currentYear : nat) (rawLine : string) (t : RawTransaction) :
  parseLine currentYear rawLine = Some t ->
  isNotZero (amount t) = true ->
  matchAll amountToken (cleanLineOf (JS.trim rawLine)) <> []
  /\ exists cents : Z,
       (0 < cents)%Z
       /\ amount t = (if hasDebitWord (cleanLineOf (JS.trim rawLine))
                      then neg (fl (cents # 100)) else fl (cents # 100)).
Proof.
  intros P Z.
  rewrite (parseLine_amount _ _ _ P) in *.
  assert (N : matchAll amountToken (cleanLineOf (JS.trim rawLine)) <> []).
  { intros E. unfold extractDescriptionAndAmount in Z. rewrite E in Z.
    discriminate. }
  split; [exact N |].
  destruct (extracted_amount_value _ N) as (cents & C0 & _ & E).
  exists cents. split; [| exact E].
  rewrite E in Z.
  destruct (Z.eq_dec cents 0) as [-> | C1]; [| lia].
  destruct (hasDebitWord (cleanLineOf (JS.trim rawLine)));
    vm_compute in Z; discriminate.
Qed.

Lemma parseLine_stop (currentYear : nat) (rawLine : string) (t : RawTransaction) :
  parseLine currentYear rawLine = Some t ->
  isNotZero (amount t) = true ->
  JS.any (JS.isChar ".") rawLine = true.
Proof.
  intros P Z.
  destruct (parseLine_cents _ _ _ P Z) as [N _].
  apply amountToken_stop in N.
  destruct (trim_infix rawLine) as (b0 & a0 & E0).
  destruct (cleanLineOf_infix (JS.trim rawLine)) as (b1 & a1 & E1).
  rewrite E0. apply any_infix. rewrite E1. apply any_infix. exact N.
Qed.

Lemma records_of_lines (currentYear : nat) (text : string) (t : RawTransaction) :
  In t (parseTransactionText currentYear text) ->
  isNotZero (amount t) = true
  /\ exists rawLine,
       In rawLine (JS.split newline text)
       /\ parseLine currentYear rawLine = Some t.
Proof.
  unfold parseTransactionText. intros H.
  apply filter_In in H. destruct H as [H Z]. split; [exact Z |].
  apply filterMap_In in H. exact H.
Qed.

Lemma no_member_nil {A : Type} (l : list A) : (forall x, ~ In x l) -> l = [].
Proof.
  destruct l as [| x r]; [reflexivity |].
  intros H. exfalso. apply (H x). left. reflexivity.
Qed.

Lemma no_record_without (currentYear : nat) (text : string) :
  JS.any JS.isDigit text = false \/ JS.any (JS.isChar ".") text = false ->
  parseTransactionText currentYear text = [].
Proof.
  intros H. apply no_member_nil. intros t Ht.
  destruct (records_of_lines _ _ _ Ht) as (Z & rawLine & I & P).
  destruct H as [H | H].
  - pose proof (split_any JS.isDigit newline text H) as F.
    rewrite Forall_forall in F. specialize (F _ I).
    rewrite (parseLine_digit _ _ _ P) in F. discriminate.
  - pose proof (split_any (JS.isChar ".") newline text H) as F.
    rewrite Forall_forall in F. specialize (F _ I).
    rewrite (parseLine_stop _ _ _ P Z) in F. discriminate.
Qed.

(** X9.  A text without a digit, or without a full stop, yields no record:
    a record needs a date, which starts with a digit, and an amount with
    two decimals. *)
Theorem no_digit_or_no_stop_no_record (currentYear : nat) (text : string) :
  JS.any JS.isDigit text = false \/ JS.any (JS.isChar ".") text = false ->
  parseTransactionText currentYear text = [].
Proof. apply no_record_without. Qed.

Lemma no_digit_or_no_stop_no_record_witness :
  parseTransactionText 2025 "14 Jul RENT 1200" = [].
Proof.
  apply (no_digit_or_no_stop_no_record 2025 "14 Jul RENT 1200").
  right. reflexivity.
Defined.

(** X10.  Every record that the line parser emits is the record of a line
    of the text, and its amount is a whole number of cents other than 0, as
    a binary64 number (an infinity when the token is beyond the largest
    one): negative when that line, its date removed, holds one of the four
    debit words, and positive otherwise. *)
Theorem parsed_amounts_are_cents (currentYear : nat) (text : string) :
  Forall (fun t =>
            exists (rawLine : string) (cents : Z),
              In rawLine (JS.split newline text)
              /\ parseLine currentYear rawLine = Some t
              /\ (0 < cents)%Z
              /\ amount t = (if hasDebitWord (cleanLineOf (JS.trim rawLine))
                             then neg (fl (cents # 100))
                             else fl (cents # 100))
              /\ gtZero (fl (cents # 100)) = true
              /\ ltZero (neg (fl (cents # 100))) = true)
    (parseTransactionText currentYear text).
Proof.
  apply Forall_forall. intros t Ht.
  destruct (records_of_lines _ _ _ Ht) as (Z & rawLine & I & P).
  destruct (parseLine_cents _ _ _ P Z) as (_ & cents & C & E).
  exists rawLine, cents.
  split; [exact I |]. split; [exact P |]. split; [exact C |].
  split; [exact E |]. apply fl_cents_sign, C.
Qed.

(** A word that neither starts nor ends with white space is still in the
    trimmed text *)
Lemma includes_trim (s x : string) (c0 cl : ascii) :
  JS.isWhiteSpace c0 = false -> JS.isWhiteSpace cl = false ->
  JS.includes s (String c0 x ++ String cl EmptyString) = true ->
  JS.includes (JS.trim s) (String c0 x ++ String cl EmptyString) = true.
Proof.
  intros W0 Wl H.
  apply includes_spec in H. destruct H as (before & after & ->).
  apply includes_spec.
  exists (JS.trimStart before), (JS.trimEnd after).
  unfold JS.trim.
  rewrite trimStart_app.
  - assert (A : forall a,
               JS.trimStart before ++ (String c0 x ++ String cl EmptyString) ++ a
               = ((JS.trimStart before ++ String c0 x) ++ String cl EmptyString) ++ a)
      by (intros a; rewrite !app_assoc_string; reflexivity).
    rewrite (A after), trimEnd_app by exact Wl.
    rewrite <- A. reflexivity.
  - simpl. unfold JS.notWhiteSpace. rewrite W0. reflexivity.
  - discriminate.
Qed.

Lemma isHeader_trim (line : string) :
  isHeader line = true -> isHeader (JS.trim line) = true.
Proof.
  unfold isHeader. rewrite !orb_true_iff.
  intros [[H | H] | H].
  - left. left. apply (includes_trim line "at" "D" "e"); [reflexivity .. | exact H].
  - left. right.
    apply (includes_trim line "escriptio" "D" "n"); [reflexivity .. | exact H].
  - right. apply (includes_trim line "alanc" "B" "e"); [reflexivity .. | exact H].
Qed.

(** X11.  A line that holds one of the words Date, Description or Balance
    anywhere is taken for a header: it gives no record, whatever else it
    holds, and the lines around it are parsed as if it were absent. *)
Theorem header_words_drop_the_line (currentYear : nat)
  (before line after : string) :
  JS.any (JS.isChar newline) line = false ->
  isHeader line = true ->
  parseTransactionText currentYear line = []
  /\ parseTransactionText currentYear
       (before ++ String newline (line ++ String newline after))
     = (parseTransactionText currentYear before
        ++ parseTransactionText currentYear after)%list.
Proof.
  intros N H.
  assert (E : parseTransactionText currentYear line = []).
  { unfold parseTransactionText. rewrite (split_none _ _ N).
    cbn [filterMap]. unfold parseLine.
    apply isHeader_trim in H.
    destruct (JS.trim line); [reflexivity |].
    rewrite H. reflexivity. }
  split; [exact E |].
  rewrite !parseTransactionText_app, E. reflexivity.
Qed.

Lemma header_words_drop_the_line_witness :
  parseTransactionText 2025 "05 Aug Balance Protection Payment 12.50" = [].
Proof.
  apply (header_words_drop_the_line 2025 EmptyString
           "05 Aug Balance Protection Payment 12.50" EmptyString);
    reflexivity.
Defined.

End TextParser.

(** ** The dates of the line parser *)

Section BankDates.

Import RegExp TransactionProcessor.

Lemma digit_no_mark (c : ascii) :
  JS.isDigit c = true ->
  JS.isChar "-" c = false /\ JS.isChar "/" c = false /\ JS.isChar " " c = false.
Proof. destruct c as [[] [] [] [] [] [] [] []]; simpl; intros H; try discriminate H; repeat split. Qed.

Lemma word_no_mark (c : ascii) :
  JS.isWord c = true ->
  JS.isChar "-" c = false /\ JS.isChar "/" c = false /\ JS.isChar " " c = false.
Proof. destruct c as [[] [] [] [] [] [] [] []]; simpl; intros H; try discriminate H; repeat split. Qed.

Lemma digits_no_mark (s : string) :
  JS.all JS.isDigit s = true ->
  JS.any (JS.isChar "-") s = false /\ JS.any (JS.isChar "/") s = false
  /\ JS.any (JS.isChar " ") s = false.
Proof.
  intros H. repeat split; apply (any_none _ JS.isDigit); try exact H;
    intros x Hx; destruct (JS.isDigit x) eqn:D; try reflexivity;
    destruct (digit_no_mark x D) as (A & B & C); congruence.
Qed.

Lemma word_chars_no_mark (s : string) :
  JS.all JS.isWord s = true ->
  JS.any (JS.isChar "-") s = false /\ JS.any (JS.isChar "/") s = false
  /\ JS.any (JS.isChar " ") s = false.
Proof.
  intros H. repeat split; apply (any_none _ JS.isWord); try exact H;
    intros x Hx; destruct (JS.isWord x) eqn:D; try reflexivity;
    destruct (word_no_mark x D) as (A & B & C); congruence.
Qed.

Lemma padStart_full (n : nat) (c : ascii) (s : string) :
  (n <= String.length s)%nat -> JS.padStart n c s = s.
Proof.
  intros H. unfold JS.padStart.
  replace (n - String.length s)%nat with O by lia. reflexivity.
Qed.

(** A text of the form DDDD-DD-DD passes the check of the format *)
Lemma dateRegex_accepts (y m d : string) :
  JS.all JS.isDigit y = true -> String.length y = 4%nat ->
  JS.all JS.isDigit m = true -> String.length m = 2%nat ->
  JS.all JS.isDigit d = true -> String.length d = 2%nat ->
  testAtStart Route.dateRegex (y ++ "-" ++ m ++ "-" ++ d) = true.
Proof.
  intros Hy Ly Hm Lm Hd Ld.
  destruct y as [| y1 [| y2 [| y3 [| y4 [| ? ?]]]]]; try (simpl in Ly; lia).
  destruct m as [| m1 [| m2 [| ? ?]]]; try (simpl in Lm; lia).
  destruct d as [| d1 [| d2 [| ? ?]]]; try (simpl in Ld; lia).
  cbn [JS.all] in Hy, Hm, Hd.
  repeat rewrite andb_true_iff in Hy.
  repeat rewrite andb_true_iff in Hm.
  repeat rewrite andb_true_iff in Hd.
  destruct Hy as (Y1 & Y2 & Y3 & Y4 & _).
  destruct Hm as (M1 & M2 & _). destruct Hd as (D1 & D2 & _).
  unfold testAtStart, exec, Route.dateRegex.
  cbn [TransactionProcessor.Seq Rep Lit d run append].
  rewrite Y1, Y2, Y3, Y4, M1, M2, D1, D2. reflexivity.
Qed.

(** X12.  A date written MM/DD/YYYY is turned into YYYY-MM-DD, the first
    number being taken for the month; the result passes the format check
    of the validator. *)
Theorem slash_date_is_reordered (currentYear : nat) (mm dd yyyy : string) :
  JS.all JS.isDigit mm = true -> String.length mm = 2%nat ->
  JS.all JS.isDigit dd = true -> String.length dd = 2%nat ->
  JS.all JS.isDigit yyyy = true -> String.length yyyy = 4%nat ->
  parseBankDate currentYear (mm ++ "/" ++ dd ++ "/" ++ yyyy)
  = yyyy ++ "-" ++ mm ++ "-" ++ dd
  /\ testAtStart Route.dateRegex
       (parseBankDate currentYear (mm ++ "/" ++ dd ++ "/" ++ yyyy)) = true.
Proof.
  intros Hm Lm Hd Ld Hy Ly.
  destruct (digits_no_mark _ Hm) as (M1 & M2 & _).
  destruct (digits_no_mark _ Hd) as (D1 & D2 & _).
  destruct (digits_no_mark _ Hy) as (Y1 & Y2 & _).
  assert (E : parseBankDate currentYear (mm ++ "/" ++ dd ++ "/" ++ yyyy)
              = yyyy ++ "-" ++ mm ++ "-" ++ dd).
  { unfold parseBankDate.
    rewrite !includes_char, !any_app.
    cbn [JS.any append].
    rewrite M1, D1, Y1, M2.
    change (JS.isChar "-" "/") with false. change (JS.isChar "/" "/") with true.
    cbn [orb].
    rewrite !split_app, (split_none _ _ M2), (split_none _ _ D2),
      (split_none _ _ Y2).
    cbn [List.app].
    rewrite !padStart_full by lia. reflexivity. }
  split; [exact E |].
  rewrite E. apply dateRegex_accepts; assumption.
Qed.

Lemma slash_date_is_reordered_witness :
  parseBankDate 2025 "07/14/2024" = "2024-07-14"%string.
Proof.
  apply (slash_date_is_reordered 2025 "07" "14" "2024"); reflexivity.
Defined.

Lemma getMonthNumber_range (monthStr : string) :
  (1 <= getMonthNumber monthStr <= 12)%nat.
Proof.
  unfold getMonthNumber.
  repeat match goal with
         | |- context [String.eqb monthStr ?m] => destruct (String.eqb monthStr m)
         end; lia.
Qed.

Lemma month_two_digits (n : nat) :
  (1 <= n <= 12)%nat ->
  JS.all JS.isDigit (JS.padStart 2 "0" (JS.natToString n)) = true
  /\ String.length (JS.padStart 2 "0" (JS.natToString n)) = 2%nat.
Proof.
  intros H.
  assert (C : (n = 1 \/ n = 2 \/ n = 3 \/ n = 4 \/ n = 5 \/ n = 6 \/ n = 7
               \/ n = 8 \/ n = 9 \/ n = 10 \/ n = 11 \/ n = 12)%nat) by lia.
  repeat (destruct C as [-> | C]; [split; reflexivity |]).
  subst n. split; reflexivity.
Qed.

Lemma day_two_digits (day : string) :
  JS.all JS.isDigit day = true ->
  (1 <= String.length day <= 2)%nat ->
  JS.all JS.isDigit (JS.padStart 2 "0" day) = true
  /\ String.length (JS.padStart 2 "0" day) = 2%nat.
Proof.
  intros H L.
  destruct day as [| d1 [| d2 [| ? ?]]]; simpl in L; try lia.
  - cbn. simpl in H. rewrite H. split; reflexivity.
  - rewrite padStart_full by (simpl; lia). split; [exact H | reflexivity].
Qed.

(** X13.  A date written as a day and three word characters with one
    space between them is turned into the year of the clock, the number of
    the month and the day, the last two padded to two digits; three
    characters that are no English month abbreviation count as January.
    When the year prints as four digits the result passes the format
    check of the validator. *)
Theorem day_month_date_is_completed (currentYear : nat) (day mon : string) :
  JS.all JS.isDigit day = true ->
  (1 <= String.length day <= 2)%nat ->
  JS.all JS.isWord mon = true ->
  String.length mon = 3%nat ->
  parseBankDate currentYear (day ++ " " ++ mon)
  = JS.natToString currentYear ++ "-"
    ++ JS.padStart 2 "0" (JS.natToString (getMonthNumber mon)) ++ "-"
    ++ JS.padStart 2 "0" day
  /\ (1 <= getMonthNumber mon <= 12)%nat
  /\ (~ In mon ["Jan"; "Feb"; "Mar"; "Apr"; "May"; "Jun"; "Jul"; "Aug";
                "Sep"; "Oct"; "Nov"; "Dec"]%string ->
      getMonthNumber mon = 1%nat)
  /\ (JS.all JS.isDigit (JS.natToString currentYear) = true ->
      String.length (JS.natToString currentYear) = 4%nat ->
      testAtStart Route.dateRegex (parseBankDate currentYear (day ++ " " ++ mon))
      = true).
Proof.
  intros Hd Ld Hm _.
  destruct (digits_no_mark _ Hd) as (D1 & D2 & D3).
  destruct (word_chars_no_mark _ Hm) as (M1 & M2 & M3).
  assert (E : parseBankDate currentYear (day ++ " " ++ mon)
              = JS.natToString currentYear ++ "-"
                ++ JS.padStart 2 "0" (JS.natToString (getMonthNumber mon)) ++ "-"
                ++ JS.padStart 2 "0" day).
  { unfold parseBankDate.
    rewrite !includes_char, !any_app.
    cbn [JS.any append]. rewrite D1, D2, M1, M2.
    change (JS.isChar "-" " ") with false. change (JS.isChar "/" " ") with false.
    cbn [orb].
    rewrite split_app, (split_none _ _ D3), (split_none _ _ M3).
    reflexivity. }
  split; [exact E |]. split; [apply getMonthNumber_range |]. split.
  - intros N. unfold getMonthNumber.
    repeat match goal with
           | |- context [String.eqb mon ?m] =>
               destruct (String.eqb mon m) eqn:?;
               [exfalso; apply N;
                match goal with
                | H : String.eqb mon _ = true |- _ =>
                    apply String.eqb_eq in H; subst mon; simpl; tauto
                end |]
           end.
    reflexivity.
  - intros Hy Ly. rewrite E.
    destruct (month_two_digits _ (getMonthNumber_range mon)) as [A B].
    destruct (day_two_digits _ Hd Ld) as [A' B'].
    apply dateRegex_accepts; assumption.
Qed.

Lemma day_month_date_is_completed_witness :
  parseBankDate 2025 "7 Jul" = "2025-07-07"%string.
Proof.
  apply (day_month_date_is_completed 2025 "7" "Jul");
    [reflexivity | simpl; lia | reflexivity | reflexivity].
Defined.

End BankDates.

(** ** The keyword lists of [src/utils/categoryClassifier.ts] *)

Section KeywordLists.

Import CategoryClassifier.

Lemma includes_trans (s w v : string) :
  JS.includes s w = true -> JS.includes w v = true -> JS.includes s v = true.
Proof.
  rewrite !includes_spec.
  intros (b1 & a1 & ->) (b2 & a2 & ->).
  exists (b1 ++ b2), (a2 ++ a1). rewrite !app_assoc_string. reflexivity.
Qed.

Lemma includesAny_mono (desc desc' : string) (keywords : list string) :
  JS.includes desc' desc = true ->
  includesAny desc keywords = true -> includesAny desc' keywords = true.
Proof.
  intros I. unfold includesAny. rewrite !existsb_exists.
  intros (k & Hk & H). exists k. split; [exact Hk |].
  exact (includes_trans _ _ _ I H).
Qed.

(** X14.  The classifier by lists of keywords always answers one of the
    six categories of the application, it ignores letter case, and a
    description that holds another one is never classified later in the
    order of the tests (Groceries, Restaurants, Car, Entertainment, Living
    Expenses, Miscellaneous) than the one it holds. *)
Theorem simple_category_is_one_of_six (description : string) :
  In (classifyTransaction description) Route.CATEGORIES
  /\ classifyTransaction (JS.toLowerCase description)
     = classifyTransaction description
  /\ forall longer,
       JS.includes (JS.toLowerCase longer) (JS.toLowerCase description) = true ->
       (rank (classifyTransaction longer)
        <= rank (classifyTransaction description))%nat.
Proof.
  split; [| split].
  - unfold classifyTransaction, classifyBy.
    repeat match goal with
           | |- context [includesAny ?a ?b] => destruct (includesAny a b)
           end; simpl; tauto.
  - unfold classifyTransaction, classifyBy.
    rewrite toLowerCase_idem. reflexivity.
  - intros longer I.
    unfold classifyTransaction, classifyBy.
    pose proof (includesAny_mono _ _ groceries I) as G.
    pose proof (includesAny_mono _ _ restaurants I) as R.
    pose proof (includesAny_mono _ _ car I) as C.
    pose proof (includesAny_mono _ _ entertainment I) as E.
    pose proof (includesAny_mono _ _ livingExpenses I) as L.
    repeat match goal with
           | |- context [includesAny (JS.toLowerCase description) ?l] =>
               destruct (includesAny (JS.toLowerCase description) l)
           end;
      repeat match goal with
             | H : true = true -> _ |- _ =>
                 specialize (H eq_refl); try rewrite H; clear H
             | H : false = true -> _ |- _ => clear H
             end;
      repeat match goal with
             | |- context [includesAny ?a ?l] => destruct (includesAny a l)
             end;
      cbn [rank String.eqb Ascii.eqb Bool.eqb]; lia.
Qed.

(** X15.  In the simple classifier the keywords [insurance] and
    [maintenance fee] of the list of living expenses never decide: a
    description that holds [insurance] or [maintenance] is a grocery, a
    restaurant or a car expense, and the classifier answers the same
    without these two keywords. *)
Theorem shadowed_living_keywords (description : string) :
  (JS.includes (JS.toLowerCase description) "insurance"
   || JS.includes (JS.toLowerCase description) "maintenance fee" = true ->
   In (classifyTransaction description) ["Groceries"; "Restaurants"; "Car"]%string)
  /\ classifyTransaction description
     = classifyBy groceries restaurants car entertainment
         ["rent"; "mortgage"; "utilities"; "hydro"; "electricity"; "water";
          "internet"; "phone"; "property tax"; "condo fee"]%string
         description.
Proof.
  unfold classifyTransaction, classifyBy.
  set (desc := JS.toLowerCase description).
  assert (C : JS.includes desc "insurance"
              || JS.includes desc "maintenance fee" = true ->
              includesAny desc car = true).
  { intros H. apply orb_true_iff in H. unfold includesAny, car.
    cbn [List.existsb].
    destruct H as [H | H].
    - rewrite H. rewrite !orb_true_r. reflexivity.
    - assert (M : JS.includes desc "maintenance" = true)
        by (apply (includes_trans _ _ _ H); reflexivity).
      rewrite M. rewrite !orb_true_r. reflexivity. }
  split.
  - intros H. rewrite (C H).
    destruct (includesAny desc groceries); [simpl; tauto |].
    destruct (includesAny desc restaurants); simpl; tauto.
  - destruct (includesAny desc groceries); [reflexivity |].
    destruct (includesAny desc restaurants); [reflexivity |].
    destruct (includesAny desc car) eqn:K; [reflexivity |].
    destruct (includesAny desc entertainment); [reflexivity |].
    assert (I : JS.includes desc "insurance" = false).
    { destruct (JS.includes desc "insurance") eqn:I; [| reflexivity].
      discriminate (C eq_refl). }
    assert (M : JS.includes desc "maintenance fee" = false).
    { destruct (JS.includes desc "maintenance fee") eqn:M; [| reflexivity].
      discriminate (C (orb_true_r _)). }
    unfold includesAny, livingExpenses. cbn [List.existsb].
    rewrite I, M. cbn [orb]. reflexivity.
Qed.

End KeywordLists.

(** ** The answer of the model: more about its validation *)

Section AnswerFacts.

Import JSON Route.

(** *** A JSON object inside prose *)

Lemma uptoLastBrace_none (s : string) :
  JS.any (JS.isChar "}") s = false -> uptoLastBrace s = None.
Proof.
  induction s as [| c r IH]; simpl; [reflexivity |].
  unfold JS.isChar at 1. rewrite orb_false_iff. intros [E H].
  rewrite (IH H), E. reflexivity.
Qed.

Lemma uptoLastBrace_body (body post : string) :
  JS.any (JS.isChar "}") post = false ->
  uptoLastBrace (body ++ String "}" post) = Some (body ++ "}").
Proof.
  intros H. induction body as [| c r IH]; simpl.
  - rewrite (uptoLastBrace_none _ H). reflexivity.
  - rewrite IH. reflexivity.
Qed.

Lemma braceSpan_skip (pre s : string) :
  JS.any (JS.isChar "{") pre = false -> braceSpan (pre ++ s) = braceSpan s.
Proof.
  induction pre as [| c r IH]; simpl; [reflexivity |].
  unfold JS.isChar at 1. rewrite orb_false_iff. intros [E H].
  rewrite E. exact (IH H).
Qed.

Lemma jsonCandidate_object (pre body post : string) :
  JS.any (JS.isChar "{") pre = false ->
  JS.any (JS.isChar "}") post = false ->
  jsonCandidate (pre ++ String "{" (body ++ String "}" post))
  = String "{" (body ++ "}").
Proof.
  intros Hpre Hpost. unfold jsonCandidate.
  rewrite firstMatch_braceSpan, (braceSpan_skip _ _ Hpre).
  simpl. rewrite (uptoLastBrace_body _ _ Hpost). reflexivity.
Qed.

Lemma processTransactionText_nonempty (aiResponse : string) :
  aiResponse <> EmptyString ->
  processTransactionText aiResponse =
  match JSON.parse (jsonCandidate aiResponse) with
  | None => ParseFailure
  | Some parsedData =>
      match rawTransactionsOf parsedData with
      | Throw => ProcessingError
      | Return rawTransactions =>
          match validate rawTransactions with
          | Throw => ProcessingError
          | Return validTransactions => Processed (aggregate validTransactions)
          end
      end
  end.
Proof. destruct aiResponse; [congruence | reflexivity]. Qed.

(** X16.  Prose around the JSON object does not matter: when no opening
    brace precedes the object and no closing brace follows it, the text
    handed to [JSON.parse] is the object, and the route answers as it does
    for the object alone. *)
Theorem object_inside_prose (pre body post : string) :
  JS.any (JS.isChar "{") pre = false ->
  JS.any (JS.isChar "}") post = false ->
  jsonCandidate (pre ++ String "{" (body ++ String "}" post))
  = String "{" (body ++ "}")
  /\ processTransactionText (pre ++ String "{" (body ++ String "}" post))
     = processTransactionText (String "{" (body ++ "}")).
Proof.
  intros Hpre Hpost.
  split; [apply jsonCandidate_object; assumption |].
  rewrite !processTransactionText_nonempty.
  - rewrite (jsonCandidate_object pre body post Hpre Hpost).
    pose proof (jsonCandidate_object EmptyString body EmptyString eq_refl eq_refl)
      as J.
    cbn [append] in J. rewrite J. reflexivity.
  - discriminate.
  - destruct pre; discriminate.
Qed.

Lemma object_inside_prose_witness :
  jsonCandidate ("Here you go: " ++ String "{" ("}" ++ String "}" " Done."))
  = String "{" ("}" ++ "}").
Proof.
  apply (object_inside_prose "Here you go: " "}" " Done."); reflexivity.
Defined.

(** *** What holds of every record of the answer *)

Lemma forEachFrom_Forall (P : Transaction -> Prop) :
  (forall transaction index t, processEntry transaction index = Push t -> P t) ->
  forall l index acc out,
    Forall P acc -> forEachFrom index l acc = Return out -> Forall P out.
Proof.
  intros HP.
  induction l as [| e l IH]; intros index acc out Hacc H; simpl in H.
  - inversion H; subst. exact Hacc.
  - destruct (processEntry e index) as [| t |] eqn:E; [| | discriminate].
    + exact (IH _ _ _ Hacc H).
    + apply (IH _ _ _ (proj2 (Forall_app _ _ _)
                         (conj Hacc (Forall_cons _ (HP _ _ _ E) (Forall_nil _)))) H).
Qed.

Lemma forEachFrom_length (l : list value) :
  forall index acc out,
    forEachFrom index l acc = Return out ->
    (List.length out <= List.length acc + List.length l)%nat.
Proof.
  induction l as [| e l IH]; intros index acc out H; simpl in H.
  - inversion H; subst. simpl. lia.
  - destruct (processEntry e index) as [| t |] eqn:E; [| | discriminate].
    + specialize (IH _ _ _ H). simpl. lia.
    + specialize (IH _ _ _ H). rewrite List.length_app in IH. simpl in *. lia.
Qed.

(** The clamp of a confidence *)
Lemma clamp_range (x : Num.number) :
  let y := Num.min (Num.max x (Num.Fin (5 # 10))) (Num.Fin 1) in
  y = Num.NaN \/ exists q, y = Num.Fin q /\ 5 # 10 <= q /\ q <= 1.
Proof.
  cbv zeta. destruct x as [| | | q].
  - left. reflexivity.
  - right. exists (5 # 10). split; [reflexivity |]. split; lra.
  - right. exists 1. split; [reflexivity |]. split; lra.
  - right. rewrite max_Fin, min_Fin.
    exists (Qmin (Qmax q (5 # 10)) 1). split; [reflexivity |]. split.
    + apply Q.min_glb; [apply Q.le_max_r | lra].
    + apply Q.le_min_r.
Qed.

(** X17.  The confidence of every record of the answer lies between 0.5
    and 1, unless it is [NaN], which a confidence that is not a number
    (a text that is no numeral, say) gives. *)
Theorem emitted_confidence_range (rawTransactions : list value)
  (validTransactions : list Transaction) :
  validate rawTransactions = Return validTransactions ->
  Forall (fun t =>
            confidence t = Num.NaN
            \/ exists q, confidence t = Num.Fin q /\ 5 # 10 <= q /\ q <= 1)
    validTransactions.
Proof.
  apply forEachFrom_Forall; [| constructor].
  intros transaction index t H.
  apply processEntry_Push in H.
  destruct H as (vdate & text & a & conf & _ & _ & _ & _ & _ & _ & C & ->).
  cbn [confidence].
  unfold normalizeConfidence in C.
  destruct (ToNumber _) as [x |]; [| discriminate].
  inversion C; subst conf. apply clamp_range.
Qed.

Lemma emitted_confidence_range_witness :
  Forall (fun t =>
            confidence t = Num.NaN
            \/ exists q, confidence t = Num.Fin q /\ 5 # 10 <= q /\ q <= 1)
    [recordOf Samples.bell 0].
Proof.
  apply (emitted_confidence_range [Samples.bell]). reflexivity.
Defined.

End AnswerFacts.

(** ** Numerals *)

Section Numerals.

Lemma digitsValueFrom_uint (d : Decimal.uint) :
  forall acc : nat,
    Num.digitsValueFrom (Z.of_nat acc) (NilEmpty.string_of_uint d)
    = Z.of_nat (Nat.of_uint_acc d acc).
Proof.
  induction d; intros acc; cbn [NilEmpty.string_of_uint Nat.of_uint_acc Num.digitsValueFrom];
    [reflexivity | rewrite <- IHd; f_equal; rewrite ?Nat2Z.inj_succ, Nat.tail_mul_spec, Nat2Z.inj_mul;
                   unfold Num.digitValue; simpl; lia ..].
Qed.

(** The numeral of a natural number reads back as the number *)
Lemma natToString_value (n : nat) :
  Num.digitsValue (JS.natToString n) = Z.of_nat n.
Proof.
  unfold Num.digitsValue, JS.natToString.
  change 0%Z with (Z.of_nat 0).
  rewrite digitsValueFrom_uint.
  change (Nat.of_uint_acc (Nat.to_uint n) 0) with (Nat.of_uint (Nat.to_uint n)).
  rewrite DecimalNat.Unsigned.of_to. reflexivity.
Qed.

Lemma natToString_inj (n m : nat) : JS.natToString n = JS.natToString m -> n = m.
Proof.
  intros H. apply Nat2Z.inj. rewrite <- !natToString_value, H. reflexivity.
Qed.

Lemma padded_value (k : nat) (s : string) :
  Num.digitsValue (JS.repeatChar "0" k ++ s) = Num.digitsValue s.
Proof.
  unfold Num.digitsValue. induction k as [| k IH]; [reflexivity |].
  simpl. exact IH.
Qed.

Lemma append_inv_head (p a b : string) : p ++ a = p ++ b -> a = b.
Proof.
  induction p as [| c p IH]; simpl; [tauto |].
  intros H. inversion H. apply IH. assumption.
Qed.

Lemma NoDup_map_inj {A B : Type} (f : A -> B) (l : list A) :
  (forall x y, f x = f y -> x = y) -> NoDup l -> NoDup (List.map f l).
Proof.
  intros I. induction 1 as [| x l N _ IH]; simpl; constructor; [| exact IH].
  intros H. apply in_map_iff in H. destruct H as (y & E & Hy).
  apply I in E. subst y. exact (N Hy).
Qed.

End Numerals.

(** ** The answer of the model: the records and their identifiers *)

Section AnswerRecords.

Import JSON Route.

Lemma dateRegex_shape (text : string) :
  RegExp.testAtStart dateRegex text = true -> isoShaped text = true.
Proof.
  unfold RegExp.testAtStart.
  destruct (RegExp.exec dateRegex text) as [[m rest] |] eqn:E; [| discriminate].
  intros _. apply exec_sound in E. destruct E as [-> M].
  unfold dateRegex in M.
  cbn [TransactionProcessor.Seq RegExp.Rep RegExp.Lit RegExp.Matches RegExp.d] in M.
  repeat match goal with
         | H : exists _, _ |- _ => destruct H
         | H : _ /\ _ |- _ => destruct H
         end.
  subst. unfold JS.isChar in *. cbn [append isoShaped].
  repeat match goal with
         | H : _ = true |- _ => rewrite H; clear H
         end.
  reflexivity.
Qed.

Lemma testDate_shape (v : value) :
  testDate v = Return true ->
  exists text, toStringNoNumeral v = Some text /\ isoShaped text = true.
Proof.
  unfold testDate. destruct (stringifies v); [| discriminate].
  destruct (toStringNoNumeral v) as [text |]; [| discriminate].
  intros H. exists text. split; [reflexivity |].
  apply dateRegex_shape. congruence.
Qed.

Lemma forEachFrom_positions (l : list value) :
  forall index acc out,
    forEachFrom index l acc = Return out ->
    exists new positions,
      out = (acc ++ new)%list
      /\ Forall2 (fun j t => exists e, nth_error l (j - index) = Some e
                                      /\ processEntry e j = Push t)
           positions new
      /\ StronglySorted lt positions
      /\ Forall (fun j => (index <= j)%nat) positions.
Proof.
  induction l as [| e l IH]; intros index acc out H; cbn [forEachFrom] in H.
  - exists [], []. inversion H. rewrite app_nil_r.
    repeat split; constructor.
  - destruct (processEntry e index) as [| t |] eqn:P; [| | discriminate].
    + destruct (IH _ _ _ H) as (new & js & E & F & S & L).
      exists new, js. split; [exact E |]. split; [| split; [exact S |]].
      * clear - F L. induction F as [| j t js new (e' & N & Pj) F IHF];
          [constructor |].
        inversion_clear L as [| ? ? Lj Ljs].
        constructor; [| exact (IHF Ljs)].
        exists e'. split; [| exact Pj].
        replace (j - index)%nat with (S (j - S index)) by lia. exact N.
      * eapply Forall_impl; [| exact L]. intros j Hj. cbv beta in *. lia.
    + destruct (IH _ _ _ H) as (new & js & E & F & S & L).
      exists (t :: new), (index :: js).
      split; [rewrite E, <- app_assoc; reflexivity |].
      split; [| split].
      * constructor.
        -- exists e. rewrite Nat.sub_diag. split; [reflexivity | exact P].
        -- clear - F L. induction F as [| j t' js new (e' & N & Pj) F IHF];
             [constructor |].
           inversion_clear L as [| ? ? Lj Ljs].
           constructor; [| exact (IHF Ljs)].
           exists e'. split; [| exact Pj].
           replace (j - index)%nat with (S (j - S index)) by lia. exact N.
      * constructor; [exact S |].
        eapply Forall_impl; [| exact L]. intros j Hj. cbv beta in *. lia.
      * constructor; [lia |].
        eapply Forall_impl; [| exact L]. intros j Hj. cbv beta in *. lia.
Qed.

(** X18.  The validator emits at most one record per entry of the answer,
    in the order of the entries: the records come from entries at
    increasing positions, each made from its entry at that position.  Every
    record has a date whose text is four digits, a hyphen, two digits, a
    hyphen and two digits, a description without white space at its ends,
    one of the six categories and an identifier that is not empty. *)
Theorem emitted_records_are_well_formed (rawTransactions : list value)
  (validTransactions : list Transaction) :
  validate rawTransactions = Return validTransactions ->
  (exists positions,
      StronglySorted lt positions
      /\ Forall2 (fun j t => exists e, nth_error rawTransactions j = Some e
                                      /\ processEntry e j = Push t)
           positions validTransactions)
  /\ Forall (fun t =>
               (exists text, toStringNoNumeral (date t) = Some text
                             /\ isoShaped text = true)
               /\ JS.trim (description t) = description t
               /\ In (category t) CATEGORIES
               /\ truthy (Some (id t)) = true)
       validTransactions.
Proof.
  intros H. split.
  - destruct (forEachFrom_positions _ _ _ _ H) as (new & js & E & F & S & _).
    cbn [app] in E. subst new. exists js. split; [exact S |].
    eapply Forall2_impl; [| exact F].
    intros j t (e & N & P). exists e. rewrite Nat.sub_0_r in N. split; assumption.
  - revert H. apply forEachFrom_Forall; [| constructor].
    intros transaction index t H.
    apply processEntry_Push in H.
    destruct H as (vdate & text & a & conf & _ & _ & _ & _ & _ & D & _ & ->).
    cbn [date description category id].
    split; [exact (testDate_shape _ D) |]. split; [apply trim_idem |].
    split; [apply entryCategory_known |].
    unfold entryId.
    destruct (prop transaction "id") as [i |]; [| reflexivity].
    destruct (truthy (Some i)) eqn:T; [exact T | reflexivity].
Qed.

Lemma emitted_records_are_well_formed_witness :
  (exists positions,
      StronglySorted lt positions
      /\ Forall2 (fun j t => exists e,
                    nth_error [Samples.nameless; Samples.bell; Samples.unsure] j
                    = Some e
                    /\ processEntry e j = Push t)
           positions [recordOf Samples.bell 1; recordOf Samples.unsure 2])
  /\ Forall (fun t =>
               (exists text, toStringNoNumeral (date t) = Some text
                             /\ isoShaped text = true)
               /\ JS.trim (description t) = description t
               /\ In (category t) CATEGORIES
               /\ truthy (Some (id t)) = true)
       [recordOf Samples.bell 1; recordOf Samples.unsure 2].
Proof.
  apply (emitted_records_are_well_formed
           [Samples.nameless; Samples.bell; Samples.unsure]).
  reflexivity.
Defined.

Lemma forEachFrom_null (l : list value) :
  In Null l -> forall index acc, forEachFrom index l acc = Throw.
Proof.
  induction l as [| e l IH]; intros H index acc; [destruct H |].
  cbn [forEachFrom].
  destruct H as [-> | H]; [reflexivity |].
  destruct (processEntry e index); [apply IH | apply IH | reflexivity]; exact H.
Qed.

(** X19.  One [null] among the entries of the answer fails the whole
    answer: the loop over the entries throws, and the route answers with a
    processing error, whatever the other entries are. *)
Theorem null_entry_fails_the_answer (rawTransactions : list value) :
  In Null rawTransactions ->
  validate rawTransactions = Throw
  /\ forall aiResponse parsedData,
       aiResponse <> EmptyString ->
       JSON.parse (jsonCandidate aiResponse) = Some parsedData ->
       rawTransactionsOf parsedData = Return rawTransactions ->
       processTransactionText aiResponse = ProcessingError.
Proof.
  intros H.
  assert (V : validate rawTransactions = Throw) by (apply forEachFrom_null; exact H).
  split; [exact V |].
  intros aiResponse parsedData N P R.
  rewrite (processTransactionText_nonempty _ N), P, R, V. reflexivity.
Qed.

Lemma null_entry_fails_the_answer_witness :
  validate [Samples.bell; Null; Samples.unsure] = Throw.
Proof.
  apply (null_entry_fails_the_answer [Samples.bell; Null; Samples.unsure]).
  right. left. reflexivity.
Defined.

(** X20.  An answer that is valid JSON but has no [transactions] (absent,
    or null, false, 0 or the empty text) counts as an answer without
    entries: the route succeeds with no record, a total of 0 and 0 in each
    of the six categories. *)
Theorem answer_without_transactions (aiResponse : string) (parsedData : value) :
  aiResponse <> EmptyString ->
  JSON.parse (jsonCandidate aiResponse) = Some parsedData ->
  parsedData <> Null ->
  truthy (prop parsedData "transactions") = false ->
  processTransactionText aiResponse = Processed (aggregate [])
  /\ transactions (aggregate []) = []
  /\ totalAmount (aggregate []) == 0
  /\ StrMap.keys (summary (aggregate [])) = CATEGORIES
  /\ Forall (fun cv => snd cv == 0) (summary (aggregate [])).
Proof.
  intros N P NN T.
  split.
  - rewrite (processTransactionText_nonempty _ N), P.
    unfold rawTransactionsOf. rewrite T.
    destruct parsedData; try reflexivity. congruence.
  - split; [reflexivity |]. split; [reflexivity |]. split; [reflexivity |].
    vm_compute. repeat constructor.
Qed.

Lemma answer_without_transactions_witness :
  processTransactionText "No expenses found: {}" = Processed (aggregate []).
Proof.
  apply (answer_without_transactions "No expenses found: {}" (Object []));
    [discriminate | reflexivity | discriminate | reflexivity].
Defined.

(** *** Identifiers *)

Lemma defaultId_value (index : nat) :
  exists digits,
    defaultId index = "txn_" ++ digits
    /\ Num.digitsValue digits = Z.of_nat (index + 1).
Proof.
  unfold defaultId. eexists. split; [reflexivity |].
  unfold JS.padStart. rewrite padded_value, natToString_value. reflexivity.
Qed.

Lemma defaultId_inj (i j : nat) : defaultId i = defaultId j -> i = j.
Proof.
  intros H.
  destruct (defaultId_value i) as (di & Ei & Vi).
  destruct (defaultId_value j) as (dj & Ej & Vj).
  rewrite Ei, Ej in H. apply append_inv_head in H. subst dj.
  rewrite Vi in Vj. lia.
Qed.

Lemma forEachFrom_ids (l : list value) :
  Forall (fun e => truthy (prop e "id") = false) l ->
  forall index acc out,
    forEachFrom index l acc = Return out ->
    exists js,
      List.map id out
      = (List.map id acc ++ List.map (fun j => Str (defaultId j)) js)%list
      /\ Forall (fun j => (index <= j)%nat) js
      /\ NoDup js.
Proof.
  induction 1 as [| e l He _ IH]; intros index acc out H; cbn [forEachFrom] in H.
  - inversion H; subst. exists []. simpl. rewrite app_nil_r.
    repeat split; constructor.
  - destruct (processEntry e index) as [| t |] eqn:E; [| | discriminate].
    + destruct (IH _ _ _ H) as (js & E1 & E2 & E3).
      exists js. split; [exact E1 |]. split; [| exact E3].
      apply (Forall_impl _ (fun j (L : (S index <= j)%nat) => Nat.lt_le_incl _ _ L) E2).
    + destruct (IH _ _ _ H) as (js & E1 & E2 & E3).
      exists (index :: js). split; [| split].
      * rewrite E1, map_app. cbn [List.map]. rewrite <- app_assoc. cbn [List.app].
        f_equal. f_equal.
        apply processEntry_Push in E.
        destruct E as (vdate & text & a & conf & _ & _ & _ & _ & _ & _ & _ & ->).
        cbn [id]. unfold entryId.
        destruct (prop e "id") as [i |]; [| reflexivity].
        rewrite He. reflexivity.
      * constructor; [lia |].
        apply (Forall_impl _ (fun j (L : (S index <= j)%nat) => Nat.lt_le_incl _ _ L) E2).
      * constructor; [| exact E3].
        intros I. rewrite Forall_forall in E2. specialize (E2 _ I). lia.
Qed.

(** X21.  When no entry of the answer carries an identifier, the
    identifiers of the records are pairwise distinct: each is [txn_]
    followed by a numeral, padded with zeros, that reads back as the
    position of the entry counted from 1. *)
Theorem default_ids_are_distinct (rawTransactions : list value)
  (validTransactions : list Transaction) :
  validate rawTransactions = Return validTransactions ->
  Forall (fun e => truthy (prop e "id") = false) rawTransactions ->
  NoDup (List.map id validTransactions)
  /\ forall index,
       exists digits,
         defaultId index = "txn_" ++ digits
         /\ Num.digitsValue digits = Z.of_nat (index + 1).
Proof.
  intros V F. split; [| apply defaultId_value].
  destruct (forEachFrom_ids _ F _ _ _ V) as (js & E & _ & N).
  rewrite E. cbn [List.map List.app].
  apply NoDup_map_inj; [| exact N].
  intros x y H. apply defaultId_inj. congruence.
Qed.

Lemma default_ids_are_distinct_witness :
  NoDup (List.map id [recordOf Samples.bell 0; recordOf Samples.unsure 2]).
Proof.
  apply (default_ids_are_distinct [Samples.bell; Samples.nameless; Samples.unsure]);
    [reflexivity | repeat constructor].
Defined.

End AnswerRecords.

(** ** The route that parses locally: identifiers, counts and totals *)

Section LocalRoute.

Import ProcessPdf.

Local Abbreviation Raw := TransactionProcessor.RawTransaction.

(** What the handler answers when it succeeds *)
Lemma POST_Done (currentYear : nat) (fileName text : string) (data : Processed) :
  POST currentYear fileName text = Done data ->
  let rawTransactions := TransactionProcessor.parseTransactionText currentYear text in
  let classifiedTransactions := classifyFrom fileName 0 rawTransactions in
  rawTransactions <> []
  /\ data = mkProcessed classifiedTransactions (total classifiedTransactions)
              (summarize classifiedTransactions).
Proof.
  unfold POST. cbv zeta.
  destruct (JS.trim text); [discriminate |].
  generalize (TransactionProcessor.parseTransactionText currentYear text).
  intros raws H.
  destruct raws as [| t0 r]; [discriminate |].
  split; [discriminate |].
  revert H. generalize (t0 :: r). intros raws H.
  apply (f_equal (fun r => match r with
                           | Done d => d
                           | _ => mkProcessed [] (Num.Fin 0) []
                           end)) in H.
  cbv beta iota in H. symmetry. exact H.
Qed.

Lemma classifyFrom_length (fileName : string) (l : list Raw) :
  forall index, List.length (classifyFrom fileName index l) = List.length l.
Proof.
  induction l as [| t r IH]; intros index; cbn [classifyFrom List.length];
    [reflexivity | rewrite IH; reflexivity].
Qed.

Lemma classifyFrom_ids (fileName : string) (l : list Raw) :
  forall index,
    List.map id (classifyFrom fileName index l)
    = List.map
        (fun k => RegExp.replaceAll (RegExp.Cls notAlphaNum) "_" fileName ++ "-"
                  ++ JS.natToString k)
        (List.seq index (List.length l)).
Proof.
  induction l as [| t r IH]; intros index;
    cbn [classifyFrom List.length List.seq List.map id]; [reflexivity |].
  rewrite IH. reflexivity.
Qed.

Lemma classifyFrom_fields (fileName : string) (l : list Raw) :
  forall index,
    List.map (fun t => (date t, description t, amount t))
      (classifyFrom fileName index l)
    = List.map (fun t => (TransactionProcessor.date t,
                          TransactionProcessor.description t,
                          TransactionProcessor.amount t)) l.
Proof.
  induction l as [| t r IH]; intros index;
    cbn [classifyFrom List.map date description amount]; [reflexivity |].
  rewrite IH. reflexivity.
Qed.

Lemma classifyFrom_Forall (P : Transaction -> Prop) (fileName : string)
  (l : list Raw) :
  (forall t index,
      In t l ->
      P (mkTransaction (TransactionProcessor.date t)
           (TransactionProcessor.description t)
           (TransactionProcessor.amount t)
           (RegExp.replaceAll (RegExp.Cls notAlphaNum) "_" fileName ++ "-"
              ++ JS.natToString index)
           (Classifier.category
              (Classifier.classifyTransaction (TransactionProcessor.description t)))
           (Classifier.confidence
              (Classifier.classifyTransaction (TransactionProcessor.description t))))) ->
  forall index, Forall P (classifyFrom fileName index l).
Proof.
  induction l as [| t r IH]; intros H index; cbn [classifyFrom]; constructor.
  - apply H. left. reflexivity.
  - apply IH. intros t' i' I. apply H. right. exact I.
Qed.

(** X22.  The local route keeps the records of the line parser as they
    are and in their order, and gives them pairwise distinct identifiers
    (the file name with its special characters replaced, a hyphen and the
    position). *)
Theorem local_records_and_ids (currentYear : nat) (fileName text : string)
  (data : Processed) :
  POST currentYear fileName text = Done data ->
  NoDup (List.map id (transactions data))
  /\ List.map (fun t => (date t, description t, amount t)) (transactions data)
     = List.map (fun t => (TransactionProcessor.date t,
                           TransactionProcessor.description t,
                           TransactionProcessor.amount t))
         (TransactionProcessor.parseTransactionText currentYear text).
Proof.
  intros H. apply POST_Done in H. cbv zeta in H. destruct H as [_ ->].
  cbn [transactions]. split.
  - rewrite classifyFrom_ids.
    apply NoDup_map_inj; [| apply seq_NoDup].
    intros x y E. apply append_inv_head in E.
    apply (append_inv_head "-") in E. apply natToString_inj. exact E.
  - apply classifyFrom_fields.
Qed.

Lemma local_records_and_ids_witness :
  exists data,
    POST 2025 "July (1).pdf" "14 Jul Visa Debit purchase - 1234 STORE 12.50"
    = Done data
    /\ NoDup (List.map id (transactions data)).
Proof.
  eexists. split; [reflexivity |].
  apply (local_records_and_ids 2025 "July (1).pdf"
           "14 Jul Visa Debit purchase - 1234 STORE 12.50").
  reflexivity.
Defined.

End LocalRoute.

(** ** Sums of binary64 numbers that are not negative *)

Section Binary64Sums.

Import Num.

(** A rounded number that is 0 is the number 0 itself *)
Lemma flQ_zero_eq (q : Q) : flQ q == 0 -> flQ q = 0.
Proof.
  assert (R : forall x, Qred x == 0 -> Qred x = 0).
  { intros x H. change 0 with (Qred 0). apply Qred_complete.
    rewrite <- H. symmetry. apply Qred_correct. }
  destruct q as [[| n | n] d]; unfold flQ, nearest; cbn [Qnum Qden]; intros H.
  - reflexivity.
  - apply R, H.
  - rewrite R; [reflexivity |]. lra.
Qed.

Lemma summed_zero : summed (Fin 0).
Proof. right. exists 0. split; [lra | reflexivity]. Qed.

Lemma add_summed (x y : number) : summed x -> term y -> summed (add x y).
Proof.
  intros [-> | (q & Hq & ->)] [-> | (b & Hb & ->)]; try (left; reflexivity).
  cbn [add].
  assert (P : 0 <= flQ q + b) by (pose proof (flQ_nonneg q Hq); lra).
  destruct (fl_nonneg _ P) as [-> | [-> _]]; [left; reflexivity |].
  right. exists (flQ q + b). split; [exact P | reflexivity].
Qed.

Lemma add_zero_term (y : number) : term y -> summed (add (Fin 0) y).
Proof. apply add_summed, summed_zero. Qed.

Lemma abs_term (x : number) : ltZero x = true \/ gtZero x = true -> term (abs x).
Proof.
  destruct x as [| | | q]; cbn [ltZero gtZero abs]; intros [H | H];
    try discriminate; try (left; reflexivity);
    right; exists (Qabs q); (split; [apply Qabs_nonneg | reflexivity]).
Qed.

Lemma fold_left_map {A B C : Type} (f : A -> B -> A) (g : C -> B) (l : list C) :
  forall a, List.fold_left f (List.map g l) a
            = List.fold_left (fun s t => f s (g t)) l a.
Proof. induction l as [| x l IH]; intros a; simpl; [reflexivity | apply IH]. Qed.

Lemma fold_add_summed (l : list number) :
  Forall term l -> forall a, summed a -> summed (List.fold_left add l a).
Proof.
  induction 1 as [| y l Hy _ IH]; intros a Ha; simpl; [exact Ha |].
  apply IH, add_summed; assumption.
Qed.

End Binary64Sums.

(** ** The totals of the local route *)

Section LocalTotals.

Import ProcessPdf.

Local Abbreviation Raw := TransactionProcessor.RawTransaction.

Lemma parsed_amount_sign (currentYear : nat) (text : string) (t : Raw) :
  In t (TransactionProcessor.parseTransactionText currentYear text) ->
  Num.ltZero (TransactionProcessor.amount t) = true
  \/ Num.gtZero (TransactionProcessor.amount t) = true.
Proof.
  intros H.
  destruct (records_of_lines _ _ _ H) as (Z & rawLine & _ & P).
  destruct (parseLine_cents _ _ _ P Z) as (_ & cents & C & E).
  destruct (fl_cents_sign cents C) as [G L].
  rewrite E.
  destruct (TransactionProcessor.hasDebitWord _); [left | right]; assumption.
Qed.

Lemma POST_localOk (currentYear : nat) (fileName text : string) (data : Processed) :
  POST currentYear fileName text = Done data ->
  Forall localOk (transactions data) /\ transactions data <> [].
Proof.
  intros H. apply POST_Done in H. cbv zeta in H. destruct H as [N ->].
  cbn [transactions]. split.
  - apply classifyFrom_Forall. intros t index I.
    unfold localOk. cbn [amount category confidence].
    split; [exact (parsed_amount_sign _ _ _ I) |].
    split; [apply classified_in_six | apply classified_confidence].
  - intros E. apply (f_equal (@List.length _)) in E.
    rewrite classifyFrom_length in E.
    destruct (TransactionProcessor.parseTransactionText currentYear text);
      [congruence | discriminate].
Qed.

(** *** Counts *)

Lemma sign_exclusive (x : Num.number) :
  Num.ltZero x = true \/ Num.gtZero x = true ->
  Num.ltZero x = negb (geZero x).
Proof.
  destruct x as [| | | q]; cbn [Num.ltZero Num.gtZero geZero];
    intros [H | H]; try discriminate; try reflexivity;
    destruct (q ?= 0); reflexivity.
Qed.

Lemma sign_partition (l : list Transaction) :
  Forall localOk l ->
  (List.length (List.filter (fun t => Num.ltZero (amount t)) l)
   + List.length (List.filter (fun t => geZero (amount t)) l)
   = List.length l)%nat.
Proof.
  induction 1 as [| t l (S & _) _ IH]; [reflexivity |].
  cbn [List.filter]. rewrite (sign_exclusive _ S).
  destruct (geZero (amount t)); cbn [negb List.length]; lia.
Qed.

(** X23.  In the metadata of the local route the number of records is that
    of the line parser and is not 0, and every record counts either as an
    expense or as an income: the two counts add up to the number of
    records. *)
Theorem local_metadata (currentYear : nat) (fileName text : string)
  (data : Processed) :
  POST currentYear fileName text = Done data ->
  let m := metadata (transactions data) in
  totalTransactions m
  = List.length (TransactionProcessor.parseTransactionText currentYear text)
  /\ (0 < totalTransactions m)%nat
  /\ (expenseTransactions m + incomeTransactions m = totalTransactions m)%nat.
Proof.
  intros H. cbv zeta.
  destruct (POST_localOk _ _ _ _ H) as [F N].
  apply POST_Done in H. cbv zeta in H. destruct H as [_ E].
  assert (L : List.length (transactions data)
              = List.length (TransactionProcessor.parseTransactionText currentYear text))
    by (rewrite E; cbn [transactions]; apply classifyFrom_length).
  clear E. revert F N L.
  generalize (transactions data). intros l F N L.
  unfold metadata.
  cbn [totalTransactions expenseTransactions incomeTransactions].
  assert (P : (0 < List.length l)%nat) by (destruct l; [congruence | simpl; lia]).
  split; [exact L |]. split; [exact P |]. apply sign_partition; exact F.
Qed.

Lemma local_metadata_witness :
  exists data,
    POST 2025 "s.pdf" "14 Jul Visa Debit purchase - 1234 STORE 12.50" = Done data
    /\ metadata (transactions data) = mkMetadata 1 1 0.
Proof.
  eexists. split; [reflexivity |].
  destruct (local_metadata 2025 "s.pdf"
              "14 Jul Visa Debit purchase - 1234 STORE 12.50" _ eq_refl)
    as (_ & _ & P).
  vm_compute. reflexivity.
Defined.

(** *** Sums *)

Lemma orZero_summed (x : Num.number) : Num.summed x -> orZero (Some x) = x.
Proof.
  intros [-> | (q & _ & ->)]; [reflexivity |]. unfold orZero.
  destruct (Qeq_bool (Num.flQ q) 0) eqn:Z; [| reflexivity].
  apply Qeq_bool_eq in Z. rewrite (flQ_zero_eq q Z). reflexivity.
Qed.

Lemma summaryOf_ext (g g' : string -> Num.number) :
  (forall c, In c Route.CATEGORIES -> g c = g' c) -> summaryOf g = summaryOf g'.
Proof.
  intros H. unfold summaryOf. apply map_ext_in. intros c I.
  rewrite (H c I). reflexivity.
Qed.

(** One turn of the loop over the records, on a summary with six slots *)
Lemma summary_step (g : string -> Num.number) (t : Transaction) :
  localOk t ->
  (forall c, Num.summed (g c)) ->
  (if Num.ltZero (amount t)
   then StrMap.set (summaryOf g) (category t)
          (Num.add (orZero (StrMap.get (summaryOf g) (category t)))
             (Num.abs (amount t)))
   else summaryOf g)
  = summaryOf (fun c => if Num.ltZero (amount t) && String.eqb (category t) c
                        then Num.add (g c) (Num.abs (amount t)) else g c).
Proof.
  intros (_ & C & _) G.
  destruct (Num.ltZero (amount t)) eqn:L; cbn [andb]; [| reflexivity].
  simpl in C.
  repeat (destruct C as [<- | C];
          [unfold summaryOf;
           cbn [Route.CATEGORIES List.map StrMap.get StrMap.set String.eqb
                Ascii.eqb Bool.eqb];
           rewrite (orZero_summed _ (G _)); reflexivity |]).
  destruct C.
Qed.

Lemma summarize_slots (l : list Transaction) :
  Forall localOk l ->
  forall g,
    (forall c, Num.summed (g c)) ->
    List.fold_left
      (fun acc t =>
         if Num.ltZero (amount t)
         then StrMap.set acc (category t)
                (Num.add (orZero (StrMap.get acc (category t)))
                   (Num.abs (amount t)))
         else acc)
      l (summaryOf g)
    = summaryOf
        (fun c => List.fold_left (fun sum t => Num.add sum (Num.abs (amount t)))
                    (expensesOf c l) (g c)).
Proof.
  induction 1 as [| t l Ht _ IH]; intros g G; [reflexivity |].
  cbn [List.fold_left]. rewrite (summary_step g t Ht G), IH.
  - apply summaryOf_ext. intros c _. unfold expensesOf. cbn [List.filter].
    destruct (Num.ltZero (amount t) && String.eqb (category t) c); reflexivity.
  - intros c.
    destruct (Num.ltZero (amount t) && String.eqb (category t) c); [| apply G].
    apply add_summed; [apply G | apply abs_term, Ht].
Qed.

Lemma summarize_sums (l : list Transaction) :
  Forall localOk l ->
  summarize l = summaryOf (fun c => sumOfAbs (expensesOf c l)).
Proof.
  intros F. unfold summarize.
  change initialSummary with (summaryOf (fun _ => Num.Fin 0)).
  rewrite (summarize_slots l F) by (intros c; apply summed_zero).
  apply summaryOf_ext. intros c _. unfold sumOfAbs, Num.sum.
  rewrite fold_left_map. reflexivity.
Qed.

Lemma total_sum (l : list Transaction) : total l = sumOfAbs (expenses l).
Proof. unfold total, sumOfAbs, Num.sum, expenses. rewrite fold_left_map. reflexivity. Qed.

Lemma expensesOf_all (c : string) (l : list Transaction) :
  Forall (fun t => category t = c) (expenses l) -> expensesOf c l = expenses l.
Proof.
  unfold expensesOf, expenses.
  induction l as [| t l IH]; intros H; [reflexivity |].
  cbn [List.filter] in *.
  destruct (Num.ltZero (amount t)); cbn [andb].
  - inversion_clear H as [| ? ? Ht Hl].
    rewrite Ht, String.eqb_refl, (IH Hl). reflexivity.
  - apply IH, H.
Qed.

(** X24.  The local route counts the expenses only.  The total is the sum
    of the absolute amounts of the records with a negative amount, added in
    binary64 in the order of the records; the summary has exactly the six
    categories, each with the sum, added the same way, of the absolute
    amounts of its own expenses; when all the expenses are of one category,
    the value of that category is the total. *)
Theorem local_totals (currentYear : nat) (fileName text : string)
  (data : Processed) :
  POST currentYear fileName text = Done data ->
  totalAmount data = sumOfAbs (expenses (transactions data))
  /\ summary data
     = summaryOf (fun c => sumOfAbs (expensesOf c (transactions data)))
  /\ StrMap.keys (summary data) = Route.CATEGORIES
  /\ (forall c, In c Route.CATEGORIES ->
        StrMap.get (summary data) c
        = Some (sumOfAbs (expensesOf c (transactions data))))
  /\ (forall c, In c Route.CATEGORIES ->
        Forall (fun t => category t = c) (expenses (transactions data)) ->
        StrMap.get (summary data) c = Some (totalAmount data)).
Proof.
  intros H.
  destruct (POST_localOk _ _ _ _ H) as [F _].
  apply POST_Done in H. cbv zeta in H. destruct H as [_ E].
  rewrite E in *. cbn [transactions totalAmount summary] in *. clear E.
  revert F. generalize (classifyFrom fileName 0
                          (TransactionProcessor.parseTransactionText currentYear text)).
  intros l F.
  assert (G : forall c, In c Route.CATEGORIES ->
                StrMap.get (summarize l) c = Some (sumOfAbs (expensesOf c l))).
  { intros c I. rewrite (summarize_sums l F). simpl in I.
    repeat (destruct I as [<- | I]; [reflexivity |]). destruct I. }
  split; [apply total_sum |]. split; [apply summarize_sums, F |].
  split; [rewrite (summarize_sums l F); reflexivity |].
  split; [exact G |].
  intros c I A. rewrite (G c I), total_sum, (expensesOf_all c l A). reflexivity.
Qed.

Lemma local_totals_witness :
  exists data,
    POST 2025 "s.pdf" "14 Jul Visa Debit purchase - 1234 STORE 12.50" = Done data
    /\ totalAmount data = Num.fl (1250 # 100)
    /\ StrMap.keys (summary data) = Route.CATEGORIES.
Proof.
  eexists. split; [reflexivity |].
  destruct (local_totals 2025 "s.pdf"
              "14 Jul Visa Debit purchase - 1234 STORE 12.50" _ eq_refl)
    as (T & _ & K & _).
  split; [rewrite T; vm_compute; reflexivity | exact K].
Defined.

End LocalTotals.

(** ** The page: a change of category *)

Section PageFacts.

Import JSON Route Page.

Lemma recalculate_unfold (l : list Transaction) :
  recalculate l =
  List.map
    (fun c => (c, sumAbs (List.filter (fun t => String.eqb (category t) c) l)))
    CATEGORIES.
Proof. reflexivity. Qed.

Lemma updated_amounts (transactionId newCategory : string) (l : list Transaction) :
  List.map amount
    (List.map (fun t => if hasId transactionId t
                        then withCategory t newCategory else t) l)
  = List.map amount l.
Proof.
  rewrite map_map. apply map_ext. intros t.
  destruct (hasId transactionId t); reflexivity.
Qed.

Lemma updated_categories (transactionId newCategory : string) (l : list Transaction) :
  List.map category
    (List.map (fun t => if hasId transactionId t
                        then withCategory t newCategory else t) l)
  = List.map (fun t => if hasId transactionId t then newCategory else category t) l.
Proof.
  rewrite map_map. apply map_ext. intros t.
  destruct (hasId transactionId t); reflexivity.
Qed.

Lemma updateFrom_beyond (transactionId newCategory : string)
  (prev : list ProcessedData) :
  forall index fileIndex,
    (index + List.length prev <= fileIndex)%nat ->
    updateFrom index fileIndex transactionId newCategory prev = prev.
Proof.
  induction prev as [| data rest IH]; intros index fileIndex H; [reflexivity |].
  cbn [updateFrom]. simpl in H.
  destruct (Nat.eqb_spec index fileIndex) as [E | _]; [lia |].
  rewrite IH by lia. reflexivity.
Qed.

(** X26.  On the page, giving a record of a validated answer another of
    the six categories keeps the records, their order and their amounts,
    and changes the category of the records with that identifier only; the
    total of the answer is kept as it was, and the six values of the
    summary are computed anew from the records: each is the sum of the
    absolute amounts of the records now of that category, added in binary64
    in their order and not rounded to two decimals.  Doing the same change
    twice changes nothing more, and a file index beyond the list changes
    nothing. *)
Theorem recategorising_keeps_the_total (rawTransactions : list value)
  (validTransactions : list Transaction) (transactionId newCategory : string) :
  validate rawTransactions = Return validTransactions ->
  In newCategory CATEGORIES ->
  exists data',
    updateTransactionCategory 0 transactionId newCategory
      [aggregate validTransactions] = [data']
    /\ List.map amount (transactions data') = List.map amount validTransactions
    /\ List.map category (transactions data')
       = List.map (fun t => if hasId transactionId t
                            then newCategory else category t)
           validTransactions
    /\ Forall (fun t => In (category t) CATEGORIES) (transactions data')
    /\ totalAmount data' = totalAmount (aggregate validTransactions)
    /\ StrMap.keys (summary data') = CATEGORIES
    /\ Forall (fun c =>
                 StrMap.get (summary data') c
                 = Some (sumAbs (List.filter
                                   (fun t => String.eqb (category t) c)
                                   (transactions data'))))
         CATEGORIES
    /\ updateTransactionCategory 0 transactionId newCategory [data'] = [data']
    /\ forall fileIndex prev,
         (List.length prev <= fileIndex)%nat ->
         updateTransactionCategory fileIndex transactionId newCategory prev = prev.
Proof.
  intros V C.
  pose proof (validate_emittedOk _ _ V) as Ok.
  exists (updateData transactionId newCategory (aggregate validTransactions)).
  split; [reflexivity |].
  cbn [updateData aggregate transactions totalAmount summary].
  set (f := fun t => if hasId transactionId t then withCategory t newCategory else t).
  set (l' := List.map f validTransactions).
  assert (K : Forall (fun t => In (category t) CATEGORIES) l').
  { unfold l'. apply Forall_map.
    apply (Forall_impl _ (fun t (H : emittedOk t) =>
             match H with conj Hc _ =>
               (if hasId transactionId t as b
                  return In (category (if b then withCategory t newCategory else t)) CATEGORIES
                then C else Hc)
             end) Ok). }
  split; [apply updated_amounts |].
  split; [apply updated_categories |].
  split; [exact K |].
  split; [reflexivity |].
  split; [reflexivity |].
  split.
  - rewrite recalculate_unfold. repeat (apply Forall_cons; [reflexivity |]).
    apply Forall_nil.
  - split.
    + unfold updateTransactionCategory.
      cbn [updateFrom Nat.eqb updateData transactions totalAmount].
      f_equal.
      assert (I : List.map f l' = l').
      { unfold l'. rewrite map_map. apply map_ext. intros t. unfold f.
        destruct (hasId transactionId t) eqn:H; [| rewrite H; reflexivity].
        assert (H' : hasId transactionId (withCategory t newCategory) = true)
          by exact H.
        rewrite H'. reflexivity. }
      unfold updateData. cbn [transactions totalAmount aggregate].
      fold f. fold l'. rewrite I. reflexivity.
    + intros fileIndex prev L. apply updateFrom_beyond. simpl. exact L.
Qed.

Lemma recategorising_keeps_the_total_witness :
  exists data',
    updateTransactionCategory 0 "txn_001" "Groceries"
      [aggregate [recordOf Samples.bell 0; recordOf Samples.unsure 2]] = [data']
    /\ List.map category (transactions data')
       = ["Groceries"; "Miscellaneous"]%string
    /\ StrMap.keys (summary data') = CATEGORIES.
Proof.
  destruct (recategorising_keeps_the_total
              [Samples.bell; Samples.nameless; Samples.unsure]
              [recordOf Samples.bell 0; recordOf Samples.unsure 2]
              "txn_001" "Groceries" eq_refl)
    as (data' & E & _ & Cs & _ & _ & Ks & _).
  - simpl. tauto.
  - exists data'. split; [exact E |]. split; [rewrite Cs; reflexivity | exact Ks].
Defined.

(** The values that the page computes are not those of the route: 0.1 and
    0.2 under one category are summed to 0.30000000000000004 by the page,
    and to 0.3 by the route *)
Example recalculated_value_is_not_rounded :
  exists valid data',
    validate [Samples.entry "2025-07-01" "Tea" (1 # 10) [("category", Str "Restaurants")];
              Samples.entry "2025-07-02" "Bun" (2 # 10) [("category", Str "Restaurants")]]
    = Return valid
    /\ StrMap.get (summary (aggregate valid)) "Restaurants" = Some (Num.flQ (3 # 10))
    /\ updateTransactionCategory 0 "txn_001" "Restaurants" [aggregate valid] = [data']
    /\ (exists v, StrMap.get (summary data') "Restaurants" = Some v
                  /\ v == Num.flQ (3 # 10) + Num.pow2 (-54))
    /\ totalAmount data' = Num.flQ (3 # 10).
Proof.
  eexists. eexists. split; [vm_compute; reflexivity |].
  split; [vm_compute; reflexivity |].
  split; [vm_compute; reflexivity |].
  split; [| vm_compute; reflexivity].
  eexists. split; vm_compute; reflexivity.
Qed.

End PageFacts.

Section PageTotals.

Import JSON Route Page.

(** A summary with the six categories, spelled out *)
Lemma six_keys (m : StrMap.t Q) :
  StrMap.keys m = CATEGORIES ->
  exists v1 v2 v3 v4 v5 v6,
    m = [("Living Expenses"%string, v1); ("Groceries"%string, v2);
         ("Restaurants"%string, v3); ("Car"%string, v4);
         ("Entertainment"%string, v5); ("Miscellaneous"%string, v6)].
Proof.
  unfold StrMap.keys, CATEGORIES. intros H.
  repeat (destruct m as [| [? ?] m]; [discriminate H |];
          cbn [List.map fst] in H;
          injection H as <- H).
  destruct m; [| discriminate H].
  repeat eexists.
Qed.

(** A summary that the page can add up: the six categories, no negative
    value *)
Lemma summaryValue_term (data : ProcessedData) (c : string) :
  fileOk data -> In c CATEGORIES -> Num.term (summaryValue data c).
Proof.
  intros [K P] I. destruct (six_keys _ K) as (v1 & v2 & v3 & v4 & v5 & v6 & E).
  unfold summaryValue. rewrite E in *. simpl in I.
  repeat (destruct I as [<- | I];
          [right; eexists; split; [| reflexivity];
           repeat (match goal with
                   | H : Forall _ (_ :: _) |- _ => inversion_clear H
                   end); assumption |]).
  destruct I.
Qed.

Lemma addSummary_slots (g : string -> Num.number) (data : ProcessedData) :
  StrMap.keys (summary data) = CATEGORIES ->
  (forall c, In c CATEGORIES -> Num.summed (g c)) ->
  addSummary (ProcessPdf.summaryOf g) data
  = ProcessPdf.summaryOf (fun c => Num.add (g c) (summaryValue data c)).
Proof.
  intros K G. destruct (six_keys _ K) as (v1 & v2 & v3 & v4 & v5 & v6 & E).
  unfold addSummary, summaryValue, ProcessPdf.summaryOf. rewrite E.
  cbn [CATEGORIES List.map List.fold_left StrMap.get StrMap.set String.eqb
       Ascii.eqb Bool.eqb].
  rewrite !orZero_summed by (apply G; simpl; tauto).
  reflexivity.
Qed.

Lemma addSummary_first (data : ProcessedData) :
  StrMap.keys (summary data) = CATEGORIES ->
  addSummary [] data
  = ProcessPdf.summaryOf (fun c => Num.add (Num.Fin 0) (summaryValue data c)).
Proof.
  intros K. destruct (six_keys _ K) as (v1 & v2 & v3 & v4 & v5 & v6 & E).
  unfold addSummary, summaryValue. rewrite E. reflexivity.
Qed.

Lemma totals_of_files (processedData : list ProcessedData) :
  Forall fileOk processedData ->
  forall g,
    (forall c, In c CATEGORIES -> Num.summed (g c)) ->
    List.fold_left addSummary processedData (ProcessPdf.summaryOf g)
    = ProcessPdf.summaryOf
        (fun c => List.fold_left Num.add
                    (List.map (fun data => summaryValue data c) processedData)
                    (g c)).
Proof.
  induction 1 as [| data rest K _ IH]; intros g G; [reflexivity |].
  cbn [List.fold_left List.map].
  rewrite (addSummary_slots g data (proj1 K) G), IH; [reflexivity |].
  intros c I. apply add_summed; [apply G, I | apply summaryValue_term; assumption].
Qed.

(** X27.  The total that the page shows over several files whose summaries
    have the six categories and no negative value: each category is
    accumulated across the files in their order, then the six sums are
    added in the order of the categories, each addition being rounded to
    binary64; the result is a number that is not negative or the positive
    infinity, and 0 without a file. *)
Theorem grand_total_of_files (processedData : list ProcessedData) :
  Forall fileOk processedData ->
  grandTotal [] = Num.Fin 0
  /\ Num.summed (grandTotal processedData)
  /\ (processedData <> [] ->
      totalSummary processedData
      = ProcessPdf.summaryOf
          (fun c => Num.sum (List.map (fun data => summaryValue data c)
                               processedData))
      /\ grandTotal processedData
         = Num.sum
             (List.map
                (fun c => Num.sum (List.map (fun data => summaryValue data c)
                                     processedData))
                CATEGORIES)).
Proof.
  intros F. split; [reflexivity |].
  destruct F as [| data rest K F].
  - split; [apply summed_zero | congruence].
  - assert (T : totalSummary (data :: rest)
                = ProcessPdf.summaryOf
                    (fun c => Num.sum (List.map (fun d => summaryValue d c)
                                         (data :: rest)))).
    { unfold totalSummary. cbn [List.fold_left].
      rewrite (addSummary_first data (proj1 K)).
      rewrite (totals_of_files rest F); [reflexivity |].
      intros c I. apply add_zero_term, summaryValue_term; assumption. }
    assert (G : grandTotal (data :: rest)
                = Num.sum
                    (List.map
                       (fun c => Num.sum (List.map (fun d => summaryValue d c)
                                            (data :: rest)))
                       CATEGORIES)).
    { unfold grandTotal. rewrite T. unfold Num.sum at 1.
      unfold StrMap.values, ProcessPdf.summaryOf. rewrite map_map.
      reflexivity. }
    split; [| intros _; split; [exact T | exact G]].
    rewrite G. unfold Num.sum at 1.
    apply fold_add_summed; [| apply summed_zero].
    apply Forall_forall. intros y Hy. apply in_map_iff in Hy.
    destruct Hy as (c & <- & I).
    assert (S : Num.summed (Num.sum (List.map (fun d => summaryValue d c)
                                       (data :: rest)))).
    { apply fold_add_summed; [| apply summed_zero].
      apply Forall_forall. intros y Hy. apply in_map_iff in Hy.
      destruct Hy as (d & <- & Id). apply summaryValue_term; [| exact I].
      assert (A : Forall fileOk (data :: rest)) by (constructor; assumption).
      rewrite Forall_forall in A. apply A, Id. }
    destruct S as [-> | (q & Hq & ->)]; [left; reflexivity |].
    right. exists (Num.flQ q). split; [apply flQ_nonneg, Hq | reflexivity].
Qed.

Lemma grand_total_of_files_witness :
  grandTotal [aggregate [recordOf Samples.fleet 0];
              aggregate [recordOf Samples.toll 0];
              aggregate [recordOf Samples.toll 0]]
  = Num.Fin 10000000000000000.
Proof.
  destruct (grand_total_of_files
              [aggregate [recordOf Samples.fleet 0];
               aggregate [recordOf Samples.toll 0];
               aggregate [recordOf Samples.toll 0]])
    as (_ & _ & G).
  - repeat constructor; vm_compute; discriminate.
  - destruct G as [_ G]; [discriminate |]. rewrite G. vm_compute. reflexivity.
Defined.

End PageTotals.

Section LocalRefusals.

Import ProcessPdf.

(** X25.  The local route refuses a text that is blank (no text content)
    and a text from which the line parser gets no record (no transactions
    found), as every text without a digit or without a full stop is; an
    answer with records never has an empty list of them. *)
Theorem local_route_refusals (currentYear : nat) (fileName text : string) :
  (JS.all JS.isWhiteSpace text = true ->
   POST currentYear fileName text = NoTextContent)
  /\ (JS.all JS.isWhiteSpace text = false ->
      TransactionProcessor.parseTransactionText currentYear text = [] ->
      POST currentYear fileName text = NoTransactionsFound)
  /\ (JS.all JS.isWhiteSpace text = false ->
      JS.any JS.isDigit text = false \/ JS.any (JS.isChar ".") text = false ->
      POST currentYear fileName text = NoTransactionsFound)
  /\ (forall data,
         POST currentYear fileName text = Done data -> transactions data <> []).
Proof.
  assert (B : JS.all JS.isWhiteSpace text = false ->
              TransactionProcessor.parseTransactionText currentYear text = [] ->
              POST currentYear fileName text = NoTransactionsFound).
  { intros W E. unfold POST. rewrite E.
    destruct (JS.trim text) eqn:T; [| reflexivity].
    apply trim_empty in T. congruence. }
  split; [| split; [exact B | split]].
  - intros W. unfold POST.
    apply trim_empty in W. rewrite W. reflexivity.
  - intros W H. apply (B W). apply no_record_without. exact H.
  - intros data H. apply (POST_localOk _ _ _ _ H).
Qed.

End LocalRefusals.

(** ** The description of a line, before it is cleaned *)

Section LineDescription.

Import RegExp TransactionProcessor.

Lemma drop_app (w rest : string) : JS.drop (String.length w) (w ++ rest) = rest.
Proof. induction w as [| c w IH]; simpl; [destruct rest |]; auto. Qed.

(** [s.replace(w, '')] removes the first occurrence of [w] *)
Lemma removeFirst_spec (w : string) :
  forall text,
    JS.includes text w = true ->
    exists before after,
      text = before ++ w ++ after
      /\ JS.removeFirst text w = before ++ after
      /\ forall before' after',
           text = before' ++ w ++ after' ->
           (String.length before <= String.length before')%nat.
Proof.
  induction text as [| c r IH]; intros H.
  - destruct w as [| wc w']; [| discriminate H].
    exists EmptyString, EmptyString.
    split; [reflexivity |]. split; [reflexivity | intros; simpl; lia].
  - cbn [JS.includes] in H. cbn [JS.removeFirst].
    destruct (JS.startsWith (String c r) w) eqn:S.
    + apply startsWith_app in S. destruct S as (rest & E).
      exists EmptyString, rest. split; [exact E |].
      split; [| intros; simpl; lia].
      rewrite E. apply drop_app.
    + simpl in H. destruct (IH H) as (b & a & E & R & M).
      exists (String c b), a.
      split; [rewrite E at 1; reflexivity |].
      split; [rewrite R; reflexivity |].
      intros b' a' E'.
      destruct b' as [| c' b''].
      * exfalso. assert (S' : JS.startsWith (String c r) w = true)
          by (apply startsWith_app; exists a'; exact E').
        congruence.
      * simpl in E'. inversion E'; subst c'.
        simpl. apply le_n_S. apply (M b'' a'). assumption.
Qed.

Lemma matchAllFrom_infix (r : regex) (fuel : nat) :
  forall text m,
    In m (matchAllFrom fuel r text) ->
    exists before after, text = before ++ m ++ after.
Proof.
  induction fuel as [| fuel IH]; intros text m H; [destruct H |].
  cbn [matchAllFrom] in H.
  destruct (search r text) as [[[b m0] a] |] eqn:S; [| destruct H].
  destruct (search_sound _ _ _ _ _ S) as [E _].
  assert (G : forall x pre rest,
             a = pre ++ rest -> In x (matchAllFrom fuel r rest) ->
             exists before after, text = before ++ x ++ after).
  { intros x pre rest Ea Hx.
    destruct (IH _ _ Hx) as (b1 & a1 & E1).
    exists (b ++ m0 ++ pre ++ b1), a1.
    rewrite E, Ea, E1, !app_assoc_string. reflexivity. }
  destruct m0 as [| mc mr].
  - destruct a as [| ac ar].
    + destruct H as [<- | []]. exists b, EmptyString. exact E.
    + destruct H as [<- | H]; [exists b, (String ac ar); exact E |].
      apply (G m (String ac EmptyString) ar); [reflexivity | exact H].
  - destruct H as [<- | H]; [exists b, a; exact E |].
    apply (G m EmptyString a); [reflexivity | exact H].
Qed.

(** X28.  When a line has an amount token, its description, before
    cleaning, is the line without its leading date and without the first
    occurrence of the text of the last token, trimmed: if the same text
    occurs earlier in the line, it is the earlier occurrence that goes. *)
Theorem description_drops_first_occurrence (line : string) :
  matchAll amountToken (cleanLineOf line) <> [] ->
  let amountStr := List.last (matchAll amountToken (cleanLineOf line)) EmptyString in
  exists before after,
    cleanLineOf line = before ++ amountStr ++ after
    /\ fst (extractDescriptionAndAmount line) = JS.trim (before ++ after)
    /\ forall before' after',
         cleanLineOf line = before' ++ amountStr ++ after' ->
         (String.length before <= String.length before')%nat.
Proof.
  intros N. cbv zeta.
  unfold extractDescriptionAndAmount.
  destruct (matchAll amountToken (cleanLineOf line)) as [| m0 ms] eqn:M;
    [congruence |].
  set (amountStr := List.last (m0 :: ms) EmptyString).
  assert (I : In amountStr (matchAll amountToken (cleanLineOf line)))
    by (rewrite M; apply last_In).
  destruct (matchAllFrom_infix _ _ _ _ I) as (b0 & a0 & E0).
  assert (Inc : JS.includes (cleanLineOf line) amountStr = true)
    by (apply includes_spec; exists b0, a0; exact E0).
  destruct (removeFirst_spec amountStr _ Inc) as (b & a & E & R & Min).
  exists b, a. cbn [fst]. rewrite R.
  split; [exact E |]. split; [reflexivity | exact Min].
Qed.

Lemma description_drops_first_occurrence_witness :
  fst (extractDescriptionAndAmount "14 Jul 12.50 refund of 12.50")
  = "refund of 12.50"%string.
Proof.
  destruct (description_drops_first_occurrence "14 Jul 12.50 refund of 12.50")
    as (b & a & E & D & M); [discriminate |].
  rewrite D.
  specialize (M EmptyString " refund of 12.50" eq_refl).
  destruct b as [| c b]; [| simpl in M; lia].
  cbv in E. injection E as <-. reflexivity.
Defined.

End LineDescription.

Section AmountValue.

Import RegExp TransactionProcessor.

(** X29.  The amount of a line with an amount token is read from the last
    token: its digits, the commas left out wherever they stand, counted in
    cents and read as a binary64 number (the positive infinity when they
    are beyond the largest one); it is negated exactly when the line
    without its date holds a debit word. *)
Theorem amount_reads_digits_without_commas (line : string) :
  matchAll amountToken (cleanLineOf line) <> [] ->
  exists (run : string) (d1 d2 : ascii),
    List.last (matchAll amountToken (cleanLineOf line)) EmptyString
    = run ++ String "." (String d1 (String d2 EmptyString))
    /\ JS.all (fun c => JS.isDigit c || JS.isChar "," c) run = true
    /\ JS.isDigit d1 = true /\ JS.isDigit d2 = true
    /\ snd (extractDescriptionAndAmount line)
       = let cents :=
           digitsValue (JS.reject (JS.isChar ",") run
                        ++ String d1 (String d2 EmptyString)) in
         if hasDebitWord (cleanLineOf line)
         then neg (fl (cents # 100)) else fl (cents # 100).
Proof.
  intros N.
  destruct (last_amount_token _ N) as (rest & M).
  destruct (amountToken_shape _ _ M) as (run & d1 & d2 & E & Hr & H1 & H2).
  exists run, d1, d2.
  split; [exact E |]. split; [exact Hr |]. split; [exact H1 |]. split; [exact H2 |].
  unfold extractDescriptionAndAmount.
  destruct (matchAll amountToken (cleanLineOf line)) as [| m0 ms] eqn:L;
    [congruence |].
  cbn [snd]. rewrite E.
  change (Lit ",") with (Cls (JS.isChar ",")).
  rewrite replaceAll_Cls, reject_app.
  assert (R : JS.reject (JS.isChar ",") (String "." (String d1 (String d2 EmptyString)))
              = String "." (String d1 (String d2 EmptyString))).
  { destruct (digit_char d1 H1) as (_ & _ & _ & _ & C1).
    destruct (digit_char d2 H2) as (_ & _ & _ & _ & C2).
    cbn [JS.reject]. unfold JS.isChar. rewrite C1, C2. reflexivity. }
  rewrite R.
  rewrite (parseFloat_cents _ d1 d2 (reject_commas_digits run Hr) H1 H2).
  cbv zeta.
  destruct (hasDebitWord (cleanLineOf line)); reflexivity.
Qed.

Lemma amount_reads_digits_without_commas_witness :
  snd (extractDescriptionAndAmount "14 Jul Payment received 1,2,54.18")
  = neg (fl (125418 # 100)).
Proof.
  destruct (amount_reads_digits_without_commas
              "14 Jul Payment received 1,2,54.18")
    as (run & d1 & d2 & E & _ & _ & _ & A); [discriminate |].
  rewrite A. clear A.
  cbv in E.
  assert (L : String.length run = 6%nat).
  { apply (f_equal String.length) in E. rewrite length_app in E. simpl in E. lia. }
  destruct run as [| r1 [| r2 [| r3 [| r4 [| r5 [| r6 [| ? ?]]]]]]];
    try (simpl in L; lia).
  simpl in E. injection E as <- <- <- <- <- <- <- <-.
  reflexivity.
Defined.

End AmountValue.

Section LocalRecords.

Import ProcessPdf.

(** X30.  Every record that the local route answers has an amount that is
    negative or positive (neither 0 nor [NaN]), one of the six categories
    and a confidence between 0.4 and 1. *)
Theorem local_records_are_classified (currentYear : nat) (fileName text : string)
  (data : Processed) :
  POST currentYear fileName text = Done data ->
  Forall (fun t =>
            (Num.ltZero (amount t) = true \/ Num.gtZero (amount t) = true)
            /\ In (category t) Route.CATEGORIES
            /\ 4 # 10 <= confidence t /\ confidence t <= 1)
    (transactions data).
Proof.
  intros H. exact (proj1 (POST_localOk _ _ _ _ H)).
Qed.

Lemma local_records_are_classified_witness :
  exists data,
    POST 2025 "s.pdf" "14 Jul Visa Debit purchase - 1234 STORE 12.50" = Done data
    /\ Forall (fun t => In (category t) Route.CATEGORIES) (transactions data).
Proof.
  eexists. split; [reflexivity |].
  apply (Forall_impl _ (fun t H => proj1 (proj2 H))
           (local_records_are_classified 2025 "s.pdf"
              "14 Jul Visa Debit purchase - 1234 STORE 12.50" _ eq_refl)).
Defined.

End LocalRecords.
